(** * DevEngine: the Kubernetes manifest generator

    A shallow embedding of [backend/generators/kubernetes.js] and the
    properties of its specification.

    The generator is a synchronous JavaScript function over a JSON payload.
    - JSON scalars are embedded as [value]; a field that is absent reads as
      [Undefined]. Nested objects and arrays are records and lists under an
      option ([None]: the field is absent, or [null] where the code tests
      it for truthiness first).
    - A template literal becomes the concatenation of its literal text and
      [toString] of the interpolated values, line feeds spelled [LF].
    - The output object [files] and the table [rulesByHost] are ordered
      property lists: assignment keeps the place of an existing key, and
      [Object.keys] lists array indices first. The tables indexed by tier
      name are read through the prototype chain, as [obj[key]] is.
    - A call either returns or throws: [outcome].

    The module [Server] embeds the endpoint of the Express server that
    calls the generator, and the start-up block that waits for the
    database. *)

From Stdlib Require Import String Ascii List ZArith Bool Lia DecimalString.
From Stdlib Require Import Permutation.
Import ListNotations.
Open Scope string_scope.

(** ** JavaScript scalars *)

Module Js.

(** A line feed and a double quote, the two characters of the templates
    that are awkward inside a literal. *)
Definition LF : string := String (ascii_of_nat 10) EmptyString.
Definition DQ : string := String (ascii_of_nat 34) EmptyString.

(** JSON scalars. Numbers are the integers whose JavaScript rendering is
    the plain decimal one (magnitude below 10^21); fractions, NaN and the
    infinities are outside the embedding. *)
Inductive value : Type :=
  | Undefined
  | Null
  | Bool (b : bool)
  | Num (z : Z)
  | Str (s : string).

(** ToBoolean. *)
Definition truthy (v : value) : bool :=
  match v with
  | Undefined | Null => false
  | Bool b => b
  | Num z => negb (z =? 0)%Z
  | Str s => negb (s =? EmptyString)
  end.

(** ToString, as applied by a template literal's placeholder. *)
Definition toString (v : value) : string :=
  match v with
  | Undefined => "undefined"
  | Null => "null"
  | Bool true => "true"
  | Bool false => "false"
  | Num z => NilEmpty.string_of_int (Z.to_int z)
  | Str s => s
  end.

(** [a || b]. *)
Definition or_else (a b : value) : value := if truthy a then a else b.

(** A destructuring default, [{ x = d } = obj]: only [undefined] takes it. *)
Definition default (a d : value) : value :=
  match a with Undefined => d | _ => a end.

(** [v === 'literal']. *)
Definition is_str (v : value) (s : string) : bool :=
  match v with Str t => t =? s | _ => false end.

(** [Array.prototype.join] on an array of strings. *)
Fixpoint join (sep : string) (l : list string) : string :=
  match l with
  | [] => EmptyString
  | [x] => x
  | x :: rest => x ++ sep ++ join sep rest
  end.

(** [Array.prototype.map] with the index argument. *)
Fixpoint mapi_from {A B} (i : nat) (f : A -> nat -> B) (l : list A) : list B :=
  match l with
  | [] => []
  | x :: rest => f x i :: mapi_from (S i) f rest
  end.

Definition mapi {A B} (f : A -> nat -> B) (l : list A) : list B :=
  mapi_from 0 f l.

(** [String.prototype.includes], as a proposition and as a test. *)
Definition includes (needle hay : string) : Prop :=
  exists pre post, hay = pre ++ needle ++ post.

(** [String.prototype.endsWith]. *)
Definition endsWith (suffix s : string) : Prop :=
  exists pre, s = pre ++ suffix.

Fixpoint includesb (needle hay : string) : bool :=
  String.prefix needle hay ||
  match hay with
  | EmptyString => false
  | String _ rest => includesb needle rest
  end.

(** *** Ordinary objects used as dictionaries *)

(** Own string-keyed properties in creation order. *)
Definition props (A : Type) : Type := list (string * A).

Fixpoint get {A} (k : string) (o : props A) : option A :=
  match o with
  | [] => None
  | (k', v) :: rest => if k' =? k then Some v else get k rest
  end.

(** [o[k] = v] on own data properties: an existing key keeps its place. *)
Fixpoint set {A} (k : string) (v : A) (o : props A) : props A :=
  match o with
  | [] => [(k, v)]
  | (k', v') :: rest =>
      if k' =? k then (k', v) :: rest else (k', v') :: set k v rest
  end.

Definition keys {A} (o : props A) : list string := map fst o.

(** [Object.assign(target, source)]. *)
Definition assign {A} (target source : props A) : props A :=
  fold_left (fun acc kv => set (fst kv) (snd kv) acc) source target.

(** The properties every object literal inherits from [Object.prototype]. *)
Definition object_prototype_names : list string :=
  [ "constructor"; "__defineGetter__"; "__defineSetter__"; "hasOwnProperty";
    "__lookupGetter__"; "__lookupSetter__"; "isPrototypeOf";
    "propertyIsEnumerable"; "toString"; "valueOf"; "__proto__";
    "toLocaleString" ].

Definition inherited (k : string) : bool :=
  existsb (String.eqb k) object_prototype_names.

(** Array indices: canonical decimal numerals below 2^32 - 1. [Object.keys]
    lists these first, in ascending numeric order, and then the remaining
    keys in creation order. *)
Definition digit_of (c : ascii) : option N :=
  let n := N_of_ascii c in
  if ((48 <=? n) && (n <=? 57))%N then Some (n - 48)%N else None.

Fixpoint digits_value (acc : N) (s : string) : option N :=
  match s with
  | EmptyString => Some acc
  | String c rest =>
      match digit_of c with
      | Some d => digits_value (acc * 10 + d)%N rest
      | None => None
      end
  end.

Definition array_index (s : string) : option N :=
  match s with
  | EmptyString => None
  | String c rest =>
      if (c =? "0")%char && negb (rest =? EmptyString) then None
      else match digits_value 0%N s with
           | Some n => if (n <? 4294967295)%N then Some n else None
           | None => None
           end
  end.

Fixpoint insert_index (n : N) (k : string) (l : list (N * string))
  : list (N * string) :=
  match l with
  | [] => [(n, k)]
  | (m, k') :: rest =>
      if (n <=? m)%N then (n, k) :: l else (m, k') :: insert_index n k rest
  end.

Fixpoint index_keys (ks : list string) : list (N * string) :=
  match ks with
  | [] => []
  | k :: rest =>
      match array_index k with
      | Some n => insert_index n k (index_keys rest)
      | None => index_keys rest
      end
  end.

Definition named_keys (ks : list string) : list string :=
  filter (fun k => match array_index k with Some _ => false | None => true end) ks.

Definition Object_keys {A} (o : props A) : list string :=
  map snd (index_keys (keys o)) ++ named_keys (keys o).

End Js.

Import Js.

(** ** The request payload

    One record per JSON object shape read by the generator; every scalar
    field is a [value], so an absent field is [Undefined]. Nested objects
    and arrays that the code tests for presence are options. *)

Module EnvVar.
Record t : Type := mk { name : value; val : value }.
End EnvVar.

Module KeyValue.
Record t : Type := mk { key : value; val : value }.
End KeyValue.

Module Resources.
Record t : Type := mk {
  requestsCpu : value;
  requestsMemory : value;
  limitsCpu : value;
  limitsMemory : value }.
Definition empty : t := mk Undefined Undefined Undefined Undefined.
End Resources.

Module Probe.
Record t : Type := mk {
  path : value;
  port : value;
  initialDelaySeconds : value;
  periodSeconds : value }.
End Probe.

Module Pvc.
Record t : Type := mk {
  enabled : value;
  storageClass : value;
  size : value;
  accessMode : value;
  mountPath : value }.
Definition empty : t := mk Undefined Undefined Undefined Undefined Undefined.
End Pvc.

Module Pv.
Record t : Type := mk {
  enabled : value;
  type : value;
  size : value;
  accessMode : value;
  reclaimPolicy : value;
  storageClass : value;
  hostPath : value;
  nfsServer : value;
  nfsPath : value;
  localPath : value;
  awsVolumeID : value;
  awsFsType : value;
  gcePdName : value;
  gceFsType : value;
  azureDiskName : value;
  azureDiskURI : value;
  azureKind : value;
  azureCachingMode : value;
  cephMonitors : value;
  cephPool : value;
  cephImage : value;
  cephUser : value;
  cephSecretName : value;
  cephFsType : value;
  iscsiTargetPortal : value;
  iscsiIqn : value;
  iscsiLun : value;
  iscsiFsType : value }.
Definition empty : t :=
  mk Undefined Undefined Undefined Undefined Undefined Undefined Undefined
     Undefined Undefined Undefined Undefined Undefined Undefined Undefined
     Undefined Undefined Undefined Undefined Undefined Undefined Undefined
     Undefined Undefined Undefined Undefined Undefined Undefined Undefined.
End Pv.

Module Service.
Record t : Type := mk { type : value; port : value; targetPort : value }.
End Service.

Module Ingress.
Record t : Type := mk { host : value; path : value }.
End Ingress.

Module Tier.
Record t : Type := mk {
  name : value;
  replicas : value;
  image : value;
  containerPort : value;
  workloadType : value;
  env : option (list EnvVar.t);
  configMapData : option (list KeyValue.t);
  secretData : option (list KeyValue.t);
  resources : option Resources.t;
  livenessProbe : option Probe.t;
  readinessProbe : option Probe.t;
  pvc : option Pvc.t;
  pv : option Pv.t;
  service : option Service.t;
  ingress : option Ingress.t }.
End Tier.

Module Payload.
(** [tiers] is [None] when the field is not an array. *)
Record t : Type := mk {
  appName : value;
  namespace : value;
  createNamespace : value;
  enableRBAC : value;
  tiers : option (list Tier.t) }.
End Payload.

(** [arr = []] as a parameter or destructuring default. *)
Definition or_empty {A} (o : option (list A)) : list A :=
  match o with Some l => l | None => [] end.

(** The property key of a tier: [tier.name] converted by [ToPropertyKey]. *)
Definition tier_key (tier : Tier.t) : string := toString (Tier.name tier).

(** ** Field renderers *)

Definition renderEnv (env : option (list EnvVar.t)) : string :=
  let env := or_empty env in
  match env with
  | [] => EmptyString
  | _ =>
      LF ++ "          env:" ++ LF ++
      join LF
        (map (fun e =>
                "            - name: " ++ toString (EnvVar.name e) ++ LF ++
                "              value: " ++ DQ ++ toString (EnvVar.val e) ++ DQ)
             env)
  end.

Definition renderResources (resources : option Resources.t) : string :=
  let r := match resources with Some r => r | None => Resources.empty end in
  let requestsCpu := Resources.requestsCpu r in
  let requestsMemory := Resources.requestsMemory r in
  let limitsCpu := Resources.limitsCpu r in
  let limitsMemory := Resources.limitsMemory r in
  if negb (truthy requestsCpu) && negb (truthy requestsMemory)
     && negb (truthy limitsCpu) && negb (truthy limitsMemory)
  then EmptyString
  else
    let requests :=
      if truthy requestsCpu || truthy requestsMemory then
        "requests:"
        :: (if truthy requestsCpu
            then ["  cpu: " ++ DQ ++ toString requestsCpu ++ DQ] else [])
        ++ (if truthy requestsMemory
            then ["  memory: " ++ DQ ++ toString requestsMemory ++ DQ] else [])
      else [] in
    let limits :=
      if truthy limitsCpu || truthy limitsMemory then
        "limits:"
        :: (if truthy limitsCpu
            then ["  cpu: " ++ DQ ++ toString limitsCpu ++ DQ] else [])
        ++ (if truthy limitsMemory
            then ["  memory: " ++ DQ ++ toString limitsMemory ++ DQ] else [])
      else [] in
    let lines := (requests ++ limits)%list in
    match lines with
    | [] => EmptyString
    | _ =>
        LF ++ "          resources:" ++ LF ++
        join LF
          (mapi (fun l i =>
                   match i with
                   | O => "            " ++ l
                   | _ => "            " ++
                          (if String.prefix "  " l then l else "  " ++ l)
                   end)
                lines)
    end.

Definition renderHttpProbe (probe : option Probe.t) (type : string) : string :=
  match probe with
  | None => EmptyString
  | Some probe =>
      if negb (truthy (Probe.path probe)) || negb (truthy (Probe.port probe))
      then EmptyString
      else
        let path := Probe.path probe in
        let port := Probe.port probe in
        let initialDelaySeconds :=
          default (Probe.initialDelaySeconds probe) (Num 10) in
        let periodSeconds := default (Probe.periodSeconds probe) (Num 10) in
        LF ++ "          " ++ type ++ "Probe:" ++ LF ++
        "            httpGet:" ++ LF ++
        "              path: " ++ toString path ++ LF ++
        "              port: " ++ toString port ++ LF ++
        "            initialDelaySeconds: " ++ toString initialDelaySeconds ++ LF ++
        "            periodSeconds: " ++ toString periodSeconds
  end.

(** ** Leaf resource renderers *)

Module CmRef.
Record t : Type := mk { filename : string; content : string; cmName : string }.
End CmRef.

Module SecretRef.
Record t : Type := mk { filename : string; content : string; secretName : string }.
End SecretRef.

Module PvcRef.
Record t : Type := mk { filename : string; content : string; pvcName : string }.
End PvcRef.

Module PvFile.
Record t : Type := mk { filename : string; content : string }.
End PvFile.

Definition dataLines (data : list KeyValue.t) : string :=
  join LF
    (map (fun d => "  " ++ toString (KeyValue.key d) ++ ": " ++
                   DQ ++ toString (KeyValue.val d) ++ DQ)
         data).

Definition renderConfigMap (tier : Tier.t) (namespace appName : value)
  : option CmRef.t :=
  let configMapData := or_empty (Tier.configMapData tier) in
  let name := Tier.name tier in
  match configMapData with
  | [] => None
  | _ =>
      let cmName := toString appName ++ "-" ++ toString name ++ "-config" in
      Some (CmRef.mk
        ("configmap-" ++ toString name ++ ".yaml")
        ("apiVersion: v1" ++ LF ++
         "kind: ConfigMap" ++ LF ++
         "metadata:" ++ LF ++
         "  name: " ++ cmName ++ LF ++
         "  namespace: " ++ toString namespace ++ LF ++
         "data:" ++ LF ++
         dataLines configMapData ++ LF)
        cmName)
  end.

Definition renderSecret (tier : Tier.t) (namespace appName : value)
  : option SecretRef.t :=
  let secretData := or_empty (Tier.secretData tier) in
  let name := Tier.name tier in
  match secretData with
  | [] => None
  | _ =>
      let secretName := toString appName ++ "-" ++ toString name ++ "-secret" in
      Some (SecretRef.mk
        ("secret-" ++ toString name ++ ".yaml")
        ("apiVersion: v1" ++ LF ++
         "kind: Secret" ++ LF ++
         "metadata:" ++ LF ++
         "  name: " ++ secretName ++ LF ++
         "  namespace: " ++ toString namespace ++ LF ++
         "type: Opaque" ++ LF ++
         "stringData:" ++ LF ++
         dataLines secretData ++ LF)
        secretName)
  end.

Definition generateNamespace (namespace : value) : string :=
  "apiVersion: v1" ++ LF ++
  "kind: Namespace" ++ LF ++
  "metadata:" ++ LF ++
  "  name: " ++ toString namespace ++ LF.

(** PVC for Deployment. *)
Definition generatePVC (tier : Tier.t) (namespace appName : value)
  : option PvcRef.t :=
  let pvc := match Tier.pvc tier with Some p => p | None => Pvc.empty end in
  if negb (truthy (Pvc.enabled pvc)) then None
  else
    let storageClass := default (Pvc.storageClass pvc) (Str EmptyString) in
    let size := default (Pvc.size pvc) (Str "5Gi") in
    let accessMode := default (Pvc.accessMode pvc) (Str "ReadWriteOnce") in
    let pvcName :=
      toString appName ++ "-" ++ toString (Tier.name tier) ++ "-pvc" in
    let scLine :=
      if truthy storageClass
      then "  storageClassName: " ++ DQ ++ toString storageClass ++ DQ ++ LF
      else EmptyString in
    Some (PvcRef.mk
      ("pvc-" ++ toString (Tier.name tier) ++ ".yaml")
      ("apiVersion: v1" ++ LF ++
       "kind: PersistentVolumeClaim" ++ LF ++
       "metadata:" ++ LF ++
       "  name: " ++ pvcName ++ LF ++
       "  namespace: " ++ toString namespace ++ LF ++
       "spec:" ++ LF ++
       "  accessModes:" ++ LF ++
       "    - " ++ toString accessMode ++ LF ++
       scLine ++ "  resources:" ++ LF ++
       "    requests:" ++ LF ++
       "      storage: " ++ toString size ++ LF)
      pvcName).

(** The [volumeSource] text chosen by the [switch (type)] of [generatePV];
    [None] is the early [return null] of a backend whose required fields
    are falsy, or of the [default] branch. *)
Definition volumeSource (tier : Tier.t) (appName : value) (pv : Pv.t)
  : option string :=
  let type := Pv.type pv in
  if is_str type "hostPath" then
    let path :=
      or_else (Pv.hostPath pv)
        (Str ("/mnt/data/" ++ toString appName ++ "-" ++ toString (Tier.name tier))) in
    Some ("  hostPath:" ++ LF ++
          "    path: " ++ toString path ++ LF)
  else if is_str type "nfs" then
    if negb (truthy (Pv.nfsServer pv)) || negb (truthy (Pv.nfsPath pv)) then None
    else
      Some ("  nfs:" ++ LF ++
            "    server: " ++ toString (Pv.nfsServer pv) ++ LF ++
            "    path: " ++ toString (Pv.nfsPath pv) ++ LF ++
            "    readOnly: false" ++ LF)
  else if is_str type "local" then
    let path :=
      or_else (Pv.localPath pv)
        (Str ("/mnt/local/" ++ toString appName ++ "-" ++ toString (Tier.name tier))) in
    Some ("  local:" ++ LF ++
          "    path: " ++ toString path ++ LF)
  else if is_str type "awsEbs" then
    if negb (truthy (Pv.awsVolumeID pv)) then None
    else
      Some ("  awsElasticBlockStore:" ++ LF ++
            "    volumeID: " ++ toString (Pv.awsVolumeID pv) ++ LF ++
            "    fsType: " ++ toString (or_else (Pv.awsFsType pv) (Str "ext4")) ++ LF)
  else if is_str type "gcePd" then
    if negb (truthy (Pv.gcePdName pv)) then None
    else
      Some ("  gcePersistentDisk:" ++ LF ++
            "    pdName: " ++ toString (Pv.gcePdName pv) ++ LF ++
            "    fsType: " ++ toString (or_else (Pv.gceFsType pv) (Str "ext4")) ++ LF)
  else if is_str type "azureDisk" then
    if negb (truthy (Pv.azureDiskName pv)) || negb (truthy (Pv.azureDiskURI pv))
    then None
    else
      Some ("  azureDisk:" ++ LF ++
            "    diskName: " ++ toString (Pv.azureDiskName pv) ++ LF ++
            "    diskURI: " ++ toString (Pv.azureDiskURI pv) ++ LF ++
            "    kind: " ++ toString (or_else (Pv.azureKind pv) (Str "Managed")) ++ LF ++
            "    cachingMode: " ++
              toString (or_else (Pv.azureCachingMode pv) (Str "None")) ++ LF)
  else if is_str type "cephRbd" then
    if negb (truthy (Pv.cephMonitors pv)) || negb (truthy (Pv.cephPool pv))
       || negb (truthy (Pv.cephImage pv)) || negb (truthy (Pv.cephUser pv))
    then None
    else
      Some ("  rbd:" ++ LF ++
            "    monitors: [" ++ toString (Pv.cephMonitors pv) ++ "]" ++ LF ++
            "    pool: " ++ toString (Pv.cephPool pv) ++ LF ++
            "    image: " ++ toString (Pv.cephImage pv) ++ LF ++
            "    user: " ++ toString (Pv.cephUser pv) ++ LF ++
            "    secretRef:" ++ LF ++
            "      name: " ++
              toString (or_else (Pv.cephSecretName pv)
                          (Str (toString appName ++ "-ceph-secret"))) ++ LF ++
            "    fsType: " ++ toString (or_else (Pv.cephFsType pv) (Str "ext4")) ++ LF)
  else if is_str type "iscsi" then
    if negb (truthy (Pv.iscsiTargetPortal pv)) || negb (truthy (Pv.iscsiIqn pv))
       || negb (truthy (Pv.iscsiLun pv))
    then None
    else
      Some ("  iscsi:" ++ LF ++
            "    targetPortal: " ++ toString (Pv.iscsiTargetPortal pv) ++ LF ++
            "    iqn: " ++ toString (Pv.iscsiIqn pv) ++ LF ++
            "    lun: " ++ toString (Pv.iscsiLun pv) ++ LF ++
            "    fsType: " ++ toString (or_else (Pv.iscsiFsType pv) (Str "ext4")) ++ LF)
  else None.

Definition generatePV (tier : Tier.t) (appName : value) : option PvFile.t :=
  let pv := match Tier.pv tier with Some p => p | None => Pv.empty end in
  let enabled := Pv.enabled pv in
  let type := Pv.type pv in
  let size := default (Pv.size pv) (Str "5Gi") in
  let accessMode := default (Pv.accessMode pv) (Str "ReadWriteOnce") in
  let reclaimPolicy := default (Pv.reclaimPolicy pv) (Str "Retain") in
  let storageClass := default (Pv.storageClass pv) (Str EmptyString) in
  if negb (truthy enabled) || negb (truthy type) || is_str type "none" then None
  else
    let pvName :=
      toString appName ++ "-" ++ toString (Tier.name tier) ++ "-pv" in
    let scLine :=
      if truthy storageClass
      then "  storageClassName: " ++ DQ ++ toString storageClass ++ DQ ++ LF
      else EmptyString in
    match volumeSource tier appName pv with
    | None => None
    | Some volumeSource =>
        Some (PvFile.mk
          ("pv-" ++ toString (Tier.name tier) ++ ".yaml")
          ("apiVersion: v1" ++ LF ++
           "kind: PersistentVolume" ++ LF ++
           "metadata:" ++ LF ++
           "  name: " ++ pvName ++ LF ++
           "spec:" ++ LF ++
           "  capacity:" ++ LF ++
           "    storage: " ++ toString size ++ LF ++
           "  accessModes:" ++ LF ++
           "    - " ++ toString accessMode ++ LF ++
           "  persistentVolumeReclaimPolicy: " ++ toString reclaimPolicy ++ LF ++
           scLine ++ volumeSource))
    end.

(** ** Reference tables

    [cmRefs], [secretRefs] and [pvcRefs] are object literals indexed by
    [tier.name]. A read [refs[k]] finds an own property, or else what the
    prototype chain holds under [k]; a write under the key [__proto__]
    replaces the prototype instead of creating a property. *)

Module Refs.

Record t (A : Type) : Type := mk { own : props A; proto : option A }.
Arguments mk {A} _ _.
Arguments own {A} _.
Arguments proto {A} _.

(** What [refs[k]] evaluates to: a stored reference, some other truthy
    value found on the prototype chain (none of whose [cmName],
    [secretName] or [pvcName] is defined), or [undefined]. *)
Inductive found (A : Type) : Type :=
  | Own (a : A)
  | Inherited
  | Missing.
Arguments Own {A} _.
Arguments Inherited {A}.
Arguments Missing {A}.

Definition empty {A} : t A := mk [] None.

Definition set {A} (k : string) (a : A) (o : t A) : t A :=
  if k =? "__proto__" then mk (own o) (Some a)
  else mk (Js.set k a (own o)) (proto o).

(** [fields] are the property names of the stored records, visible
    through the chain once one of them has become the prototype. *)
Definition get {A} (fields : list string) (k : string) (o : t A) : found A :=
  match Js.get k (own o) with
  | Some a => Own a
  | None =>
      if k =? "__proto__" then
        match proto o with Some a => Own a | None => Inherited end
      else if match proto o with
              | Some _ => existsb (String.eqb k) fields
              | None => false
              end then Inherited
      else if inherited k then Inherited
      else Missing
  end.

(** [if (ref)]. *)
Definition present {A} (r : found A) : bool :=
  match r with Missing => false | _ => true end.

(** [${ref.field}]. *)
Definition field {A} (f : A -> string) (r : found A) : string :=
  match r with Own a => f a | _ => "undefined" end.

End Refs.

Definition cm_fields : list string := ["filename"; "content"; "cmName"].
Definition secret_fields : list string := ["filename"; "content"; "secretName"].
Definition pvc_fields : list string := ["filename"; "content"; "pvcName"].

(** ** Workload renderers *)

(** [if (c) arr.push(x)] on a fresh array, one conditional push after another. *)
Definition pushed (c : bool) (x : string) : list string :=
  if c then [x] else [].

Definition volumeMountsSection (volumeMounts : list string) : string :=
  match volumeMounts with
  | [] => EmptyString
  | _ => LF ++ "          volumeMounts:" ++ LF ++ join LF volumeMounts
  end.

Definition volumesSection (volumes : list string) : string :=
  match volumes with
  | [] => EmptyString
  | _ => LF ++ "      volumes:" ++ LF ++ join LF volumes
  end.

Definition generateDeployment (tier : Tier.t) (namespace appName : value)
    (cmRef : Refs.found CmRef.t) (secretRef : Refs.found SecretRef.t)
    (pvcRef : Refs.found PvcRef.t) : string :=
  let name := Tier.name tier in
  let deploymentName := toString appName ++ "-" ++ toString name in
  let envSection := renderEnv (Tier.env tier) in
  let resourcesSection := renderResources (Tier.resources tier) in
  let livenessSection := renderHttpProbe (Tier.livenessProbe tier) "liveness" in
  let readinessSection := renderHttpProbe (Tier.readinessProbe tier) "readiness" in
  let cm := Refs.field CmRef.cmName cmRef in
  let sec := Refs.field SecretRef.secretName secretRef in
  let claim := Refs.field PvcRef.pvcName pvcRef in
  let mountPath :=
    or_else (match Tier.pvc tier with
             | Some pvc => Pvc.mountPath pvc
             | None => Undefined
             end) (Str "/data") in
  let volumeMounts :=
    List.concat
      [ pushed (Refs.present cmRef)
          ("            - name: " ++ cm ++ "-vol" ++ LF ++
           "              mountPath: /config/" ++ toString name);
        pushed (Refs.present secretRef)
          ("            - name: " ++ sec ++ "-vol" ++ LF ++
           "              mountPath: /secrets/" ++ toString name);
        pushed (Refs.present pvcRef)
          ("            - name: " ++ claim ++ "-vol" ++ LF ++
           "              mountPath: " ++ toString mountPath) ] in
  let volumes :=
    List.concat
      [ pushed (Refs.present cmRef)
          ("        - name: " ++ cm ++ "-vol" ++ LF ++
           "          configMap:" ++ LF ++
           "            name: " ++ cm);
        pushed (Refs.present secretRef)
          ("        - name: " ++ sec ++ "-vol" ++ LF ++
           "          secret:" ++ LF ++
           "            secretName: " ++ sec);
        pushed (Refs.present pvcRef)
          ("        - name: " ++ claim ++ "-vol" ++ LF ++
           "          persistentVolumeClaim:" ++ LF ++
           "            claimName: " ++ claim) ] in
  "apiVersion: apps/v1" ++ LF ++
  "kind: Deployment" ++ LF ++
  "metadata:" ++ LF ++
  "  name: " ++ deploymentName ++ LF ++
  "  namespace: " ++ toString namespace ++ LF ++
  "  labels:" ++ LF ++
  "    app: " ++ toString appName ++ LF ++
  "    tier: " ++ toString name ++ LF ++
  "spec:" ++ LF ++
  "  replicas: " ++ toString (Tier.replicas tier) ++ LF ++
  "  selector:" ++ LF ++
  "    matchLabels:" ++ LF ++
  "      app: " ++ toString appName ++ LF ++
  "      tier: " ++ toString name ++ LF ++
  "  template:" ++ LF ++
  "    metadata:" ++ LF ++
  "      labels:" ++ LF ++
  "        app: " ++ toString appName ++ LF ++
  "        tier: " ++ toString name ++ LF ++
  "    spec:" ++ LF ++
  "      containers:" ++ LF ++
  "        - name: " ++ toString name ++ LF ++
  "          image: " ++ toString (Tier.image tier) ++ LF ++
  "          ports:" ++ LF ++
  "            - containerPort: " ++ toString (Tier.containerPort tier) ++
  envSection ++ resourcesSection ++ livenessSection ++ readinessSection ++
  volumeMountsSection volumeMounts ++ volumesSection volumes ++ LF.

(** The [volumeClaimTemplates] entry of a StatefulSet whose [pvc] is enabled. *)
Definition volumeClaimTemplate (pvc : Pvc.t) : string :=
  let size := default (Pvc.size pvc) (Str "5Gi") in
  let storageClass := default (Pvc.storageClass pvc) (Str EmptyString) in
  let accessMode := default (Pvc.accessMode pvc) (Str "ReadWriteOnce") in
  let scLine :=
    if truthy storageClass
    then "        storageClassName: " ++ DQ ++ toString storageClass ++ DQ ++ LF
    else EmptyString in
  "  volumeClaimTemplates:" ++ LF ++
  "    - metadata:" ++ LF ++
  "        name: data" ++ LF ++
  "      spec:" ++ LF ++
  "        accessModes:" ++ LF ++
  "          - " ++ toString accessMode ++ LF ++
  scLine ++ "        resources:" ++ LF ++
  "          requests:" ++ LF ++
  "            storage: " ++ toString size.

(** [pvc && pvc.enabled]. *)
Definition pvc_enabled (tier : Tier.t) : bool :=
  match Tier.pvc tier with
  | Some pvc => truthy (Pvc.enabled pvc)
  | None => false
  end.

Definition vctSection (volumeClaimTemplates : list string) : string :=
  match volumeClaimTemplates with
  | [] => EmptyString
  | _ => LF ++ join LF volumeClaimTemplates
  end.

(** The [volumes] list of a StatefulSet. *)
Definition extraVolumes (cmRef : Refs.found CmRef.t)
    (secretRef : Refs.found SecretRef.t) : string :=
  let cm := Refs.field CmRef.cmName cmRef in
  let sec := Refs.field SecretRef.secretName secretRef in
  if Refs.present cmRef || Refs.present secretRef then
    LF ++ "      volumes:" ++
    (if Refs.present cmRef then
       LF ++ "        - name: " ++ cm ++ "-vol" ++ LF ++
       "          configMap:" ++ LF ++
       "            name: " ++ cm
     else EmptyString) ++
    (if Refs.present secretRef then
       LF ++ "        - name: " ++ sec ++ "-vol" ++ LF ++
       "          secret:" ++ LF ++
       "            secretName: " ++ sec
     else EmptyString)
  else EmptyString.

Definition statefulSetVolumeMounts (tier : Tier.t)
    (cmRef : Refs.found CmRef.t) (secretRef : Refs.found SecretRef.t)
  : list string :=
  let name := Tier.name tier in
  List.concat
    [ pushed (Refs.present cmRef)
        ("            - name: " ++ Refs.field CmRef.cmName cmRef ++ "-vol" ++ LF ++
         "              mountPath: /config/" ++ toString name);
      pushed (Refs.present secretRef)
        ("            - name: " ++ Refs.field SecretRef.secretName secretRef ++
           "-vol" ++ LF ++
         "              mountPath: /secrets/" ++ toString name);
      match Tier.pvc tier with
      | Some pvc =>
          pushed (truthy (Pvc.enabled pvc))
            ("            - name: data" ++ LF ++
             "              mountPath: " ++
               toString (default (Pvc.mountPath pvc) (Str "/data")))
      | None => []
      end ].

Definition statefulSetClaimTemplates (tier : Tier.t) : list string :=
  match Tier.pvc tier with
  | Some pvc => if truthy (Pvc.enabled pvc) then [volumeClaimTemplate pvc] else []
  | None => []
  end.

Definition generateStatefulSet (tier : Tier.t) (namespace appName : value)
    (cmRef : Refs.found CmRef.t) (secretRef : Refs.found SecretRef.t) : string :=
  let name := Tier.name tier in
  let ssName := toString appName ++ "-" ++ toString name in
  let headlessServiceName :=
    toString appName ++ "-" ++ toString name ++ "-headless" in
  let envSection := renderEnv (Tier.env tier) in
  let resourcesSection := renderResources (Tier.resources tier) in
  let livenessSection := renderHttpProbe (Tier.livenessProbe tier) "liveness" in
  let readinessSection := renderHttpProbe (Tier.readinessProbe tier) "readiness" in
  let volumeMounts := statefulSetVolumeMounts tier cmRef secretRef in
  let volumeClaimTemplates := statefulSetClaimTemplates tier in
  "apiVersion: apps/v1" ++ LF ++
  "kind: StatefulSet" ++ LF ++
  "metadata:" ++ LF ++
  "  name: " ++ ssName ++ LF ++
  "  namespace: " ++ toString namespace ++ LF ++
  "  labels:" ++ LF ++
  "    app: " ++ toString appName ++ LF ++
  "    tier: " ++ toString name ++ LF ++
  "spec:" ++ LF ++
  "  serviceName: " ++ headlessServiceName ++ LF ++
  "  replicas: " ++ toString (Tier.replicas tier) ++ LF ++
  "  selector:" ++ LF ++
  "    matchLabels:" ++ LF ++
  "      app: " ++ toString appName ++ LF ++
  "      tier: " ++ toString name ++ LF ++
  "  template:" ++ LF ++
  "    metadata:" ++ LF ++
  "      labels:" ++ LF ++
  "        app: " ++ toString appName ++ LF ++
  "        tier: " ++ toString name ++ LF ++
  "    spec:" ++ LF ++
  "      containers:" ++ LF ++
  "        - name: " ++ toString name ++ LF ++
  "          image: " ++ toString (Tier.image tier) ++ LF ++
  "          ports:" ++ LF ++
  "            - containerPort: " ++ toString (Tier.containerPort tier) ++
  envSection ++ resourcesSection ++ livenessSection ++ readinessSection ++
  volumeMountsSection volumeMounts ++ extraVolumes cmRef secretRef ++
  vctSection volumeClaimTemplates ++ LF.

(** ** Network renderers *)

Definition generateService (tier : Tier.t) (namespace appName : value)
  : option string :=
  let name := Tier.name tier in
  let containerPort := Tier.containerPort tier in
  match Tier.service tier with
  | None => None
  | Some service =>
      let serviceName := toString appName ++ "-" ++ toString name in
      Some
        ("apiVersion: v1" ++ LF ++
         "kind: Service" ++ LF ++
         "metadata:" ++ LF ++
         "  name: " ++ serviceName ++ LF ++
         "  namespace: " ++ toString namespace ++ LF ++
         "  labels:" ++ LF ++
         "    app: " ++ toString appName ++ LF ++
         "    tier: " ++ toString name ++ LF ++
         "spec:" ++ LF ++
         "  type: " ++ toString (Service.type service) ++ LF ++
         "  selector:" ++ LF ++
         "    app: " ++ toString appName ++ LF ++
         "    tier: " ++ toString name ++ LF ++
         "  ports:" ++ LF ++
         "    - name: http" ++ LF ++
         "      port: " ++ toString (Service.port service) ++ LF ++
         "      targetPort: " ++
           toString (or_else (Service.targetPort service) containerPort) ++ LF)
  end.

Definition generateHeadlessService (tier : Tier.t) (namespace appName : value)
  : string :=
  let name := Tier.name tier in
  let serviceName := toString appName ++ "-" ++ toString name ++ "-headless" in
  "apiVersion: v1" ++ LF ++
  "kind: Service" ++ LF ++
  "metadata:" ++ LF ++
  "  name: " ++ serviceName ++ LF ++
  "  namespace: " ++ toString namespace ++ LF ++
  "  labels:" ++ LF ++
  "    app: " ++ toString appName ++ LF ++
  "    tier: " ++ toString name ++ LF ++
  "spec:" ++ LF ++
  "  clusterIP: None" ++ LF ++
  "  selector:" ++ LF ++
  "    app: " ++ toString appName ++ LF ++
  "    tier: " ++ toString name ++ LF ++
  "  ports:" ++ LF ++
  "    - name: http" ++ LF ++
  "      port: " ++ toString (or_else (Tier.containerPort tier) (Num 80)) ++ LF ++
  "      targetPort: " ++
    toString (or_else (Tier.containerPort tier) (Num 80)) ++ LF.

(** What a call can end in: a returned value or a thrown exception. *)
Inductive exn : Type :=
  | Error (message : string) (statusCode : Z) (details : list string)
  | TypeError.

Inductive outcome (A : Type) : Type :=
  | Returned (a : A)
  | Threw (e : exn).
Arguments Returned {A} _.
Arguments Threw {A} _.

Module Rule.
Record t : Type := mk { path : value; serviceName : string; servicePort : value }.
End Rule.

(** A tier contributes to the Ingress when it has both blocks. *)
Definition routed (tier : Tier.t) : bool :=
  match Tier.ingress tier, Tier.service tier with
  | Some _, Some _ => true
  | _, _ => false
  end.

(** One iteration of the [forEach] of [generateIngress] over the
    accumulator [rulesByHost]. For a host that [rulesByHost] does not own
    but inherits, [rulesByHost[host]] is truthy and has no [push]: the
    call throws. *)
Definition addRule (appName : value) (rulesByHost : props (list Rule.t))
    (tier : Tier.t) : outcome (props (list Rule.t)) :=
  match Tier.ingress tier, Tier.service tier with
  | Some ingress, Some service =>
      let host := toString (Ingress.host ingress) in
      let rule :=
        Rule.mk (Ingress.path ingress)
                (toString appName ++ "-" ++ toString (Tier.name tier))
                (Service.port service) in
      match get host rulesByHost with
      | Some rules => Returned (set host (rules ++ [rule])%list rulesByHost)
      | None =>
          if inherited host then Threw TypeError
          else Returned (set host [rule] rulesByHost)
      end
  | _, _ => Returned rulesByHost
  end.

Fixpoint collectRules (appName : value) (rulesByHost : props (list Rule.t))
    (tiers : list Tier.t) : outcome (props (list Rule.t)) :=
  match tiers with
  | [] => Returned rulesByHost
  | tier :: rest =>
      match addRule appName rulesByHost tier with
      | Returned rulesByHost' => collectRules appName rulesByHost' rest
      | Threw e => Threw e
      end
  end.

Definition pathYaml (r : Rule.t) : string :=
  "        - path: " ++ toString (Rule.path r) ++ LF ++
  "          pathType: Prefix" ++ LF ++
  "          backend:" ++ LF ++
  "            service:" ++ LF ++
  "              name: " ++ Rule.serviceName r ++ LF ++
  "              port:" ++ LF ++
  "                number: " ++ toString (Rule.servicePort r).

Definition hostYaml (host : string) (rules : list Rule.t) : string :=
  "  - host: " ++ host ++ LF ++
  "    http:" ++ LF ++
  "      paths:" ++ LF ++
  join LF (map pathYaml rules).

Definition rulesYaml (rulesByHost : props (list Rule.t)) : string :=
  join LF
    (map (fun host =>
            hostYaml host
              (match get host rulesByHost with Some rules => rules | None => [] end))
         (Object_keys rulesByHost)).

Definition ingressYaml (namespace appName : value)
    (rulesByHost : props (list Rule.t)) : string :=
  "apiVersion: networking.k8s.io/v1" ++ LF ++
  "kind: Ingress" ++ LF ++
  "metadata:" ++ LF ++
  "  name: " ++ toString appName ++ "-ingress" ++ LF ++
  "  namespace: " ++ toString namespace ++ LF ++
  "  annotations:" ++ LF ++
  "    nginx.ingress.kubernetes.io/rewrite-target: /" ++ LF ++
  "spec:" ++ LF ++
  "  rules:" ++ LF ++
  rulesYaml rulesByHost ++ LF.

Definition generateIngress (tiers : list Tier.t) (namespace appName : value)
  : outcome (option string) :=
  match collectRules appName [] tiers with
  | Threw e => Threw e
  | Returned rulesByHost =>
      match Object_keys rulesByHost with
      | [] => Returned None
      | _ => Returned (Some (ingressYaml namespace appName rulesByHost))
      end
  end.

Definition generateRBAC (namespace appName : value) : props string :=
  let saName := toString appName ++ "-sa" in
  let roleName := toString appName ++ "-role" in
  let rbName := toString appName ++ "-rb" in
  let serviceAccount :=
    "apiVersion: v1" ++ LF ++
    "kind: ServiceAccount" ++ LF ++
    "metadata:" ++ LF ++
    "  name: " ++ saName ++ LF ++
    "  namespace: " ++ toString namespace ++ LF in
  let role :=
    "apiVersion: rbac.authorization.k8s.io/v1" ++ LF ++
    "kind: Role" ++ LF ++
    "metadata:" ++ LF ++
    "  name: " ++ roleName ++ LF ++
    "  namespace: " ++ toString namespace ++ LF ++
    "rules:" ++ LF ++
    "  - apiGroups: [" ++ DQ ++ DQ ++ "]" ++ LF ++
    "    resources: [" ++ DQ ++ "pods" ++ DQ ++ ", " ++ DQ ++ "services" ++ DQ ++
      ", " ++ DQ ++ "configmaps" ++ DQ ++ ", " ++ DQ ++ "secrets" ++ DQ ++ "]" ++ LF ++
    "    verbs: [" ++ DQ ++ "get" ++ DQ ++ ", " ++ DQ ++ "list" ++ DQ ++ ", " ++
      DQ ++ "watch" ++ DQ ++ ", " ++ DQ ++ "create" ++ DQ ++ ", " ++
      DQ ++ "update" ++ DQ ++ ", " ++ DQ ++ "delete" ++ DQ ++ "]" ++ LF in
  let roleBinding :=
    "apiVersion: rbac.authorization.k8s.io/v1" ++ LF ++
    "kind: RoleBinding" ++ LF ++
    "metadata:" ++ LF ++
    "  name: " ++ rbName ++ LF ++
    "  namespace: " ++ toString namespace ++ LF ++
    "subjects:" ++ LF ++
    "  - kind: ServiceAccount" ++ LF ++
    "    name: " ++ saName ++ LF ++
    "    namespace: " ++ toString namespace ++ LF ++
    "roleRef:" ++ LF ++
    "  kind: Role" ++ LF ++
    "  name: " ++ roleName ++ LF ++
    "  apiGroup: rbac.authorization.k8s.io" ++ LF in
  [ ("serviceaccount.yaml", serviceAccount);
    ("role.yaml", role);
    ("rolebinding.yaml", roleBinding) ].

(** ** Compiler orchestration *)

(** The three checks at the head of [generateKubernetesManifests]. *)
Definition tiers_ok (payload : Payload.t) : bool :=
  match Payload.tiers payload with
  | Some (_ :: _) => true
  | _ => false
  end.

Definition validation_errors (payload : Payload.t) : list string :=
  (if truthy (Payload.appName payload) then [] else ["appName is required"])
  ++ (if truthy (Payload.namespace payload) then [] else ["namespace is required"])
  ++ (if tiers_ok payload then [] else ["At least one tier is required"]).

(** The mutable locals of the call: the output object and the three
    reference tables. *)
Module Locals.
Record t : Type := mk {
  files : props string;
  cmRefs : Refs.t CmRef.t;
  secretRefs : Refs.t SecretRef.t;
  pvcRefs : Refs.t PvcRef.t }.
End Locals.

(** [tier.workloadType === 'Deployment' || !tier.workloadType]. *)
Definition deployment_like (tier : Tier.t) : bool :=
  is_str (Tier.workloadType tier) "Deployment"
  || negb (truthy (Tier.workloadType tier)).

(** [tier.pv && tier.pv.enabled && tier.pv.type && tier.pv.type !== 'none']. *)
Definition pv_requested (tier : Tier.t) : bool :=
  match Tier.pv tier with
  | Some pv =>
      truthy (Pv.enabled pv) && truthy (Pv.type pv)
      && negb (is_str (Pv.type pv) "none")
  | None => false
  end.

(** First pass: ConfigMaps, Secrets, PVCs, PVs. *)
Definition firstPass (namespace appName : value) (st : Locals.t) (tier : Tier.t)
  : Locals.t :=
  let st :=
    match renderConfigMap tier namespace appName with
    | Some cm =>
        Locals.mk (set (CmRef.filename cm) (CmRef.content cm) (Locals.files st))
                 (Refs.set (tier_key tier) cm (Locals.cmRefs st))
                 (Locals.secretRefs st) (Locals.pvcRefs st)
    | None => st
    end in
  let st :=
    match renderSecret tier namespace appName with
    | Some secret =>
        Locals.mk (set (SecretRef.filename secret) (SecretRef.content secret) (Locals.files st))
                 (Locals.cmRefs st)
                 (Refs.set (tier_key tier) secret (Locals.secretRefs st))
                 (Locals.pvcRefs st)
    | None => st
    end in
  let st :=
    if pvc_enabled tier && deployment_like tier then
      match generatePVC tier namespace appName with
      | Some pvc =>
          Locals.mk (set (PvcRef.filename pvc) (PvcRef.content pvc) (Locals.files st))
                   (Locals.cmRefs st) (Locals.secretRefs st)
                   (Refs.set (tier_key tier) pvc (Locals.pvcRefs st))
      | None => st
      end
    else st in
  if pv_requested tier then
    match generatePV tier appName with
    | Some pv =>
        Locals.mk (set (PvFile.filename pv) (PvFile.content pv) (Locals.files st))
                 (Locals.cmRefs st) (Locals.secretRefs st) (Locals.pvcRefs st)
    | None => st
    end
  else st.

(** [(tier.workloadType || 'Deployment') === 'StatefulSet']. *)
Definition is_statefulset (tier : Tier.t) : bool :=
  is_str (or_else (Tier.workloadType tier) (Str "Deployment")) "StatefulSet".

(** Second pass: workloads and services. The reference tables are only
    read, so the iteration threads the output object alone. *)
Definition secondPass (namespace appName : value) (refs : Locals.t)
    (files : props string) (tier : Tier.t) : props string :=
  let cmRef := Refs.get cm_fields (tier_key tier) (Locals.cmRefs refs) in
  let secretRef := Refs.get secret_fields (tier_key tier) (Locals.secretRefs refs) in
  let pvcRef := Refs.get pvc_fields (tier_key tier) (Locals.pvcRefs refs) in
  let files :=
    if is_statefulset tier then
      let headlessSvc := generateHeadlessService tier namespace appName in
      let files :=
        set ("headless-service-" ++ tier_key tier ++ ".yaml") headlessSvc files in
      let ss := generateStatefulSet tier namespace appName cmRef secretRef in
      set ("statefulset-" ++ tier_key tier ++ ".yaml") ss files
    else
      let deployment :=
        generateDeployment tier namespace appName cmRef secretRef pvcRef in
      set ("deployment-" ++ tier_key tier ++ ".yaml") deployment files in
  match generateService tier namespace appName with
  | Some svcContent => set ("service-" ++ tier_key tier ++ ".yaml") svcContent files
  | None => files
  end.

(** The locals before the first pass. *)
Definition initialLocals (payload : Payload.t) : Locals.t :=
  let namespace := Payload.namespace payload in
  let files : props string :=
    if truthy (Payload.createNamespace payload)
    then set "namespace.yaml" (generateNamespace namespace) []
    else [] in
  Locals.mk files Refs.empty Refs.empty Refs.empty.

(** The locals between the two [forEach] loops. *)
Definition afterFirstPass (payload : Payload.t) : Locals.t :=
  fold_left
    (firstPass (Payload.namespace payload) (Payload.appName payload))
    (or_empty (Payload.tiers payload))
    (initialLocals payload).

(** The output object after the second loop. *)
Definition afterSecondPass (payload : Payload.t) : props string :=
  fold_left
    (secondPass (Payload.namespace payload) (Payload.appName payload)
                (afterFirstPass payload))
    (or_empty (Payload.tiers payload))
    (Locals.files (afterFirstPass payload)).

Definition generateKubernetesManifests (payload : Payload.t)
  : outcome (props string) :=
  match validation_errors payload with
  | _ :: _ => Threw (Error "Validation failed" 400 (validation_errors payload))
  | [] =>
      let appName := Payload.appName payload in
      let namespace := Payload.namespace payload in
      let tiers := or_empty (Payload.tiers payload) in
      let files := afterSecondPass payload in
      match generateIngress tiers namespace appName with
      | Threw e => Threw e
      | Returned ingress =>
          let files :=
            match ingress with
            | Some ingress => set "ingress.yaml" ingress files
            | None => files
            end in
          let files :=
            if truthy (Payload.enableRBAC payload)
            then assign files (generateRBAC namespace appName)
            else files in
          Returned files
      end
  end.

(** The operation the specification calls [compile]. *)
Definition compile := generateKubernetesManifests.

(** ** The server

    The handler of [POST /api/generate/:module] of the Express server, as
    a function from the route parameter and the parsed request body to the
    response: its status code ([res.json] without [res.status] answers
    200) and its JSON body. The text of a TypeError's [message] is the
    engine's, and is a parameter. *)

Module Server.

Inductive body : Type :=
  | Generated (files : props string)
  | NotImplemented (error : string)
  | Failed (error : string) (details : option (list string)).

Record response : Type := mk { status : Z; json : body }.

(** [err.message], [err.statusCode] and [err.details] of a caught exception. *)
Definition message (typeErrorMessage : string) (err : exn) : string :=
  match err with
  | Error message _ _ => message
  | TypeError => typeErrorMessage
  end.

Definition statusCode (err : exn) : option Z :=
  match err with
  | Error _ statusCode _ => Some statusCode
  | TypeError => None
  end.

Definition details (err : exn) : option (list string) :=
  match err with
  | Error _ _ details => Some details
  | TypeError => None
  end.

Definition postGenerate (typeErrorMessage : string) (module : string)
    (reqBody : Payload.t) : response :=
  if module =? "kubernetes" then
    match generateKubernetesManifests reqBody with
    | Returned files => mk 200 (Generated files)
    | Threw err =>
        mk (match statusCode err with
            | Some code => if (code =? 0)%Z then 500%Z else code
            | None => 500%Z
            end)
           (Failed (if message typeErrorMessage err =? EmptyString
                    then "Internal Server Error"
                    else message typeErrorMessage err)
                   (details err))
    end
  else
    mk 400 (NotImplemented ("Module '" ++ module ++ "' not implemented yet")).

(** *** Start-up

    [initDbWithRetry] and the start-up block, as the sequence of effects
    they perform. [init i] is what the [i]-th call of [db.init] does:
    [None] when it resolves, [Some message] when it rejects with that
    [err.message]. *)

Inductive event : Type :=
  | DbInit
  | Log (text : string)
  | Warn (text : string)
  | Sleep (delayMs : Z)
  | Listen (port : value).

(** The [for] loop from its [i]-th iteration on, [remaining] iterations
    before [i < retries] fails. *)
Fixpoint retryFrom (init : nat -> option string) (retries : nat) (delayMs : Z)
    (i remaining : nat) : list event :=
  match remaining with
  | O => [Warn "DB init failed after retries; starting server anyway"]
  | S remaining' =>
      DbInit ::
      match init i with
      | None => [Log "DB initialized"]
      | Some message =>
          Warn ("DB init attempt " ++ toString (Num (Z.of_nat i + 1)) ++
                " failed: " ++ message)
          :: ((if (i <? retries - 1)%nat then [Sleep delayMs] else [])
              ++ retryFrom init retries delayMs (S i) remaining')%list
      end
  end.

Definition initDbWithRetry (init : nat -> option string) (retries : nat)
    (delayMs : Z) : list event :=
  retryFrom init retries delayMs 0 retries.

(** The start-up block; [envPort] is [process.env.PORT]. *)
Definition start (envPort : value) (init : nat -> option string) : list event :=
  let PORT := or_else envPort (Num 5000) in
  (initDbWithRetry init 15 2000 ++
   [Listen PORT; Log ("Backend listening on port " ++ toString PORT)])%list.

End Server.

(** * Definitions for the properties *)

(** ** Property lists *)

(** The value of the last assignment to [k] in a chronological list of
    assignments. *)
Fixpoint last_value {A} (k : string) (ws : list (string * A)) : option A :=
  match ws with
  | [] => None
  | (k', v) :: rest =>
      match last_value k rest with
      | Some x => Some x
      | None => if k' =? k then Some v else None
      end
  end.

(** ** The output object as a sequence of assignments

    Every statement that touches [files] is an assignment [files[k] = v].
    The lists below collect, in execution order, the assignments of one
    iteration of each loop; the output object is these assignments replayed
    on the empty object. *)

Definition pass1_writes (namespace appName : value) (tier : Tier.t)
  : list (string * string) :=
  ((match renderConfigMap tier namespace appName with
    | Some cm => [(CmRef.filename cm, CmRef.content cm)]
    | None => []
    end) ++
   (match renderSecret tier namespace appName with
    | Some secret => [(SecretRef.filename secret, SecretRef.content secret)]
    | None => []
    end) ++
   (if pvc_enabled tier && deployment_like tier then
      match generatePVC tier namespace appName with
      | Some pvc => [(PvcRef.filename pvc, PvcRef.content pvc)]
      | None => []
      end
    else []) ++
   (if pv_requested tier then
      match generatePV tier appName with
      | Some pv => [(PvFile.filename pv, PvFile.content pv)]
      | None => []
      end
    else []))%list.

Definition workload_writes (namespace appName : value) (refs : Locals.t)
    (tier : Tier.t) : list (string * string) :=
  let cmRef := Refs.get cm_fields (tier_key tier) (Locals.cmRefs refs) in
  let secretRef := Refs.get secret_fields (tier_key tier) (Locals.secretRefs refs) in
  let pvcRef := Refs.get pvc_fields (tier_key tier) (Locals.pvcRefs refs) in
  if is_statefulset tier then
    [ ("headless-service-" ++ tier_key tier ++ ".yaml",
       generateHeadlessService tier namespace appName);
      ("statefulset-" ++ tier_key tier ++ ".yaml",
       generateStatefulSet tier namespace appName cmRef secretRef) ]
  else
    [ ("deployment-" ++ tier_key tier ++ ".yaml",
       generateDeployment tier namespace appName cmRef secretRef pvcRef) ].

Definition service_writes (namespace appName : value) (tier : Tier.t)
  : list (string * string) :=
  match generateService tier namespace appName with
  | Some svcContent => [("service-" ++ tier_key tier ++ ".yaml", svcContent)]
  | None => []
  end.

Definition pass2_writes (namespace appName : value) (refs : Locals.t)
    (tier : Tier.t) : list (string * string) :=
  (workload_writes namespace appName refs tier
   ++ service_writes namespace appName tier)%list.

Definition namespace_writes (payload : Payload.t) : list (string * string) :=
  if truthy (Payload.createNamespace payload)
  then [("namespace.yaml", generateNamespace (Payload.namespace payload))]
  else [].

Definition ingress_writes (ingress : option string) : list (string * string) :=
  match ingress with
  | Some doc => [("ingress.yaml", doc)]
  | None => []
  end.

Definition rbac_writes (payload : Payload.t) : list (string * string) :=
  if truthy (Payload.enableRBAC payload)
  then generateRBAC (Payload.namespace payload) (Payload.appName payload)
  else [].

Definition writes (payload : Payload.t) (ingress : option string)
  : list (string * string) :=
  let namespace := Payload.namespace payload in
  let appName := Payload.appName payload in
  let tiers := or_empty (Payload.tiers payload) in
  (namespace_writes payload
   ++ flat_map (pass1_writes namespace appName) tiers
   ++ flat_map (pass2_writes namespace appName (afterFirstPass payload)) tiers
   ++ ingress_writes ingress
   ++ rbac_writes payload)%list.

(** ** Validation *)

(** The request passes the three checks. *)
Definition validated (payload : Payload.t) : Prop :=
  validation_errors payload = [].

Definition msg_appName : string := "appName is required".
Definition msg_namespace : string := "namespace is required".
Definition msg_tiers : string := "At least one tier is required".

(** A request with nothing but an empty [tiers] array: all three fields
    are reported. *)
Definition empty_request : Payload.t :=
  Payload.mk Undefined (Str EmptyString) Undefined Undefined (Some []).

(** ** The scenario of the specification *)

Definition scenario_tier : Tier.t :=
  Tier.mk (Str "api") (Num 2) (Str "nginx:1.27") (Num 80) Undefined
          None None None None None None None None
          (Some (Service.mk (Str "ClusterIP") (Num 80) Undefined)) None.

Definition scenario : Payload.t :=
  Payload.mk (Str "web") (Str "dev") (Bool true) Undefined (Some [scenario_tier]).

(** ** Where an output entry comes from *)

(** The provenance of an assignment to [files]. *)
Inductive emitted (namespace appName : value) (refs : Locals.t)
    (tiers : list Tier.t) (ingress : option string) : string -> string -> Prop :=
  | em_namespace :
      emitted namespace appName refs tiers ingress
        "namespace.yaml" (generateNamespace namespace)
  | em_configmap tier cm :
      In tier tiers ->
      renderConfigMap tier namespace appName = Some cm ->
      emitted namespace appName refs tiers ingress
        ("configmap-" ++ tier_key tier ++ ".yaml") (CmRef.content cm)
  | em_secret tier secret :
      In tier tiers ->
      renderSecret tier namespace appName = Some secret ->
      emitted namespace appName refs tiers ingress
        ("secret-" ++ tier_key tier ++ ".yaml") (SecretRef.content secret)
  | em_pvc tier pvc :
      In tier tiers ->
      pvc_enabled tier && deployment_like tier = true ->
      generatePVC tier namespace appName = Some pvc ->
      emitted namespace appName refs tiers ingress
        ("pvc-" ++ tier_key tier ++ ".yaml") (PvcRef.content pvc)
  | em_pv tier pv :
      In tier tiers ->
      pv_requested tier = true ->
      generatePV tier appName = Some pv ->
      emitted namespace appName refs tiers ingress
        ("pv-" ++ tier_key tier ++ ".yaml") (PvFile.content pv)
  | em_headless tier :
      In tier tiers ->
      is_statefulset tier = true ->
      emitted namespace appName refs tiers ingress
        ("headless-service-" ++ tier_key tier ++ ".yaml")
        (generateHeadlessService tier namespace appName)
  | em_statefulset tier :
      In tier tiers ->
      is_statefulset tier = true ->
      emitted namespace appName refs tiers ingress
        ("statefulset-" ++ tier_key tier ++ ".yaml")
        (generateStatefulSet tier namespace appName
           (Refs.get cm_fields (tier_key tier) (Locals.cmRefs refs))
           (Refs.get secret_fields (tier_key tier) (Locals.secretRefs refs)))
  | em_deployment tier :
      In tier tiers ->
      is_statefulset tier = false ->
      emitted namespace appName refs tiers ingress
        ("deployment-" ++ tier_key tier ++ ".yaml")
        (generateDeployment tier namespace appName
           (Refs.get cm_fields (tier_key tier) (Locals.cmRefs refs))
           (Refs.get secret_fields (tier_key tier) (Locals.secretRefs refs))
           (Refs.get pvc_fields (tier_key tier) (Locals.pvcRefs refs)))
  | em_service tier doc :
      In tier tiers ->
      generateService tier namespace appName = Some doc ->
      emitted namespace appName refs tiers ingress
        ("service-" ++ tier_key tier ++ ".yaml") doc
  | em_ingress doc :
      ingress = Some doc ->
      emitted namespace appName refs tiers ingress "ingress.yaml" doc
  | em_rbac k v :
      In (k, v) (generateRBAC namespace appName) ->
      emitted namespace appName refs tiers ingress k v.

(** ** When the Ingress renderer returns *)

Definition host_of (tier : Tier.t) : string :=
  match Tier.ingress tier with
  | Some ingress => toString (Ingress.host ingress)
  | None => EmptyString
  end.

(** The tier's host names a property that [rulesByHost] inherits. *)
Definition ingress_throws (tier : Tier.t) : bool :=
  routed tier && inherited (host_of tier).

Definition ingress_renders (tiers : list Tier.t) : bool :=
  forallb (fun tier => negb (ingress_throws tier)) tiers.

(** ** The last assignment wins *)

(** Two tiers named [api] with different images. *)
Definition twin_tier (image : string) : Tier.t :=
  Tier.mk (Str "api") (Num 1) (Str image) (Num 80) Undefined
          None None None None None None None None None None.

Definition twins_request : Payload.t :=
  Payload.mk (Str "web") (Str "dev") Undefined Undefined
             (Some [twin_tier "nginx:1.26"; twin_tier "nginx:1.27"]).

(** ** PersistentVolume backends *)

(** The table of the specification: the types the dispatch recognizes and
    the fields each backend requires. *)
Definition recognized_types : list string :=
  ["hostPath"; "nfs"; "local"; "awsEbs"; "gcePd"; "azureDisk"; "cephRbd"; "iscsi"].

Definition required_fields (pv : Pv.t) : list value :=
  let type := Pv.type pv in
  if is_str type "nfs" then [Pv.nfsServer pv; Pv.nfsPath pv]
  else if is_str type "awsEbs" then [Pv.awsVolumeID pv]
  else if is_str type "gcePd" then [Pv.gcePdName pv]
  else if is_str type "azureDisk" then [Pv.azureDiskName pv; Pv.azureDiskURI pv]
  else if is_str type "cephRbd" then
    [Pv.cephMonitors pv; Pv.cephPool pv; Pv.cephImage pv; Pv.cephUser pv]
  else if is_str type "iscsi" then
    [Pv.iscsiTargetPortal pv; Pv.iscsiIqn pv; Pv.iscsiLun pv]
  else [].

(** A PV block the dispatch turns down: its type is not recognized, or a
    required field is falsy. *)
Definition pv_rejected (pv : Pv.t) : bool :=
  negb (existsb (is_str (Pv.type pv)) recognized_types)
  || existsb (fun v => negb (truthy v)) (required_fields pv).

(** The first-pass assignments of a tier, the PV file apart and alone. *)
Definition pass1_other_writes (namespace appName : value) (tier : Tier.t)
  : list (string * string) :=
  ((match renderConfigMap tier namespace appName with
    | Some cm => [(CmRef.filename cm, CmRef.content cm)]
    | None => []
    end) ++
   (match renderSecret tier namespace appName with
    | Some secret => [(SecretRef.filename secret, SecretRef.content secret)]
    | None => []
    end) ++
   (if pvc_enabled tier && deployment_like tier then
      match generatePVC tier namespace appName with
      | Some pvc => [(PvcRef.filename pvc, PvcRef.content pvc)]
      | None => []
      end
    else []))%list.

Definition pv_writes (appName : value) (tier : Tier.t) : list (string * string) :=
  if pv_requested tier then
    match generatePV tier appName with
    | Some pv => [(PvFile.filename pv, PvFile.content pv)]
    | None => []
    end
  else [].

(** A key that is not the name of a PV file. *)
Definition not_pv_file (k : string) : Prop :=
  forall n, k <> "pv-" ++ n ++ ".yaml".

(** The request with every tier's [pv] block replaced. *)
Definition tier_with_pv (pv : option Pv.t) (tier : Tier.t) : Tier.t :=
  Tier.mk (Tier.name tier) (Tier.replicas tier) (Tier.image tier)
          (Tier.containerPort tier) (Tier.workloadType tier) (Tier.env tier)
          (Tier.configMapData tier) (Tier.secretData tier) (Tier.resources tier)
          (Tier.livenessProbe tier) (Tier.readinessProbe tier) (Tier.pvc tier)
          pv (Tier.service tier) (Tier.ingress tier).

Definition replace_pv (f : Tier.t -> option Pv.t) (tier : Tier.t) : Tier.t :=
  tier_with_pv (f tier) tier.

Definition with_pvs (f : Tier.t -> option Pv.t) (payload : Payload.t) : Payload.t :=
  Payload.mk (Payload.appName payload) (Payload.namespace payload)
             (Payload.createNamespace payload) (Payload.enableRBAC payload)
             (option_map (map (replace_pv f)) (Payload.tiers payload)).

(** An [nfs] volume without a server. *)
Definition nfs_without_server : Pv.t :=
  Pv.mk (Bool true) (Str "nfs") Undefined Undefined Undefined Undefined
        Undefined (Str EmptyString) (Str "/exports/data") Undefined
        Undefined Undefined Undefined Undefined Undefined Undefined Undefined
        Undefined Undefined Undefined Undefined Undefined Undefined Undefined
        Undefined Undefined Undefined Undefined.

Definition nfs_tier : Tier.t :=
  Tier.mk (Str "db") (Num 1) (Str "postgres:16") (Num 5432) Undefined
          None None None None None None None (Some nfs_without_server) None None.

Definition nfs_request : Payload.t :=
  Payload.mk (Str "web") (Str "dev") Undefined Undefined (Some [nfs_tier]).

(** ** The iSCSI backend *)

(** An iSCSI volume on LUN 0, the first logical unit of a target. *)
Definition iscsi_lun0 : Pv.t :=
  Pv.mk (Bool true) (Str "iscsi") Undefined Undefined Undefined Undefined
        Undefined Undefined Undefined Undefined
        Undefined Undefined Undefined Undefined Undefined Undefined Undefined
        Undefined Undefined Undefined Undefined Undefined Undefined Undefined
        (Str "10.0.0.5:3260") (Str "iqn.2001-04.com.example:storage.disk1")
        (Num 0) Undefined.

Definition iscsi_tier : Tier.t :=
  Tier.mk (Str "db") (Num 1) (Str "postgres:16") (Num 5432) Undefined
          None None None None None None None (Some iscsi_lun0) None None.

Definition iscsi_request : Payload.t :=
  Payload.mk (Str "web") (Str "dev") Undefined Undefined (Some [iscsi_tier]).

(** ** Names held by the reference tables *)

(** Every reference in the table carries the name derived from the key it
    is stored under. *)
Definition well_named {A} (name_of : A -> string) (expected : string -> string)
    (o : Refs.t A) : Prop :=
  (forall k a, get k (Refs.own o) = Some a -> name_of a = expected k) /\
  (forall a, Refs.proto o = Some a -> name_of a = expected "__proto__").

Definition expected_cm (appName : value) (k : string) : string :=
  toString appName ++ "-" ++ k ++ "-config".

Definition expected_secret (appName : value) (k : string) : string :=
  toString appName ++ "-" ++ k ++ "-secret".

(** ** StatefulSets and their storage *)

(** A database tier run as a StatefulSet with storage and a ConfigMap. *)
Definition stateful_pvc : Pvc.t :=
  Pvc.mk (Bool true) (Str "fast") (Str "10Gi") Undefined (Str "/var/lib/data").

Definition stateful_tier : Tier.t :=
  Tier.mk (Str "db") (Num 3) (Str "postgres:16") (Num 5432) (Str "StatefulSet")
          None (Some [KeyValue.mk (Str "mode") (Str "primary")]) None
          None None None (Some stateful_pvc) None None None.

Definition stateful_request : Payload.t :=
  Payload.mk (Str "web") (Str "dev") Undefined Undefined (Some [stateful_tier]).

(** ** Namespace and labels *)

Definition namespace_line (namespace : value) : string :=
  "  namespace: " ++ toString namespace ++ LF.

Definition labels_block (appName : value) (tier_name : string) : string :=
  "  labels:" ++ LF ++
  "    app: " ++ toString appName ++ LF ++
  "    tier: " ++ tier_name ++ LF.

(** A tier with every supporting resource. *)
Definition furnished_tier : Tier.t :=
  Tier.mk (Str "api") (Num 2) (Str "nginx:1.27") (Num 80) Undefined
          None
          (Some [KeyValue.mk (Str "mode") (Str "fast")])
          (Some [KeyValue.mk (Str "token") (Str "s3cr3t")])
          None None None
          (Some (Pvc.mk (Bool true) Undefined Undefined Undefined Undefined))
          None
          (Some (Service.mk (Str "ClusterIP") (Num 80) Undefined))
          (Some (Ingress.mk (Str "web.local") (Str "/"))).

Definition furnished_request : Payload.t :=
  Payload.mk (Str "web") (Str "dev") Undefined Undefined (Some [furnished_tier]).

(** ** Ingress grouping *)

Definition rule_of (appName : value) (tier : Tier.t)
    (ingress : Ingress.t) (service : Service.t) : Rule.t :=
  Rule.mk (Ingress.path ingress)
          (toString appName ++ "-" ++ toString (Tier.name tier))
          (Service.port service).

(** Two routed tiers behind the host [constructor]. *)
Definition shadowed_tier (name path : string) : Tier.t :=
  Tier.mk (Str name) (Num 1) (Str "nginx:1.27") (Num 80) Undefined
          None None None None None None None None
          (Some (Service.mk (Str "ClusterIP") (Num 80) Undefined))
          (Some (Ingress.mk (Str "constructor") (Str path))).

Definition shadowed_request : Payload.t :=
  Payload.mk (Str "web") (Str "dev") Undefined Undefined
             (Some [shadowed_tier "api" "/"; shadowed_tier "admin" "/admin"]).

(** ** Outcomes and file names *)

(** The value a call returned; the empty object stands for a call that threw. *)
Definition files_of (o : outcome (props string)) : props string :=
  match o with Returned files => files | Threw _ => [] end.

(** The file names that do not depend on a tier, and the prefixes of those
    that do. *)
Definition fixed_files : list string :=
  ["namespace.yaml"; "ingress.yaml"; "serviceaccount.yaml"; "role.yaml";
   "rolebinding.yaml"].

Definition tier_file_kinds : list string :=
  ["configmap-"; "secret-"; "pvc-"; "pv-"; "headless-service-"; "statefulset-";
   "deployment-"; "service-"].

(** Some tier with both blocks names a host that [rulesByHost] inherits. *)
Definition inherited_host (payload : Payload.t) : Prop :=
  exists tier, In tier (or_empty (Payload.tiers payload)) /\
    routed tier = true /\ inherited (host_of tier) = true.

(** ** Switches *)

(** A request with every switch on. *)
Definition governed_request : Payload.t :=
  Payload.mk (Str "web") (Str "dev") (Bool true) (Bool true) (Some [furnished_tier]).

(** ** Assignments to the reference tables *)

(** The assignments the first pass makes to a reference table, in order,
    and their replay on a table. *)
Definition cm_sets (namespace appName : value) (tiers : list Tier.t)
  : list (string * CmRef.t) :=
  flat_map (fun tier =>
              match renderConfigMap tier namespace appName with
              | Some cm => [(tier_key tier, cm)]
              | None => []
              end) tiers.

Definition secret_sets (namespace appName : value) (tiers : list Tier.t)
  : list (string * SecretRef.t) :=
  flat_map (fun tier =>
              match renderSecret tier namespace appName with
              | Some secret => [(tier_key tier, secret)]
              | None => []
              end) tiers.

Definition pvc_sets (namespace appName : value) (tiers : list Tier.t)
  : list (string * PvcRef.t) :=
  flat_map (fun tier =>
              if pvc_enabled tier && deployment_like tier then
                match generatePVC tier namespace appName with
                | Some pvc => [(tier_key tier, pvc)]
                | None => []
                end
              else []) tiers.

Definition replay {A} (sets : list (string * A)) (o : Refs.t A) : Refs.t A :=
  fold_left (fun o kv => Refs.set (fst kv) (snd kv) o) sets o.

(** What [refs[k]] finds after the assignments [sets] to an empty table. *)
Definition lookup {A} (fields : list string) (k : string)
    (sets : list (string * A)) : Refs.found A :=
  match last_value k sets with
  | Some a => Refs.Own a
  | None =>
      if match last_value "__proto__" sets with
         | Some _ => existsb (String.eqb k) fields
         | None => false
         end || inherited k
      then Refs.Inherited
      else Refs.Missing
  end.

(** The text of the volume entries of a workload. *)
Definition configMount (cmName name : string) : string :=
  "            - name: " ++ cmName ++ "-vol" ++ LF ++
  "              mountPath: /config/" ++ name.

Definition configVolume (cmName : string) : string :=
  "        - name: " ++ cmName ++ "-vol" ++ LF ++
  "          configMap:" ++ LF ++
  "            name: " ++ cmName.

Definition secretMount (secretName name : string) : string :=
  "            - name: " ++ secretName ++ "-vol" ++ LF ++
  "              mountPath: /secrets/" ++ name.

Definition secretVolume (secretName : string) : string :=
  "        - name: " ++ secretName ++ "-vol" ++ LF ++
  "          secret:" ++ LF ++
  "            secretName: " ++ secretName.

Definition claimVolume (pvcName : string) : string :=
  "        - name: " ++ pvcName ++ "-vol" ++ LF ++
  "          persistentVolumeClaim:" ++ LF ++
  "            claimName: " ++ pvcName.

(** ** Volumes of a workload *)

Definition expected_pvc (appName : value) (k : string) : string :=
  toString appName ++ "-" ++ k ++ "-pvc".

Definition claimMount (pvcName : string) (mountPath : value) : string :=
  "            - name: " ++ pvcName ++ "-vol" ++ LF ++
  "              mountPath: " ++ toString mountPath.

(** [tier?.pvc?.mountPath || '/data']. *)
Definition claim_mount_path (tier : Tier.t) : value :=
  or_else (match Tier.pvc tier with
           | Some pvc => Pvc.mountPath pvc
           | None => Undefined
           end) (Str "/data").

(** The text stored under a file name; empty when there is none. *)
Definition file_of (k : string) (files : props string) : string :=
  match get k files with Some doc => doc | None => EmptyString end.

(** A tier named like a member of [Object.prototype]. *)
Definition constructor_tier : Tier.t :=
  Tier.mk (Str "constructor") (Num 1) (Str "nginx:1.27") (Num 80) Undefined
          None None None None None None None None None None.

Definition constructor_request : Payload.t :=
  Payload.mk (Str "web") (Str "dev") Undefined Undefined (Some [constructor_tier]).

(** A tier with storage whose workload type is neither of the two the
    generator knows. *)
Definition daemon_tier : Tier.t :=
  Tier.mk (Str "agent") (Num 1) (Str "fluentd:v1.16") (Num 24224) (Str "DaemonSet")
          None None None None None None
          (Some (Pvc.mk (Bool true) Undefined Undefined Undefined Undefined))
          None None None.

Definition daemon_request : Payload.t :=
  Payload.mk (Str "web") (Str "dev") Undefined Undefined (Some [daemon_tier]).

(** ** Workloads and the resources of their name *)

(** The workload document stored under a tier name. *)
Definition workload_doc (n : string) (files : props string) (doc : string) : Prop :=
  get ("deployment-" ++ n ++ ".yaml") files = Some doc \/
  get ("statefulset-" ++ n ++ ".yaml") files = Some doc.

(** ** Labels and selectors *)

(** The label pair of a tier at a given indentation, and the three places
    it is written to. *)
Definition selector_labels (appName : value) (n : string) : string :=
  "  selector:" ++ LF ++
  "    app: " ++ toString appName ++ LF ++
  "    tier: " ++ n ++ LF.

Definition match_labels (appName : value) (n : string) : string :=
  "  selector:" ++ LF ++
  "    matchLabels:" ++ LF ++
  "      app: " ++ toString appName ++ LF ++
  "      tier: " ++ n ++ LF.

Definition pod_labels (appName : value) (n : string) : string :=
  "  template:" ++ LF ++
  "    metadata:" ++ LF ++
  "      labels:" ++ LF ++
  "        app: " ++ toString appName ++ LF ++
  "        tier: " ++ n ++ LF.

Definition headless_name (appName : value) (n : string) : string :=
  toString appName ++ "-" ++ n ++ "-headless".

(** ** Ingress sections *)

(** The rules of the tiers routed to [host], in tier order. *)
Definition rules_for (appName : value) (host : string) (tiers : list Tier.t)
  : list Rule.t :=
  flat_map (fun tier =>
              match Tier.ingress tier, Tier.service tier with
              | Some ingress, Some service =>
                  if toString (Ingress.host ingress) =? host
                  then [rule_of appName tier ingress service]
                  else []
              | _, _ => []
              end) tiers.

(** The elements of [l] not in [seen], each at its first occurrence. *)
Fixpoint first_occurrences (seen l : list string) : list string :=
  match l with
  | [] => []
  | x :: rest =>
      if existsb (String.eqb x) seen then first_occurrences seen rest
      else x :: first_occurrences (seen ++ [x]) rest
  end.

(** The hosts of the routed tiers, in the order they first appear. *)
Definition routed_hosts (tiers : list Tier.t) : list string :=
  first_occurrences [] (map host_of (filter routed tiers)).

(** [rulesByHost[host]] extended by the rules [rs]. *)
Definition extended (o : option (list Rule.t)) (rs : list Rule.t)
  : option (list Rule.t) :=
  match rs with
  | [] => o
  | _ => Some ((match o with Some l => l | None => [] end) ++ rs)%list
  end.

(** Two tiers behind one host and a third behind another. *)
Definition routed_tier (name host path : string) : Tier.t :=
  Tier.mk (Str name) (Num 1) (Str "nginx:1.27") (Num 80) Undefined
          None None None None None None None None
          (Some (Service.mk (Str "ClusterIP") (Num 80) Undefined))
          (Some (Ingress.mk (Str host) (Str path))).

Definition routed_request : Payload.t :=
  Payload.mk (Str "web") (Str "dev") Undefined Undefined
             (Some [routed_tier "api" "web.local" "/api";
                    routed_tier "admin" "admin.local" "/";
                    routed_tier "ui" "web.local" "/"]).

(** ** Ingress routes *)

(** The document a call of [generateIngress] returned; empty when it
    returned [null] or threw. *)
Definition ingress_of (o : outcome (option string)) : string :=
  match o with Returned (Some doc) => doc | _ => EmptyString end.

(** ** Container settings and PersistentVolumes *)

(** The container of a workload document holds [section]. *)
Definition in_workloads (tier : Tier.t) (section : string) : Prop :=
  forall namespace appName cmRef secretRef pvcRef,
    includes section
      (generateDeployment tier namespace appName cmRef secretRef pvcRef) /\
    includes section
      (generateStatefulSet tier namespace appName cmRef secretRef).

Definition envEntry (e : EnvVar.t) : string :=
  "            - name: " ++ toString (EnvVar.name e) ++ LF ++
  "              value: " ++ DQ ++ toString (EnvVar.val e) ++ DQ.

(** A tier with requests and limits, and one with limits alone. *)
Definition sized_tier (resources : Resources.t) : Tier.t :=
  Tier.mk (Str "api") (Num 1) (Str "nginx:1.27") (Num 80) Undefined
          (Some [EnvVar.mk (Str "MODE") (Str "fast")]) None None
          (Some resources) None None None None None None.

Definition requests_and_limits : Resources.t :=
  Resources.mk (Str "100m") (Str "128Mi") (Str "500m") (Str "256Mi").

Definition limits_only : Resources.t :=
  Resources.mk Undefined Undefined (Str "500m") (Str "256Mi").

(** A [hostPath] volume with nothing but its type. *)
Definition hostpath_tier : Tier.t :=
  Tier.mk (Str "db") (Num 1) (Str "postgres:16") (Num 5432) Undefined
          None None None None None None None
          (Some (Pv.mk (Bool true) (Str "hostPath") Undefined Undefined Undefined
                   Undefined Undefined Undefined Undefined Undefined Undefined
                   Undefined Undefined Undefined Undefined Undefined Undefined
                   Undefined Undefined Undefined Undefined Undefined Undefined
                   Undefined Undefined Undefined Undefined Undefined))
          None None.

Definition hostpath_request : Payload.t :=
  Payload.mk (Str "web") (Str "dev") Undefined Undefined (Some [hostpath_tier]).

(** The head of a PersistentVolume document. *)
Definition pvHead (appName : value) (n : string) (pv : Pv.t) : string :=
  "kind: PersistentVolume" ++ LF ++
  "metadata:" ++ LF ++
  "  name: " ++ toString appName ++ "-" ++ n ++ "-pv" ++ LF ++
  "spec:" ++ LF ++
  "  capacity:" ++ LF ++
  "    storage: " ++ toString (default (Pv.size pv) (Str "5Gi")) ++ LF ++
  "  accessModes:" ++ LF ++
  "    - " ++ toString (default (Pv.accessMode pv) (Str "ReadWriteOnce")) ++ LF ++
  "  persistentVolumeReclaimPolicy: " ++
    toString (default (Pv.reclaimPolicy pv) (Str "Retain")) ++ LF.

(** ** Probes and data entries *)

Definition probeSection (type : string) (probe : Probe.t) : string :=
  LF ++ "          " ++ type ++ "Probe:" ++ LF ++
  "            httpGet:" ++ LF ++
  "              path: " ++ toString (Probe.path probe) ++ LF ++
  "              port: " ++ toString (Probe.port probe) ++ LF ++
  "            initialDelaySeconds: " ++
    toString (default (Probe.initialDelaySeconds probe) (Num 10)) ++ LF ++
  "            periodSeconds: " ++
    toString (default (Probe.periodSeconds probe) (Num 10)).

Definition dataLine (d : KeyValue.t) : string :=
  "  " ++ toString (KeyValue.key d) ++ ": " ++ DQ ++ toString (KeyValue.val d) ++ DQ.

(** A tier probed on [/healthz] with the default timings. *)
Definition probed_tier : Tier.t :=
  Tier.mk (Str "api") (Num 1) (Str "nginx:1.27") (Num 80) Undefined
          None None None None
          (Some (Probe.mk (Str "/healthz") (Num 80) Undefined Undefined))
          (Some (Probe.mk (Str "/ready") (Num 80) (Num 5) Undefined))
          None None None None.

(** ** Start-up *)

(** The calls of [db.init] and the waits in a sequence of effects. *)
Definition attempts (t : list Server.event) : nat :=
  length (filter (fun e => match e with Server.DbInit => true | _ => false end) t).

Definition waits (t : list Server.event) : nat :=
  length (filter (fun e => match e with Server.Sleep _ => true | _ => false end) t).

(** ** The volumes of a StatefulSet *)




(** ** Requests with a host that [rulesByHost] inherits *)

(** A tier with an [nfs] volume that names no server, alone and beside a
    tier routed to the host [constructor]. *)
Definition nfs_unserved : Pv.t :=
  Pv.mk (Bool true) (Str "nfs") Undefined Undefined Undefined Undefined
        Undefined Undefined (Str "/exports/data") Undefined
        Undefined Undefined Undefined Undefined Undefined Undefined Undefined
        Undefined Undefined Undefined Undefined Undefined Undefined Undefined
        Undefined Undefined Undefined Undefined.

Definition nfs_unserved_tier : Tier.t :=
  Tier.mk (Str "db") (Num 1) (Str "postgres:16") (Num 5432) Undefined
          None None None None None None None (Some nfs_unserved) None None.

Definition nfs_alone_request : Payload.t :=
  Payload.mk (Str "web") (Str "dev") Undefined Undefined (Some [nfs_unserved_tier]).

Definition nfs_exposed_request : Payload.t :=
  Payload.mk (Str "web") (Str "dev") Undefined Undefined
             (Some [nfs_unserved_tier; shadowed_tier "api" "/"]).

(** The two tiers named [api], beside a tier routed to the host
    [constructor]. *)
Definition twins_exposed_request : Payload.t :=
  Payload.mk (Str "web") (Str "dev") Undefined Undefined
             (Some [twin_tier "nginx:1.26"; twin_tier "nginx:1.27";
                    shadowed_tier "web" "/"]).

(** * Properties *)

(** ** Strings *)

Section Strings.

Lemma append_assoc (a b c : string) : (a ++ b) ++ c = a ++ b ++ c.
Proof. induction a as [|x a IH]; simpl; [reflexivity | now rewrite IH]. Qed.

Lemma append_nil_r (a : string) : a ++ EmptyString = a.
Proof. induction a as [|x a IH]; simpl; [reflexivity | now rewrite IH]. Qed.

Lemma length_append (a b : string) :
  String.length (a ++ b) = String.length a + String.length b.
Proof. induction a as [|x a IH]; simpl; [reflexivity | now rewrite IH]. Qed.

(** Cancelling a common suffix. *)
Lemma append_inv_tail (s a b : string) : a ++ s = b ++ s -> a = b.
Proof.
  revert b; induction a as [|x a IH]; intros [|y b] H; simpl in H.
  - reflexivity.
  - apply (f_equal String.length) in H; simpl in H.
    rewrite length_append in H; lia.
  - apply (f_equal String.length) in H; simpl in H.
    rewrite length_append in H; lia.
  - injection H as -> H. f_equal. now apply IH.
Qed.

Lemma prefix_append (n post : string) : String.prefix n (n ++ post) = true.
Proof.
  induction n as [|x n IH]; simpl.
  - now destruct post.
  - destruct (ascii_dec x x) as [_|Hne]; [exact IH | now elim Hne].
Qed.

Lemma prefix_split (n h : string) :
  String.prefix n h = true -> exists post, h = n ++ post.
Proof.
  revert h; induction n as [|x n IH]; intros h H.
  - now exists h.
  - destruct h as [|y h]; simpl in H; [discriminate|].
    destruct (ascii_dec x y) as [->|]; [|discriminate].
    destruct (IH _ H) as [post ->]. now exists post.
Qed.

Lemma includes_refl (n : string) : includes n n.
Proof. exists EmptyString, EmptyString. simpl. now rewrite append_nil_r. Qed.

Lemma includes_app_l (n a b : string) : includes n a -> includes n (a ++ b).
Proof.
  intros (pre & post & ->). exists pre, (post ++ b).
  now rewrite !append_assoc.
Qed.

Lemma includes_app_r (n a b : string) : includes n b -> includes n (a ++ b).
Proof.
  intros (pre & post & ->). exists (a ++ pre), post.
  now rewrite !append_assoc.
Qed.

Lemma includes_head (n post : string) : includes n (n ++ post).
Proof. exists EmptyString, post. reflexivity. Qed.

Lemma includes_cons (n : string) (c : ascii) (h : string) :
  includes n h -> includes n (String c h).
Proof. intros (pre & post & ->). now exists (String c pre), post. Qed.

(** The test decides the proposition. *)
Lemma includesb_true (n h : string) : includesb n h = true <-> includes n h.
Proof.
  split.
  - induction h as [|c h IH]; intros H.
    + change (String.prefix n EmptyString || false = true) in H.
      rewrite orb_false_r in H. destruct (prefix_split _ _ H) as [post ->].
      apply includes_head.
    + change (String.prefix n (String c h) || includesb n h = true) in H.
      apply orb_true_iff in H as [H|H].
      * destruct (prefix_split _ _ H) as [post ->]. apply includes_head.
      * apply includes_cons. now apply IH.
  - intros (pre & post & ->). induction pre as [|c pre IH].
    + change (EmptyString ++ n ++ post) with (n ++ post).
      destruct (n ++ post) eqn:E; cbn [includesb];
        rewrite <- E, prefix_append; reflexivity.
    + change (String c pre ++ n ++ post) with (String c (pre ++ n ++ post)).
      cbn [includesb]. rewrite IH. apply orb_true_r.
Qed.

Lemma includesb_false (n h : string) : includesb n h = false -> ~ includes n h.
Proof.
  intros H Hin. apply includesb_true in Hin. congruence.
Qed.

Lemma endsWith_refl (s : string) : endsWith s s.
Proof. now exists EmptyString. Qed.

Lemma endsWith_app_r (x a b : string) : endsWith x b -> endsWith x (a ++ b).
Proof. intros [pre ->]. exists (a ++ pre). now rewrite append_assoc. Qed.

End Strings.

Lemma includes_head_eq (n hay post : string) : hay = n ++ post -> includes n hay.
Proof. intros ->. apply includes_head. Qed.

(** Finding a needle in a template: walk down the concatenation, one piece
    at a time, until the needle is at the head. *)
Ltac needle_at_head :=
  lazymatch goal with
  | |- includes ?n ?n => apply includes_refl
  | |- includes ?n (?n ++ _) => apply includes_head
  | |- includes (?n1 ++ _) (?n1 ++ _) =>
      eapply includes_head_eq; repeat rewrite append_assoc; reflexivity
  end.

Ltac find_in_template :=
  first [ needle_at_head | apply includes_app_r; find_in_template ].


Ltac find_at_end :=
  first [ apply endsWith_refl | apply endsWith_app_r; find_at_end ].

(** ** Property lists *)

Section PropertyLists.

Context {A : Type}.
Implicit Types (o ws : props A) (k : string) (v : A).

Lemma get_set k k' v o :
  get k (set k' v o) = if k' =? k then Some v else get k o.
Proof.
  induction o as [|[k0 v0] o IH]; simpl.
  - reflexivity.
  - destruct (String.eqb_spec k0 k') as [->|Hne]; simpl.
    + now destruct (k' =? k).
    + rewrite IH. destruct (String.eqb_spec k0 k) as [->|]; [|reflexivity].
      destruct (String.eqb_spec k' k) as [->|]; [now elim Hne | reflexivity].
Qed.

Lemma in_set k v k0 v0 o :
  In (k0, v0) (set k v o) -> (k0 = k /\ v0 = v) \/ In (k0, v0) o.
Proof.
  induction o as [|[k1 v1] o IH]; simpl.
  - intros [H|[]]. injection H as <- <-. now left.
  - destruct (String.eqb_spec k1 k) as [->|Hne]; simpl.
    + intros [H|H]; [injection H as <- <-; now left | right; now right].
    + intros [H|H]; [right; now left|].
      destruct (IH H) as [?|?]; [now left | right; now right].
Qed.

Lemma in_keys_set k v k0 o :
  In k0 (keys (set k v o)) <-> k0 = k \/ In k0 (keys o).
Proof.
  unfold keys. induction o as [|[k1 v1] o IH]; simpl.
  - intuition.
  - destruct (String.eqb_spec k1 k) as [->|Hne]; simpl.
    + intuition.
    + rewrite IH. intuition.
Qed.

Lemma NoDup_keys_set k v o : NoDup (keys o) -> NoDup (keys (set k v o)).
Proof.
  unfold keys. induction o as [|[k1 v1] o IH]; simpl; intros H.
  - constructor; [intros [] | constructor].
  - inversion H as [|? ? Hnin Hnd]; subst.
    destruct (String.eqb_spec k1 k) as [->|Hne]; simpl.
    + now constructor.
    + constructor; [|now apply IH].
      intros Hin. apply (in_keys_set k v k1 o) in Hin as [->|Hin]; auto.
Qed.

Lemma get_in k v o : get k o = Some v -> In (k, v) o.
Proof.
  induction o as [|[k1 v1] o IH]; simpl; [discriminate|].
  destruct (String.eqb_spec k1 k) as [->|Hne].
  - intros H; injection H as ->. now left.
  - intros H. right. now apply IH.
Qed.

Lemma get_none_keys k o : get k o = None <-> ~ In k (keys o).
Proof.
  unfold keys. induction o as [|[k1 v1] o IH]; simpl.
  - intuition.
  - destruct (String.eqb_spec k1 k) as [->|Hne].
    + split; [discriminate | intros H; elim H; now left].
    + rewrite IH. intuition.
Qed.

(** [Object.assign] replays the source's own properties as assignments. *)
Lemma assign_app o ws1 ws2 : assign o (ws1 ++ ws2)%list = assign (assign o ws1) ws2.
Proof. unfold assign. apply fold_left_app. Qed.

Lemma get_assign k o ws :
  get k (assign o ws) =
  match last_value k ws with Some v => Some v | None => get k o end.
Proof.
  unfold assign. revert o.
  induction ws as [|[k1 v1] ws IH]; intros o; simpl.
  - reflexivity.
  - rewrite IH, get_set. destruct (last_value k ws); [reflexivity|].
    now destruct (k1 =? k).
Qed.

Lemma in_assign k v o ws :
  In (k, v) (assign o ws) -> In (k, v) ws \/ In (k, v) o.
Proof.
  unfold assign. revert o.
  induction ws as [|[k1 v1] ws IH]; intros o; simpl.
  - now right.
  - intros H. destruct (IH _ H) as [H1|H1]; [left; now right|].
    apply in_set in H1 as [[-> ->]|H1]; [left; now left | now right].
Qed.

Lemma NoDup_keys_assign o ws : NoDup (keys o) -> NoDup (keys (assign o ws)).
Proof.
  unfold assign. revert o.
  induction ws as [|[k1 v1] ws IH]; intros o H; simpl; [exact H|].
  apply IH. now apply NoDup_keys_set.
Qed.

Lemma last_value_app k ws1 ws2 :
  last_value k (ws1 ++ ws2)%list =
  match last_value k ws2 with
  | Some v => Some v
  | None => last_value k ws1
  end.
Proof.
  induction ws1 as [|[k1 v1] ws1 IH]; simpl.
  - now destruct (last_value k ws2).
  - rewrite IH. now destruct (last_value k ws2).
Qed.

Lemma last_value_none k ws :
  last_value k ws = None <-> ~ In k (map fst ws).
Proof.
  induction ws as [|[k1 v1] ws IH]; simpl.
  - intuition.
  - destruct (last_value k ws) as [x|].
    + split; [discriminate|]. intros H. exfalso.
      apply H. right. destruct (in_dec string_dec k (map fst ws)) as [i|n]; auto.
      apply IH in n. discriminate.
    + destruct (String.eqb_spec k1 k) as [->|Hne].
      * split; [discriminate | intros H; elim H; now left].
      * split; [|reflexivity]. intros _ [H|H]; [easy|].
        now apply (proj1 IH).
Qed.

End PropertyLists.

(** Assignments made while iterating: the last one to [k] comes from the
    last element that assigns [k] at all. *)
Lemma last_value_flat_map_none {T A} (f : T -> list (string * A)) k l :
  last_value k (flat_map f l) = None <->
  forall t, In t l -> last_value k (f t) = None.
Proof.
  induction l as [|t l IH]; simpl.
  - intuition.
  - rewrite last_value_app. split.
    + intros H t' [<-|Hin].
      * destruct (last_value k (flat_map f l)); [discriminate | exact H].
      * destruct (last_value k (flat_map f l)) eqn:E; [discriminate|].
        now apply (proj1 IH).
    + intros H. rewrite (proj2 IH) by (intros; apply H; now right).
      apply H. now left.
Qed.

Lemma last_value_flat_map_last {T A} (f : T -> list (string * A)) k l1 t l2 v :
  last_value k (f t) = Some v ->
  (forall t', In t' l2 -> last_value k (f t') = None) ->
  last_value k (flat_map f (l1 ++ t :: l2)%list) = Some v.
Proof.
  intros Ht Hl2. rewrite flat_map_app, last_value_app. simpl.
  rewrite last_value_app.
  rewrite (proj2 (last_value_flat_map_none f k l2) Hl2). now rewrite Ht.
Qed.

(** ** The output object as a sequence of assignments *)

Section Orchestration.

Variables namespace appName : value.

Lemma firstPass_files st tier :
  Locals.files (firstPass namespace appName st tier) =
  assign (Locals.files st) (pass1_writes namespace appName tier).
Proof.
  unfold firstPass, pass1_writes.
  destruct (renderConfigMap tier namespace appName) as [cm|];
    destruct (renderSecret tier namespace appName) as [secret|];
    destruct (pvc_enabled tier && deployment_like tier);
    destruct (generatePVC tier namespace appName) as [pvc|];
    destruct (pv_requested tier);
    destruct (generatePV tier appName) as [pv|];
    reflexivity.
Qed.

Lemma firstPass_fold_files tiers st :
  Locals.files (fold_left (firstPass namespace appName) tiers st) =
  assign (Locals.files st) (flat_map (pass1_writes namespace appName) tiers).
Proof.
  revert st. induction tiers as [|tier tiers IH]; intros st; simpl.
  - reflexivity.
  - rewrite IH, firstPass_files, assign_app. reflexivity.
Qed.

Lemma secondPass_files refs files tier :
  secondPass namespace appName refs files tier =
  assign files (pass2_writes namespace appName refs tier).
Proof.
  unfold secondPass, pass2_writes, workload_writes, service_writes.
  destruct (is_statefulset tier);
    destruct (generateService tier namespace appName); reflexivity.
Qed.

Lemma secondPass_fold_files refs tiers files :
  fold_left (secondPass namespace appName refs) tiers files =
  assign files (flat_map (pass2_writes namespace appName refs) tiers).
Proof.
  revert files. induction tiers as [|tier tiers IH]; intros files; simpl.
  - reflexivity.
  - rewrite IH, secondPass_files, assign_app. reflexivity.
Qed.

End Orchestration.

Lemma afterFirstPass_files payload :
  Locals.files (afterFirstPass payload) =
  assign (namespace_writes payload)
    (flat_map (pass1_writes (Payload.namespace payload) (Payload.appName payload))
       (or_empty (Payload.tiers payload))).
Proof.
  unfold afterFirstPass. rewrite firstPass_fold_files. reflexivity.
Qed.

Lemma afterSecondPass_writes payload :
  afterSecondPass payload =
  assign []
    (namespace_writes payload
     ++ flat_map (pass1_writes (Payload.namespace payload) (Payload.appName payload))
          (or_empty (Payload.tiers payload))
     ++ flat_map (pass2_writes (Payload.namespace payload) (Payload.appName payload)
                    (afterFirstPass payload))
          (or_empty (Payload.tiers payload)))%list.
Proof.
  unfold afterSecondPass. rewrite secondPass_fold_files, afterFirstPass_files.
  rewrite !assign_app. f_equal. f_equal.
  unfold namespace_writes.
  now destruct (truthy (Payload.createNamespace payload)).
Qed.

(** When the checks pass and the Ingress renderer returns, the call
    returns the replay of [writes]. *)
Lemma compile_writes payload ingress :
  validated payload ->
  generateIngress (or_empty (Payload.tiers payload))
    (Payload.namespace payload) (Payload.appName payload) = Returned ingress ->
  compile payload = Returned (assign [] (writes payload ingress)).
Proof.
  unfold validated, compile, generateKubernetesManifests. intros -> ->.
  f_equal. unfold writes.
  rewrite !app_assoc. rewrite assign_app, assign_app.
  rewrite <- !app_assoc. rewrite <- afterSecondPass_writes.
  unfold ingress_writes, rbac_writes.
  destruct ingress; destruct (truthy (Payload.enableRBAC payload)); reflexivity.
Qed.

(** ** Validation *)

(** The violation list is the three messages filtered by the three checks,
    in this order. *)
Lemma validation_errors_spec payload :
  forall m, In m (validation_errors payload) <->
    (m = msg_appName /\ truthy (Payload.appName payload) = false) \/
    (m = msg_namespace /\ truthy (Payload.namespace payload) = false) \/
    (m = msg_tiers /\ tiers_ok payload = false).
Proof.
  intros m. unfold validation_errors, msg_appName, msg_namespace, msg_tiers.
  destruct (truthy (Payload.appName payload));
    destruct (truthy (Payload.namespace payload));
    destruct (tiers_ok payload); simpl; intuition congruence.
Qed.

Lemma validated_iff payload :
  validated payload <->
  truthy (Payload.appName payload) = true /\
  truthy (Payload.namespace payload) = true /\
  tiers_ok payload = true.
Proof.
  unfold validated, validation_errors.
  destruct (truthy (Payload.appName payload));
    destruct (truthy (Payload.namespace payload));
    destruct (tiers_ok payload); simpl; intuition congruence.
Qed.

(** C1. A request in which [appName], [namespace] or a non-empty [tiers]
    array is missing makes [compile] throw the validation error; its
    [details] name each missing field and no other, and no file mapping is
    returned. *)
Theorem validation_names_every_missing_field (payload : Payload.t) :
  truthy (Payload.appName payload) = false \/
  truthy (Payload.namespace payload) = false \/
  tiers_ok payload = false ->
  exists details,
    compile payload = Threw (Error "Validation failed" 400 details) /\
    (truthy (Payload.appName payload) = false <-> In msg_appName details) /\
    (truthy (Payload.namespace payload) = false <-> In msg_namespace details) /\
    (tiers_ok payload = false <-> In msg_tiers details) /\
    (forall m, In m details -> m = msg_appName \/ m = msg_namespace \/ m = msg_tiers) /\
    (forall files, compile payload <> Returned files).
Proof.
  intros Hmissing. exists (validation_errors payload).
  assert (Hthrow : compile payload =
                   Threw (Error "Validation failed" 400 (validation_errors payload))).
  { unfold compile, generateKubernetesManifests.
    destruct (validation_errors payload) eqn:E; [|reflexivity].
    apply validated_iff in E as (Ha & Hn & Ht).
    destruct Hmissing as [H|[H|H]]; congruence. }
  split; [exact Hthrow|].
  repeat split.
  - intros H. apply validation_errors_spec. now left.
  - intros H. apply validation_errors_spec in H as [[_ H]|[[H _]|[H _]]];
      [exact H | discriminate H | discriminate H].
  - intros H. apply validation_errors_spec. right. now left.
  - intros H. apply validation_errors_spec in H as [[H _]|[[_ H]|[H _]]];
      [discriminate H | exact H | discriminate H].
  - intros H. apply validation_errors_spec. right. now right.
  - intros H. apply validation_errors_spec in H as [[H _]|[[H _]|[_ H]]];
      [discriminate H | discriminate H | exact H].
  - intros m H. apply validation_errors_spec in H. intuition.
  - intros files H. rewrite Hthrow in H. discriminate H.
Qed.

Lemma validation_names_every_missing_field_witness :
  exists details,
    compile empty_request = Threw (Error "Validation failed" 400 details) /\
    (truthy (Payload.appName empty_request) = false <-> In msg_appName details) /\
    (truthy (Payload.namespace empty_request) = false <-> In msg_namespace details) /\
    (tiers_ok empty_request = false <-> In msg_tiers details) /\
    (forall m, In m details -> m = msg_appName \/ m = msg_namespace \/ m = msg_tiers) /\
    (forall files, compile empty_request <> Returned files).
Proof.
  apply (validation_names_every_missing_field empty_request).
  left. reflexivity.
Defined.

(** ** The scenario of the specification *)

(** C2. The scenario request compiles to exactly [namespace.yaml],
    [deployment-api.yaml] and [service-api.yaml]; the Deployment holds
    [replicas: 2] and [image: nginx:1.27], the Service [port: 80], and no
    ConfigMap, Secret, PVC, PV, Ingress or RBAC file is present. *)
Theorem scenario_output :
  exists ns_doc deployment service,
    compile scenario =
      Returned [ ("namespace.yaml", ns_doc);
                 ("deployment-api.yaml", deployment);
                 ("service-api.yaml", service) ] /\
    includes "replicas: 2" deployment /\
    includes "image: nginx:1.27" deployment /\
    includes "port: 80" service /\
    forall files, compile scenario = Returned files ->
      keys files = ["namespace.yaml"; "deployment-api.yaml"; "service-api.yaml"] /\
      get "configmap-api.yaml" files = None /\
      get "secret-api.yaml" files = None /\
      get "pvc-api.yaml" files = None /\
      get "pv-api.yaml" files = None /\
      get "ingress.yaml" files = None /\
      get "serviceaccount.yaml" files = None /\
      get "role.yaml" files = None /\
      get "rolebinding.yaml" files = None.
Proof.
  eexists _, _, _. split; [vm_compute; reflexivity|].
  split; [apply includesb_true; vm_compute; reflexivity|].
  split; [apply includesb_true; vm_compute; reflexivity|].
  split; [apply includesb_true; vm_compute; reflexivity|].
  intros files H. vm_compute in H. injection H as <-.
  repeat split; reflexivity.
Qed.

(** ** Where an output entry comes from *)

(** What the leaf renderers return when they return an object. *)
Lemma renderConfigMap_some tier namespace appName cm :
  renderConfigMap tier namespace appName = Some cm ->
  CmRef.filename cm = "configmap-" ++ tier_key tier ++ ".yaml" /\
  CmRef.cmName cm = toString appName ++ "-" ++ tier_key tier ++ "-config" /\
  includes ("  namespace: " ++ toString namespace ++ LF) (CmRef.content cm) /\
  or_empty (Tier.configMapData tier) <> [].
Proof.
  unfold renderConfigMap.
  destruct (or_empty (Tier.configMapData tier)) as [|d ds]; [discriminate|].
  cbv zeta. intros H.
  match type of H with Some (CmRef.mk _ ?c _) = _ =>
    assert (Hc : includes ("  namespace: " ++ toString namespace ++ LF) c)
      by find_in_template;
    set (content := c) in *; clearbody content
  end.
  injection H as <-. repeat split; try reflexivity; [exact Hc | discriminate].
Qed.

Lemma renderSecret_some tier namespace appName secret :
  renderSecret tier namespace appName = Some secret ->
  SecretRef.filename secret = "secret-" ++ tier_key tier ++ ".yaml" /\
  SecretRef.secretName secret = toString appName ++ "-" ++ tier_key tier ++ "-secret" /\
  includes ("  namespace: " ++ toString namespace ++ LF) (SecretRef.content secret) /\
  or_empty (Tier.secretData tier) <> [].
Proof.
  unfold renderSecret.
  destruct (or_empty (Tier.secretData tier)) as [|d ds]; [discriminate|].
  cbv zeta. intros H.
  match type of H with Some (SecretRef.mk _ ?c _) = _ =>
    assert (Hc : includes ("  namespace: " ++ toString namespace ++ LF) c)
      by find_in_template;
    set (content := c) in *; clearbody content
  end.
  injection H as <-. repeat split; try reflexivity; [exact Hc | discriminate].
Qed.

Lemma generatePVC_some tier namespace appName pvc :
  generatePVC tier namespace appName = Some pvc ->
  PvcRef.filename pvc = "pvc-" ++ tier_key tier ++ ".yaml" /\
  PvcRef.pvcName pvc = toString appName ++ "-" ++ tier_key tier ++ "-pvc" /\
  includes ("  namespace: " ++ toString namespace ++ LF) (PvcRef.content pvc) /\
  pvc_enabled tier = true.
Proof.
  unfold generatePVC, pvc_enabled.
  destruct (Tier.pvc tier) as [p|]; cbn [Pvc.enabled Pvc.empty truthy negb];
    [|discriminate].
  destruct (truthy (Pvc.enabled p)); cbn [negb]; [|discriminate].
  cbv zeta. intros H.
  match type of H with Some (PvcRef.mk _ ?c _) = _ =>
    assert (Hc : includes ("  namespace: " ++ toString namespace ++ LF) c)
      by find_in_template;
    set (content := c) in *; clearbody content
  end.
  injection H as <-. repeat split; try reflexivity. exact Hc.
Qed.

Lemma generatePV_some tier appName pv :
  generatePV tier appName = Some pv ->
  PvFile.filename pv = "pv-" ++ tier_key tier ++ ".yaml".
Proof.
  unfold generatePV.
  destruct (_ || _ || _); [discriminate|].
  destruct (volumeSource _ _ _); [|discriminate].
  intros H; injection H as <-. reflexivity.
Qed.

Lemma in_pass1_writes namespace appName refs tiers ingress tier k v :
  In tier tiers ->
  In (k, v) (pass1_writes namespace appName tier) ->
  emitted namespace appName refs tiers ingress k v.
Proof.
  intros Hin. unfold pass1_writes. rewrite !in_app_iff.
  intros [H|[H|[H|H]]].
  - destruct (renderConfigMap tier namespace appName) as [cm|] eqn:E; [|easy].
    destruct H as [H|[]]. injection H as <- <-.
    rewrite (proj1 (renderConfigMap_some _ _ _ _ E)). now apply em_configmap.
  - destruct (renderSecret tier namespace appName) as [s|] eqn:E; [|easy].
    destruct H as [H|[]]. injection H as <- <-.
    rewrite (proj1 (renderSecret_some _ _ _ _ E)). now apply em_secret.
  - destruct (pvc_enabled tier && deployment_like tier) eqn:Ec; [|easy].
    destruct (generatePVC tier namespace appName) as [pvc|] eqn:E; [|easy].
    destruct H as [H|[]]. injection H as <- <-.
    rewrite (proj1 (generatePVC_some _ _ _ _ E)). now apply em_pvc.
  - destruct (pv_requested tier) eqn:Ec; [|easy].
    destruct (generatePV tier appName) as [pv|] eqn:E; [|easy].
    destruct H as [H|[]]. injection H as <- <-.
    rewrite (generatePV_some _ _ _ E). now apply em_pv.
Qed.

Lemma in_pass2_writes namespace appName refs tiers ingress tier k v :
  In tier tiers ->
  In (k, v) (pass2_writes namespace appName refs tier) ->
  emitted namespace appName refs tiers ingress k v.
Proof.
  intros Hin. unfold pass2_writes, workload_writes, service_writes.
  rewrite in_app_iff. intros [H|H].
  - destruct (is_statefulset tier) eqn:E.
    + destruct H as [H|[H|[]]]; injection H as <- <-;
        [now apply em_headless | now apply em_statefulset].
    + destruct H as [H|[]]. injection H as <- <-. now apply em_deployment.
  - destruct (generateService tier namespace appName) as [doc|] eqn:E; [|easy].
    destruct H as [H|[]]. injection H as <- <-. now apply em_service.
Qed.

Lemma in_writes payload ingress k v :
  In (k, v) (writes payload ingress) ->
  emitted (Payload.namespace payload) (Payload.appName payload)
    (afterFirstPass payload) (or_empty (Payload.tiers payload)) ingress k v.
Proof.
  unfold writes. rewrite !in_app_iff. intros [H|[H|[H|[H|H]]]].
  - unfold namespace_writes in H.
    destruct (truthy (Payload.createNamespace payload)); [|easy].
    destruct H as [H|[]]. injection H as <- <-. apply em_namespace.
  - apply in_flat_map in H as (tier & Hin & H).
    now apply (in_pass1_writes _ _ _ _ _ tier).
  - apply in_flat_map in H as (tier & Hin & H).
    now apply (in_pass2_writes _ _ _ _ _ tier).
  - unfold ingress_writes in H. destruct ingress as [doc|]; [|easy].
    destruct H as [H|[]]. injection H as <- <-. now apply em_ingress.
  - unfold rbac_writes in H.
    destruct (truthy (Payload.enableRBAC payload)); [|easy].
    now apply em_rbac.
Qed.

(** ** When the Ingress renderer returns *)

Lemma addRule_returns appName rulesByHost tier :
  ingress_throws tier = false ->
  exists rulesByHost', addRule appName rulesByHost tier = Returned rulesByHost'.
Proof.
  unfold ingress_throws, routed, host_of, addRule.
  destruct (Tier.ingress tier) as [i|]; [|intros _; eexists; reflexivity].
  destruct (Tier.service tier) as [s|]; [|intros _; eexists; reflexivity].
  cbn [andb]. intros ->.
  destruct (get _ rulesByHost); eexists; reflexivity.
Qed.

Lemma collectRules_returns appName tiers rulesByHost :
  ingress_renders tiers = true ->
  exists rules, collectRules appName rulesByHost tiers = Returned rules.
Proof.
  revert rulesByHost. induction tiers as [|tier tiers IH]; intros acc H; simpl.
  - eexists; reflexivity.
  - simpl in H. apply andb_true_iff in H as [Ht Hrest].
    apply negb_true_iff in Ht.
    destruct (addRule_returns appName acc tier Ht) as [acc' ->].
    now apply IH.
Qed.

Lemma generateIngress_returns tiers namespace appName :
  ingress_renders tiers = true ->
  exists ingress, generateIngress tiers namespace appName = Returned ingress.
Proof.
  intros H. unfold generateIngress.
  destruct (collectRules_returns appName tiers [] H) as [rules ->].
  destruct (Object_keys rules); eexists; reflexivity.
Qed.

(** Own properties of [rulesByHost] never shadow an inherited one, so a
    tier whose host is inherited always reaches the failing [push]. *)
Lemma addRule_keys appName rulesByHost tier rulesByHost' :
  addRule appName rulesByHost tier = Returned rulesByHost' ->
  (forall k, In k (keys rulesByHost) -> inherited k = false) ->
  forall k, In k (keys rulesByHost') -> inherited k = false.
Proof.
  unfold addRule.
  destruct (Tier.ingress tier) as [i|]; [|intros [= <-]; auto].
  destruct (Tier.service tier) as [s|]; [|intros [= <-]; auto].
  destruct (get (toString (Ingress.host i)) rulesByHost) as [rules|] eqn:E.
  - intros [= <-] Hacc k Hk. apply in_keys_set in Hk as [->|Hk]; [|auto].
    apply Hacc. destruct (in_dec string_dec (toString (Ingress.host i)) (keys rulesByHost))
      as [Hin|Hnin]; [exact Hin|].
    apply get_none_keys in Hnin. congruence.
  - destruct (inherited (toString (Ingress.host i))) eqn:Ei; [discriminate|].
    intros [= <-] Hacc k Hk. apply in_keys_set in Hk as [->|Hk]; auto.
Qed.

Lemma collectRules_throws appName tiers rulesByHost :
  (forall k, In k (keys rulesByHost) -> inherited k = false) ->
  ingress_renders tiers = false ->
  collectRules appName rulesByHost tiers = Threw TypeError.
Proof.
  revert rulesByHost. induction tiers as [|tier tiers IH]; intros acc Hacc H.
  - discriminate.
  - simpl in H. simpl.
    destruct (addRule appName acc tier) as [acc'|e] eqn:E.
    + apply IH; [now apply (addRule_keys _ _ _ _ E)|].
      destruct (ingress_throws tier) eqn:Et; [|exact H].
      exfalso. revert E. unfold ingress_throws, routed, host_of in Et.
      unfold addRule.
      destruct (Tier.ingress tier) as [i|]; [|discriminate].
      destruct (Tier.service tier) as [s|]; [|discriminate].
      cbn [andb] in Et.
      destruct (get (toString (Ingress.host i)) acc) as [rules|] eqn:Eg.
      * apply get_in in Eg. apply (in_map fst) in Eg.
        apply Hacc in Eg. cbn [fst] in Eg. congruence.
      * rewrite Et. discriminate.
    + revert E. unfold addRule.
      destruct (Tier.ingress tier) as [i|]; [|discriminate].
      destruct (Tier.service tier) as [s|]; [|discriminate].
      destruct (get _ acc); [discriminate|].
      destruct (inherited _); [now intros [= <-] | discriminate].
Qed.

Lemma generateIngress_throws tiers namespace appName :
  ingress_renders tiers = false ->
  generateIngress tiers namespace appName = Threw TypeError.
Proof.
  intros H. unfold generateIngress.
  rewrite (collectRules_throws appName tiers []); [reflexivity | intros k [] | exact H].
Qed.

(** Tiers without both blocks leave [rulesByHost] alone. *)
Lemma collectRules_unrouted appName tiers rulesByHost :
  (forall tier, In tier tiers -> routed tier = false) ->
  collectRules appName rulesByHost tiers = Returned rulesByHost.
Proof.
  induction tiers as [|tier tiers IH]; intros H; simpl; [reflexivity|].
  assert (Ht : routed tier = false) by (apply H; now left).
  unfold addRule. unfold routed in Ht.
  destruct (Tier.ingress tier) as [i|]; [destruct (Tier.service tier); [discriminate|]|];
    apply IH; intros t' Hin; apply H; now right.
Qed.

(** ** When [compile] returns *)

Lemma compile_returns payload :
  validated payload ->
  ingress_renders (or_empty (Payload.tiers payload)) = true ->
  exists ingress,
    generateIngress (or_empty (Payload.tiers payload))
      (Payload.namespace payload) (Payload.appName payload) = Returned ingress /\
    compile payload = Returned (assign [] (writes payload ingress)).
Proof.
  intros Hv Hi.
  destruct (generateIngress_returns _ (Payload.namespace payload)
              (Payload.appName payload) Hi) as [ingress E].
  exists ingress. split; [exact E | now apply compile_writes].
Qed.

Lemma compile_returns_iff payload :
  (exists files, compile payload = Returned files) <->
  validated payload /\ ingress_renders (or_empty (Payload.tiers payload)) = true.
Proof.
  split.
  - intros [files H]. unfold compile, generateKubernetesManifests in H.
    destruct (validation_errors payload) eqn:Ev; [|discriminate].
    split; [exact Ev|].
    destruct (ingress_renders (or_empty (Payload.tiers payload))) eqn:Ei;
      [reflexivity|].
    rewrite (generateIngress_throws _ _ _ Ei) in H. discriminate.
  - intros [Hv Hi]. destruct (compile_returns payload Hv Hi) as (ing & _ & ->).
    eexists; reflexivity.
Qed.

(** The output object has one property per key. *)
Lemma compile_NoDup payload files :
  compile payload = Returned files -> NoDup (keys files).
Proof.
  intros H.
  destruct (proj1 (compile_returns_iff payload) (ex_intro _ files H)) as [Hv Hi].
  destruct (compile_returns payload Hv Hi) as (ing & _ & E).
  rewrite E in H. injection H as <-.
  apply NoDup_keys_assign. constructor.
Qed.

(** ** Reading a file name back

    The file names of the different kinds never coincide, and within a
    kind the name determines the tier key. *)

Ltac rbac_key H Ek :=
  destruct H as [H|[H|[H|[]]]]; injection H as <- <-; discriminate Ek.

Section FileNames.

Variables (namespace appName : value) (refs : Locals.t).
Variables (tiers : list Tier.t) (ingress : option string).

Local Abbreviation emitted' := (emitted namespace appName refs tiers ingress).

Lemma emitted_configmap_key n v :
  emitted' ("configmap-" ++ n ++ ".yaml") v ->
  exists tier cm, In tier tiers /\ tier_key tier = n /\
    renderConfigMap tier namespace appName = Some cm /\ v = CmRef.content cm.
Proof.
  intros H. remember ("configmap-" ++ n ++ ".yaml") as k eqn:Ek.
  destruct H; try discriminate Ek.
  - injection Ek as Ek. apply append_inv_tail in Ek. eauto 10.
  - rbac_key H Ek.
Qed.

Lemma emitted_secret_key n v :
  emitted' ("secret-" ++ n ++ ".yaml") v ->
  exists tier secret, In tier tiers /\ tier_key tier = n /\
    renderSecret tier namespace appName = Some secret /\
    v = SecretRef.content secret.
Proof.
  intros H. remember ("secret-" ++ n ++ ".yaml") as k eqn:Ek.
  destruct H; try discriminate Ek.
  - injection Ek as Ek. apply append_inv_tail in Ek. eauto 10.
  - rbac_key H Ek.
Qed.

Lemma emitted_pvc_key n v :
  emitted' ("pvc-" ++ n ++ ".yaml") v ->
  exists tier pvc, In tier tiers /\ tier_key tier = n /\
    pvc_enabled tier && deployment_like tier = true /\
    generatePVC tier namespace appName = Some pvc /\ v = PvcRef.content pvc.
Proof.
  intros H. remember ("pvc-" ++ n ++ ".yaml") as k eqn:Ek.
  destruct H; try discriminate Ek.
  - injection Ek as Ek. apply append_inv_tail in Ek. eauto 10.
  - rbac_key H Ek.
Qed.

Lemma emitted_pv_key n v :
  emitted' ("pv-" ++ n ++ ".yaml") v ->
  exists tier pv, In tier tiers /\ tier_key tier = n /\
    pv_requested tier = true /\
    generatePV tier appName = Some pv /\ v = PvFile.content pv.
Proof.
  intros H. remember ("pv-" ++ n ++ ".yaml") as k eqn:Ek.
  destruct H; try discriminate Ek.
  - injection Ek as Ek. apply append_inv_tail in Ek. eauto 10.
  - rbac_key H Ek.
Qed.

Lemma emitted_headless_key n v :
  emitted' ("headless-service-" ++ n ++ ".yaml") v ->
  exists tier, In tier tiers /\ tier_key tier = n /\
    is_statefulset tier = true /\
    v = generateHeadlessService tier namespace appName.
Proof.
  intros H. remember ("headless-service-" ++ n ++ ".yaml") as k eqn:Ek.
  destruct H; try discriminate Ek.
  - injection Ek as Ek. apply append_inv_tail in Ek. eauto 10.
  - rbac_key H Ek.
Qed.

Lemma emitted_statefulset_key n v :
  emitted' ("statefulset-" ++ n ++ ".yaml") v ->
  exists tier, In tier tiers /\ tier_key tier = n /\
    is_statefulset tier = true /\
    v = generateStatefulSet tier namespace appName
          (Refs.get cm_fields n (Locals.cmRefs refs))
          (Refs.get secret_fields n (Locals.secretRefs refs)).
Proof.
  intros H. remember ("statefulset-" ++ n ++ ".yaml") as k eqn:Ek.
  destruct H; try discriminate Ek.
  - injection Ek as Ek. apply append_inv_tail in Ek. subst n. eauto 10.
  - rbac_key H Ek.
Qed.

Lemma emitted_deployment_key n v :
  emitted' ("deployment-" ++ n ++ ".yaml") v ->
  exists tier, In tier tiers /\ tier_key tier = n /\
    is_statefulset tier = false /\
    v = generateDeployment tier namespace appName
          (Refs.get cm_fields n (Locals.cmRefs refs))
          (Refs.get secret_fields n (Locals.secretRefs refs))
          (Refs.get pvc_fields n (Locals.pvcRefs refs)).
Proof.
  intros H. remember ("deployment-" ++ n ++ ".yaml") as k eqn:Ek.
  destruct H; try discriminate Ek.
  - injection Ek as Ek. apply append_inv_tail in Ek. subst n. eauto 10.
  - rbac_key H Ek.
Qed.

Lemma emitted_service_key n v :
  emitted' ("service-" ++ n ++ ".yaml") v ->
  exists tier, In tier tiers /\ tier_key tier = n /\
    generateService tier namespace appName = Some v.
Proof.
  intros H. remember ("service-" ++ n ++ ".yaml") as k eqn:Ek.
  destruct H; try discriminate Ek.
  - injection Ek as Ek. apply append_inv_tail in Ek. eauto 10.
  - rbac_key H Ek.
Qed.

Lemma emitted_ingress_key v :
  emitted' "ingress.yaml" v -> ingress = Some v.
Proof.
  intros H. remember "ingress.yaml" as k eqn:Ek.
  destruct H; try discriminate Ek.
  - assumption.
  - rbac_key H Ek.
Qed.

End FileNames.

(** ** Services *)

Lemma generateService_none tier namespace appName :
  generateService tier namespace appName = None <-> Tier.service tier = None.
Proof.
  unfold generateService. destruct (Tier.service tier); split; congruence.
Qed.

(** The Service document ends with its [targetPort] line. *)
Lemma generateService_targetPort tier namespace appName doc :
  generateService tier namespace appName = Some doc ->
  exists service,
    Tier.service tier = Some service /\
    endsWith ("      targetPort: " ++
              toString (if truthy (Service.targetPort service)
                        then Service.targetPort service
                        else Tier.containerPort tier) ++ LF) doc.
Proof.
  unfold generateService. destruct (Tier.service tier) as [service|]; [|discriminate].
  cbv zeta. unfold or_else. intros H. exists service. split; [reflexivity|].
  match type of H with Some ?d = _ =>
    assert (Hd : endsWith ("      targetPort: " ++
              toString (if truthy (Service.targetPort service)
                        then Service.targetPort service
                        else Tier.containerPort tier) ++ LF) d) by find_at_end;
    set (content := d) in *; clearbody content
  end.
  now injection H as <-.
Qed.

Lemma written_present payload ingress k v :
  In (k, v) (writes payload ingress) ->
  get k (assign [] (writes payload ingress)) <> None.
Proof.
  intros Hin. rewrite get_assign.
  destruct (last_value k (writes payload ingress)) eqn:E; [discriminate|].
  apply last_value_none in E. elim E.
  change k with (fst (k, v)). now apply in_map.
Qed.

Lemma in_writes_pass2 payload ingress tier k v :
  In tier (or_empty (Payload.tiers payload)) ->
  In (k, v) (pass2_writes (Payload.namespace payload) (Payload.appName payload)
               (afterFirstPass payload) tier) ->
  In (k, v) (writes payload ingress).
Proof.
  intros Hin H. unfold writes. rewrite !in_app_iff.
  right. right. left. apply in_flat_map. eauto.
Qed.

(** When the Ingress renderer returns: for a request that passes
    validation and whose Ingress hosts let the Ingress renderer return,
    the output has a [service-{name}.yaml]
    entry exactly when some tier of that name declares a [service] block;
    the entry is the Service document of such a tier, and its [targetPort]
    is [service.targetPort] when that is set and the tier's
    [containerPort] otherwise. *)
Theorem service_file_iff_service_block (payload : Payload.t) (n : string) :
  validated payload ->
  ingress_renders (or_empty (Payload.tiers payload)) = true ->
  exists files,
    compile payload = Returned files /\
    (get ("service-" ++ n ++ ".yaml") files <> None <->
     exists tier, In tier (or_empty (Payload.tiers payload)) /\
                  tier_key tier = n /\ Tier.service tier <> None) /\
    (forall doc,
       get ("service-" ++ n ++ ".yaml") files = Some doc ->
       exists tier service,
         In tier (or_empty (Payload.tiers payload)) /\
         tier_key tier = n /\
         Tier.service tier = Some service /\
         generateService tier (Payload.namespace payload)
           (Payload.appName payload) = Some doc /\
         (truthy (Service.targetPort service) = true ->
          endsWith ("      targetPort: " ++
                    toString (Service.targetPort service) ++ LF) doc) /\
         (truthy (Service.targetPort service) = false ->
          endsWith ("      targetPort: " ++
                    toString (Tier.containerPort tier) ++ LF) doc)).
Proof.
  intros Hv Hi. destruct (compile_returns payload Hv Hi) as (ing & Hg & Hc).
  exists (assign [] (writes payload ing)). split; [exact Hc|].
  assert (Hsome : forall doc,
    get ("service-" ++ n ++ ".yaml") (assign [] (writes payload ing)) = Some doc ->
    exists tier, In tier (or_empty (Payload.tiers payload)) /\ tier_key tier = n /\
      generateService tier (Payload.namespace payload) (Payload.appName payload)
        = Some doc).
  { intros doc H. apply get_in, in_assign in H as [H|[]].
    apply in_writes in H. now apply emitted_service_key in H. }
  split; [split|].
  - intros H.
    destruct (get ("service-" ++ n ++ ".yaml") (assign [] (writes payload ing)))
      as [doc|] eqn:E; [|congruence].
    destruct (Hsome doc eq_refl) as (tier & Hin & Hk & Hs).
    exists tier. repeat split; auto.
    intros Hnone.
    apply (proj2 (generateService_none tier (Payload.namespace payload)
                    (Payload.appName payload))) in Hnone.
    congruence.
  - intros (tier & Hin & Hk & Hs).
    destruct (generateService tier (Payload.namespace payload)
                (Payload.appName payload)) as [doc|] eqn:E;
      [|apply generateService_none in E; congruence].
    apply (written_present payload ing _ doc).
    apply (in_writes_pass2 _ _ tier); [exact Hin|].
    unfold pass2_writes, service_writes. rewrite in_app_iff. right.
    rewrite E, Hk. now left.
  - intros doc H. destruct (Hsome doc H) as (tier & Hin & Hk & Hs).
    destruct (generateService_targetPort _ _ _ _ Hs) as (service & Hsv & Hd).
    exists tier, service. repeat split; auto.
    + intros Ht. now rewrite Ht in Hd.
    + intros Ht. now rewrite Ht in Hd.
Qed.

Lemma service_file_iff_service_block_witness :
  exists files,
    compile scenario = Returned files /\
    (get ("service-" ++ "api" ++ ".yaml") files <> None <->
     exists tier, In tier (or_empty (Payload.tiers scenario)) /\
                  tier_key tier = "api" /\ Tier.service tier <> None) /\
    (forall doc,
       get ("service-" ++ "api" ++ ".yaml") files = Some doc ->
       exists tier service,
         In tier (or_empty (Payload.tiers scenario)) /\
         tier_key tier = "api" /\
         Tier.service tier = Some service /\
         generateService tier (Payload.namespace scenario)
           (Payload.appName scenario) = Some doc /\
         (truthy (Service.targetPort service) = true ->
          endsWith ("      targetPort: " ++
                    toString (Service.targetPort service) ++ LF) doc) /\
         (truthy (Service.targetPort service) = false ->
          endsWith ("      targetPort: " ++
                    toString (Tier.containerPort tier) ++ LF) doc)).
Proof.
  apply (service_file_iff_service_block scenario "api"); reflexivity.
Defined.

(** ** The last assignment wins *)

Lemma closing_writes_none payload ingress k :
  ("ingress.yaml" =? k) = false ->
  ("serviceaccount.yaml" =? k) = false ->
  ("role.yaml" =? k) = false ->
  ("rolebinding.yaml" =? k) = false ->
  last_value k (ingress_writes ingress ++ rbac_writes payload)%list = None.
Proof.
  intros Hi Hs Hr Hb. rewrite last_value_app.
  assert (Hrbac : last_value k (rbac_writes payload) = None).
  { unfold rbac_writes. destruct (truthy (Payload.enableRBAC payload));
      [|reflexivity].
    unfold generateRBAC. cbv zeta. cbn [last_value]. now rewrite Hs, Hr, Hb. }
  rewrite Hrbac. unfold ingress_writes. destruct ingress; [|reflexivity].
  cbn [last_value]. now rewrite Hi.
Qed.

Lemma get_second_pass payload ingress k v :
  last_value k (ingress_writes ingress ++ rbac_writes payload)%list = None ->
  last_value k
    (flat_map (pass2_writes (Payload.namespace payload) (Payload.appName payload)
                 (afterFirstPass payload))
       (or_empty (Payload.tiers payload))) = Some v ->
  get k (assign [] (writes payload ingress)) = Some v.
Proof.
  intros Hclose Hp2. rewrite get_assign. unfold writes.
  rewrite last_value_app, last_value_app, last_value_app.
  now rewrite Hclose, Hp2.
Qed.

Lemma pass2_writes_other_key namespace appName refs tier k :
  (forall v, ~ emitted namespace appName refs [tier] None k v) ->
  last_value k (pass2_writes namespace appName refs tier) = None.
Proof.
  intros H. apply last_value_none. intros Hin.
  apply in_map_iff in Hin as ([k' v] & Hk & Hin). cbn [fst] in Hk. subst k'.
  apply (H v). apply (in_pass2_writes _ _ _ _ _ tier); [now left | exact Hin].
Qed.

Lemma pass2_deployment namespace appName refs tier n :
  tier_key tier = n ->
  is_statefulset tier = false ->
  last_value ("deployment-" ++ n ++ ".yaml")
    (pass2_writes namespace appName refs tier) =
  Some (generateDeployment tier namespace appName
          (Refs.get cm_fields n (Locals.cmRefs refs))
          (Refs.get secret_fields n (Locals.secretRefs refs))
          (Refs.get pvc_fields n (Locals.pvcRefs refs))).
Proof.
  intros Hk Hs. unfold pass2_writes, workload_writes, service_writes.
  rewrite last_value_app, Hs, Hk.
  destruct (generateService tier namespace appName);
    cbn [last_value]; rewrite String.eqb_refl; reflexivity.
Qed.


Lemma present_once payload files k :
  compile payload = Returned files ->
  get k files <> None ->
  count_occ string_dec (keys files) k = 1.
Proof.
  intros Hc Hg. apply NoDup_count_occ'; [now apply (compile_NoDup payload)|].
  destruct (in_dec string_dec k (keys files)) as [Hin|Hnin]; [exact Hin|].
  apply get_none_keys in Hnin. congruence.
Qed.

(** When the Ingress renderer returns: two tiers of the same name, both
    rendered as Deployments: the
    request is not rejected, the output has exactly one
    [deployment-{name}.yaml] entry, and its content is the Deployment
    rendered from the later tier (with the references stored under the
    shared name by the first pass). *)
Theorem duplicate_names_later_tier_wins
    (payload : Payload.t) (before between after : list Tier.t)
    (earlier later : Tier.t) (n : string) :
  validated payload ->
  ingress_renders (or_empty (Payload.tiers payload)) = true ->
  or_empty (Payload.tiers payload) =
    (before ++ earlier :: between ++ later :: after)%list ->
  tier_key earlier = n ->
  tier_key later = n ->
  is_statefulset earlier = false ->
  is_statefulset later = false ->
  (forall tier, In tier after -> tier_key tier <> n) ->
  exists files,
    compile payload = Returned files /\
    count_occ string_dec (keys files) ("deployment-" ++ n ++ ".yaml") = 1 /\
    get ("deployment-" ++ n ++ ".yaml") files =
      Some (generateDeployment later
              (Payload.namespace payload) (Payload.appName payload)
              (Refs.get cm_fields n (Locals.cmRefs (afterFirstPass payload)))
              (Refs.get secret_fields n (Locals.secretRefs (afterFirstPass payload)))
              (Refs.get pvc_fields n (Locals.pvcRefs (afterFirstPass payload)))).
Proof.
  intros Hv Hi Htiers Hk1 Hk2 Hs1 Hs2 Hafter.
  destruct (compile_returns payload Hv Hi) as (ing & Hg & Hc).
  exists (assign [] (writes payload ing)). split; [exact Hc|].
  assert (Hget :
    get ("deployment-" ++ n ++ ".yaml") (assign [] (writes payload ing)) =
      Some (generateDeployment later
              (Payload.namespace payload) (Payload.appName payload)
              (Refs.get cm_fields n (Locals.cmRefs (afterFirstPass payload)))
              (Refs.get secret_fields n (Locals.secretRefs (afterFirstPass payload)))
              (Refs.get pvc_fields n (Locals.pvcRefs (afterFirstPass payload))))).
  { apply get_second_pass.
    - now apply closing_writes_none.
    - rewrite Htiers.
      change (before ++ earlier :: between ++ later :: after)%list
        with (before ++ (earlier :: between) ++ later :: after)%list.
      rewrite app_assoc.
      apply last_value_flat_map_last; [now apply pass2_deployment|].
      intros tier Hin. apply pass2_writes_other_key. intros v Hem.
      apply emitted_deployment_key in Hem as (t' & [Heq|[]] & Hk & _).
      subst t'. now apply (Hafter tier). }
  split; [|exact Hget].
  apply (present_once payload); [exact Hc | congruence].
Qed.

Lemma duplicate_names_later_tier_wins_witness :
  exists files,
    compile twins_request = Returned files /\
    count_occ string_dec (keys files) ("deployment-" ++ "api" ++ ".yaml") = 1 /\
    get ("deployment-" ++ "api" ++ ".yaml") files =
      Some (generateDeployment (twin_tier "nginx:1.27")
              (Payload.namespace twins_request) (Payload.appName twins_request)
              (Refs.get cm_fields "api" (Locals.cmRefs (afterFirstPass twins_request)))
              (Refs.get secret_fields "api"
                 (Locals.secretRefs (afterFirstPass twins_request)))
              (Refs.get pvc_fields "api"
                 (Locals.pvcRefs (afterFirstPass twins_request)))).
Proof.
  apply (duplicate_names_later_tier_wins twins_request
           [] [] [] (twin_tier "nginx:1.26") (twin_tier "nginx:1.27") "api");
    try reflexivity.
  intros tier [].
Defined.

(** ** PersistentVolume backends *)

Lemma volumeSource_none_iff tier appName pv :
  volumeSource tier appName pv = None <-> pv_rejected pv = true.
Proof.
  unfold volumeSource, pv_rejected, recognized_types, required_fields.
  cbv zeta. cbn [existsb].
  destruct (Pv.type pv) as [| |b|z|s]; cbn [is_str orb negb];
    try (split; [reflexivity|reflexivity]).
  repeat match goal with
         | |- context [s =? ?lit] =>
             destruct (String.eqb_spec s lit) as [->|?]; cbn [String.eqb Ascii.eqb Bool.eqb orb negb andb existsb]
         end;
    repeat match goal with
           | |- context [truthy ?v] => destruct (truthy v); cbn [orb negb]
           end;
    split; (reflexivity || discriminate || intros; congruence).
Qed.

Lemma generatePV_none_iff tier appName :
  generatePV tier appName = None <->
  match Tier.pv tier with
  | Some pv =>
      truthy (Pv.enabled pv) = false \/ truthy (Pv.type pv) = false \/
      is_str (Pv.type pv) "none" = true \/ pv_rejected pv = true
  | None => True
  end.
Proof.
  unfold generatePV. destruct (Tier.pv tier) as [pv|].
  - cbv zeta. rewrite <- (volumeSource_none_iff tier appName pv).
    destruct (truthy (Pv.enabled pv)); cbn [negb orb];
      [|split; [now left | reflexivity]].
    destruct (truthy (Pv.type pv)); cbn [negb orb];
      [|split; [right; now left | reflexivity]].
    destruct (is_str (Pv.type pv) "none"); cbn [negb orb];
      [split; [right; right; now left | reflexivity]|].
    destruct (volumeSource tier appName pv).
    + split; [discriminate | intros [H|[H|[H|H]]]; discriminate].
    + split; [intros _; now repeat right | reflexivity].
  - split; [trivial | reflexivity].
Qed.

Lemma with_pvs_validated f payload :
  validated payload -> validated (with_pvs f payload).
Proof.
  intros H. apply validated_iff in H as (Ha & Hn & Ht). apply validated_iff.
  repeat split; auto. unfold tiers_ok in *. cbn [with_pvs Payload.tiers].
  destruct (Payload.tiers payload) as [[|t l]|]; (discriminate || reflexivity).
Qed.

Lemma with_pvs_ingress_renders f payload :
  ingress_renders (or_empty (Payload.tiers (with_pvs f payload))) =
  ingress_renders (or_empty (Payload.tiers payload)).
Proof.
  cbn [with_pvs Payload.tiers].
  destruct (Payload.tiers payload) as [l|]; [|reflexivity].
  cbn [option_map or_empty]. unfold ingress_renders.
  induction l as [|t l IH]; [reflexivity|]. cbn [map forallb]. now rewrite IH.
Qed.

(** *** PV blocks and the other files *)

Lemma pass1_writes_split namespace appName tier :
  pass1_writes namespace appName tier =
  (pass1_other_writes namespace appName tier ++ pv_writes appName tier)%list.
Proof.
  unfold pass1_writes, pass1_other_writes, pv_writes.
  now rewrite <- !app_assoc.
Qed.

Lemma pv_writes_other appName tier k :
  not_pv_file k -> last_value k (pv_writes appName tier) = None.
Proof.
  intros Hk. unfold pv_writes. destruct (pv_requested tier); [|reflexivity].
  destruct (generatePV tier appName) as [pv|] eqn:E; [|reflexivity].
  cbn [last_value]. rewrite (generatePV_some _ _ _ E).
  destruct (String.eqb_spec ("pv-" ++ tier_key tier ++ ".yaml") k) as [<-|];
    [now elim (Hk (tier_key tier)) | reflexivity].
Qed.

Lemma pass1_without_pv namespace appName f tiers k :
  not_pv_file k ->
  last_value k (flat_map (pass1_writes namespace appName) (map (replace_pv f) tiers)) =
  last_value k (flat_map (pass1_writes namespace appName) tiers).
Proof.
  intros Hk. induction tiers as [|tier tiers IH]; [reflexivity|].
  cbn [map flat_map]. rewrite !last_value_app, IH.
  destruct (last_value k (flat_map (pass1_writes namespace appName) tiers));
    [reflexivity|].
  rewrite !pass1_writes_split, !last_value_app, !pv_writes_other by exact Hk.
  reflexivity.
Qed.

Lemma firstPass_refs_without_pv namespace appName f tier st st' :
  Locals.cmRefs st' = Locals.cmRefs st ->
  Locals.secretRefs st' = Locals.secretRefs st ->
  Locals.pvcRefs st' = Locals.pvcRefs st ->
  Locals.cmRefs (firstPass namespace appName st' (replace_pv f tier)) =
    Locals.cmRefs (firstPass namespace appName st tier) /\
  Locals.secretRefs (firstPass namespace appName st' (replace_pv f tier)) =
    Locals.secretRefs (firstPass namespace appName st tier) /\
  Locals.pvcRefs (firstPass namespace appName st' (replace_pv f tier)) =
    Locals.pvcRefs (firstPass namespace appName st tier).
Proof.
  intros Hc Hs Hp. unfold firstPass.
  change (renderConfigMap (replace_pv f tier) namespace appName)
    with (renderConfigMap tier namespace appName).
  change (renderSecret (replace_pv f tier) namespace appName)
    with (renderSecret tier namespace appName).
  change (generatePVC (replace_pv f tier) namespace appName)
    with (generatePVC tier namespace appName).
  change (pvc_enabled (replace_pv f tier)) with (pvc_enabled tier).
  change (deployment_like (replace_pv f tier)) with (deployment_like tier).
  change (tier_key (replace_pv f tier)) with (tier_key tier).
  destruct (renderConfigMap tier namespace appName);
    destruct (renderSecret tier namespace appName);
    destruct (pvc_enabled tier && deployment_like tier);
    destruct (generatePVC tier namespace appName);
    destruct (pv_requested (replace_pv f tier));
    destruct (generatePV (replace_pv f tier) appName);
    destruct (pv_requested tier);
    destruct (generatePV tier appName);
    cbn [Locals.cmRefs Locals.secretRefs Locals.pvcRefs];
    rewrite ?Hc, ?Hs, ?Hp; auto.
Qed.

Lemma firstPass_fold_refs_without_pv namespace appName f tiers st st' :
  Locals.cmRefs st' = Locals.cmRefs st ->
  Locals.secretRefs st' = Locals.secretRefs st ->
  Locals.pvcRefs st' = Locals.pvcRefs st ->
  Locals.cmRefs (fold_left (firstPass namespace appName) (map (replace_pv f) tiers) st') =
    Locals.cmRefs (fold_left (firstPass namespace appName) tiers st) /\
  Locals.secretRefs (fold_left (firstPass namespace appName) (map (replace_pv f) tiers) st') =
    Locals.secretRefs (fold_left (firstPass namespace appName) tiers st) /\
  Locals.pvcRefs (fold_left (firstPass namespace appName) (map (replace_pv f) tiers) st') =
    Locals.pvcRefs (fold_left (firstPass namespace appName) tiers st).
Proof.
  revert st st'. induction tiers as [|tier tiers IH]; intros st st' Hc Hs Hp.
  - auto.
  - cbn [map fold_left].
    destruct (firstPass_refs_without_pv namespace appName f tier st st' Hc Hs Hp)
      as (Hc' & Hs' & Hp').
    now apply IH.
Qed.

Lemma with_pvs_tiers f payload :
  or_empty (Payload.tiers (with_pvs f payload)) =
  map (replace_pv f) (or_empty (Payload.tiers payload)).
Proof.
  unfold with_pvs. cbn [Payload.tiers].
  now destruct (Payload.tiers payload).
Qed.

Lemma afterFirstPass_refs_without_pv f payload :
  Locals.cmRefs (afterFirstPass (with_pvs f payload)) =
    Locals.cmRefs (afterFirstPass payload) /\
  Locals.secretRefs (afterFirstPass (with_pvs f payload)) =
    Locals.secretRefs (afterFirstPass payload) /\
  Locals.pvcRefs (afterFirstPass (with_pvs f payload)) =
    Locals.pvcRefs (afterFirstPass payload).
Proof.
  unfold afterFirstPass. rewrite with_pvs_tiers.
  apply firstPass_fold_refs_without_pv; reflexivity.
Qed.

Lemma pass2_without_pv namespace appName refs refs' f tiers :
  Locals.cmRefs refs' = Locals.cmRefs refs ->
  Locals.secretRefs refs' = Locals.secretRefs refs ->
  Locals.pvcRefs refs' = Locals.pvcRefs refs ->
  flat_map (pass2_writes namespace appName refs') (map (replace_pv f) tiers) =
  flat_map (pass2_writes namespace appName refs) tiers.
Proof.
  intros Hc Hs Hp. induction tiers as [|tier tiers IH]; [reflexivity|].
  cbn [map flat_map]. rewrite IH. f_equal.
  unfold pass2_writes, workload_writes, service_writes.
  rewrite Hc, Hs, Hp. reflexivity.
Qed.

Lemma collectRules_without_pv appName f tiers rulesByHost :
  collectRules appName rulesByHost (map (replace_pv f) tiers) =
  collectRules appName rulesByHost tiers.
Proof.
  revert rulesByHost. induction tiers as [|tier tiers IH]; intros acc;
    [reflexivity|].
  cbn [map collectRules].
  change (addRule appName acc (replace_pv f tier)) with (addRule appName acc tier).
  destruct (addRule appName acc tier); [apply IH | reflexivity].
Qed.

Lemma generateIngress_without_pv f payload :
  generateIngress (or_empty (Payload.tiers (with_pvs f payload)))
    (Payload.namespace (with_pvs f payload)) (Payload.appName (with_pvs f payload)) =
  generateIngress (or_empty (Payload.tiers payload))
    (Payload.namespace payload) (Payload.appName payload).
Proof.
  rewrite with_pvs_tiers. unfold generateIngress.
  now rewrite collectRules_without_pv.
Qed.

(** PV blocks bear on the [pv-*.yaml] entries alone. *)
Lemma pv_blocks_touch_pv_files_only f payload files files' k :
  compile payload = Returned files ->
  compile (with_pvs f payload) = Returned files' ->
  not_pv_file k ->
  get k files' = get k files.
Proof.
  intros Hc Hc' Hk.
  destruct (proj1 (compile_returns_iff payload) (ex_intro _ files Hc)) as [Hv Hi].
  destruct (compile_returns payload Hv Hi) as (ing & Hg & E).
  rewrite E in Hc. injection Hc as <-.
  assert (Hg' := generateIngress_without_pv f payload). rewrite Hg in Hg'.
  rewrite (compile_writes _ ing (with_pvs_validated f payload Hv) Hg') in Hc'.
  injection Hc' as <-.
  rewrite !get_assign. unfold writes. rewrite with_pvs_tiers.
  destruct (afterFirstPass_refs_without_pv f payload) as (Rc & Rs & Rp).
  rewrite (pass2_without_pv _ _ (afterFirstPass payload) _ f _ Rc Rs Rp).
  rewrite !last_value_app.
  change (Payload.namespace (with_pvs f payload)) with (Payload.namespace payload).
  change (Payload.appName (with_pvs f payload)) with (Payload.appName payload).
  rewrite (pass1_without_pv _ _ f _ k Hk).
  reflexivity.
Qed.

(** When the Ingress renderer returns: a request that passes validation
    (and whose Ingress renders) and
    holds a tier with an enabled [nfs] PV lacking [nfsServer] or [nfsPath]
    -- or, more generally, a PV block the dispatch turns down -- compiles:
    that tier yields no PV file, so any [pv-{name}.yaml] entry stems from
    another tier of the same name, and there is none when the name is
    unique. Whatever PV blocks the tiers carry instead, [compile] still
    returns, and with the same entries under every key that is not a PV
    file name. *)
Theorem pv_partial_success (payload : Payload.t) (tier : Tier.t) (pv : Pv.t) :
  validated payload ->
  ingress_renders (or_empty (Payload.tiers payload)) = true ->
  In tier (or_empty (Payload.tiers payload)) ->
  Tier.pv tier = Some pv ->
  truthy (Pv.enabled pv) = true ->
  (is_str (Pv.type pv) "nfs" = true /\
   (truthy (Pv.nfsServer pv) = false \/ truthy (Pv.nfsPath pv) = false))
  \/ pv_rejected pv = true ->
  generatePV tier (Payload.appName payload) = None /\
  (exists files,
     compile payload = Returned files /\
     (forall doc,
        get ("pv-" ++ tier_key tier ++ ".yaml") files = Some doc ->
        exists other file,
          In other (or_empty (Payload.tiers payload)) /\
          other <> tier /\ tier_key other = tier_key tier /\
          generatePV other (Payload.appName payload) = Some file /\
          doc = PvFile.content file) /\
     ((forall other, In other (or_empty (Payload.tiers payload)) ->
                     tier_key other = tier_key tier -> other = tier) ->
      get ("pv-" ++ tier_key tier ++ ".yaml") files = None) /\
     (forall f, exists files',
        compile (with_pvs f payload) = Returned files' /\
        forall k, not_pv_file k -> get k files' = get k files)).
Proof.
  intros Hv Hi Hin Hpv Hen Hbad.
  assert (Hrej : pv_rejected pv = true).
  { destruct Hbad as [[Hnfs Hmiss]|H]; [|exact H].
    unfold pv_rejected, required_fields, recognized_types. cbv zeta.
    destruct (Pv.type pv) as [| |b|z|s]; try discriminate Hnfs.
    cbn [is_str] in Hnfs. apply String.eqb_eq in Hnfs. subst s.
    cbn [existsb is_str String.eqb Ascii.eqb Bool.eqb orb negb].
    destruct Hmiss as [-> | ->]; cbn [negb orb]; [reflexivity|].
    apply orb_true_r. }
  assert (Hnone : generatePV tier (Payload.appName payload) = None).
  { apply generatePV_none_iff. rewrite Hpv. now repeat right. }
  split; [exact Hnone|].
  destruct (compile_returns payload Hv Hi) as (ing & Hg & Hc).
  exists (assign [] (writes payload ing)). split; [exact Hc|].
  split; [|split].
  - intros doc H. apply get_in, in_assign in H as [H|[]].
    apply in_writes, emitted_pv_key in H
      as (other & file & Ho & Hk & _ & Hf & Hd).
    exists other, file. repeat split; auto. intros ->. congruence.
  - intros Huniq.
    destruct (get ("pv-" ++ tier_key tier ++ ".yaml")
                (assign [] (writes payload ing))) as [doc|] eqn:E; [|reflexivity].
    apply get_in, in_assign in E as [E|[]].
    apply in_writes, emitted_pv_key in E
      as (other & file & Ho & Hk & _ & Hf & Hd).
    apply Huniq in Hk; [|exact Ho]. subst other. congruence.
  - intros f.
    destruct (proj2 (compile_returns_iff (with_pvs f payload))) as [files' Hc'].
    { split; [now apply with_pvs_validated|].
      now rewrite with_pvs_ingress_renders. }
    exists files'. split; [exact Hc'|]. intros k Hk.
    now apply (pv_blocks_touch_pv_files_only f payload).
Qed.

Lemma pv_partial_success_witness :
  generatePV nfs_tier (Payload.appName nfs_request) = None /\
  (exists files,
     compile nfs_request = Returned files /\
     (forall doc,
        get ("pv-" ++ tier_key nfs_tier ++ ".yaml") files = Some doc ->
        exists other file,
          In other (or_empty (Payload.tiers nfs_request)) /\
          other <> nfs_tier /\ tier_key other = tier_key nfs_tier /\
          generatePV other (Payload.appName nfs_request) = Some file /\
          doc = PvFile.content file) /\
     ((forall other, In other (or_empty (Payload.tiers nfs_request)) ->
                     tier_key other = tier_key nfs_tier -> other = nfs_tier) ->
      get ("pv-" ++ tier_key nfs_tier ++ ".yaml") files = None) /\
     (forall f, exists files',
        compile (with_pvs f nfs_request) = Returned files' /\
        forall k, not_pv_file k -> get k files' = get k files)).
Proof.
  apply (pv_partial_success nfs_request nfs_tier nfs_without_server);
    try reflexivity.
  - left. reflexivity.
  - left. split; [reflexivity | left; reflexivity].
Defined.

(** ** The iSCSI backend *)

(** What the dispatch does for an enabled [iscsi] block: a file exactly
    when the three required fields are truthy, with [fsType] defaulting to
    [ext4]. *)
Lemma generatePV_iscsi tier appName pv :
  Tier.pv tier = Some pv ->
  truthy (Pv.enabled pv) = true ->
  Pv.type pv = Str "iscsi" ->
  (generatePV tier appName <> None <->
   truthy (Pv.iscsiTargetPortal pv) = true /\
   truthy (Pv.iscsiIqn pv) = true /\
   truthy (Pv.iscsiLun pv) = true) /\
  (forall file,
     generatePV tier appName = Some file ->
     PvFile.filename file = "pv-" ++ tier_key tier ++ ".yaml" /\
     (truthy (Pv.iscsiFsType pv) = false ->
      endsWith ("    fsType: ext4" ++ LF) (PvFile.content file))).
Proof.
  intros Hpv Hen Hty. split.
  - rewrite generatePV_none_iff, Hpv, Hen, Hty.
    unfold pv_rejected, required_fields, recognized_types. rewrite Hty.
    cbn [is_str truthy existsb String.eqb Ascii.eqb Bool.eqb orb negb andb].
    destruct (truthy (Pv.iscsiTargetPortal pv)), (truthy (Pv.iscsiIqn pv)),
      (truthy (Pv.iscsiLun pv)); cbn [negb orb]; intuition congruence.
  - intros file H. split; [now apply (generatePV_some tier appName)|].
    intros Hfs. revert H. unfold generatePV, volumeSource. rewrite Hpv, Hen, Hty.
    cbv zeta. cbn [is_str truthy String.eqb Ascii.eqb Bool.eqb orb negb andb].
    destruct (_ || _ || _); [discriminate|].
    unfold or_else. rewrite Hfs. intros H.
    match type of H with Some (PvFile.mk _ ?c) = _ =>
      assert (Hc : endsWith ("    fsType: ext4" ++ LF) c) by find_at_end;
      set (content := c) in *; clearbody content
    end.
    now injection H as <-.
Qed.

(** C7. The claim does not hold of the code: with [iscsiTargetPortal],
    [iscsiIqn] and [iscsiLun] all present and [iscsiLun] the number 0, the
    dispatch takes the LUN for missing, [generatePV] returns [null] and the
    output has no [pv-db.yaml]. *)
Theorem iscsi_lun_zero_omitted :
  Pv.iscsiTargetPortal iscsi_lun0 = Str "10.0.0.5:3260" /\
  Pv.iscsiIqn iscsi_lun0 = Str "iqn.2001-04.com.example:storage.disk1" /\
  Pv.iscsiLun iscsi_lun0 = Num 0 /\
  generatePV iscsi_tier (Payload.appName iscsi_request) = None /\
  exists files,
    compile iscsi_request = Returned files /\
    keys files = ["deployment-db.yaml"] /\
    get "pv-db.yaml" files = None.
Proof.
  repeat split; try reflexivity.
  eexists. split; [vm_compute; reflexivity|]. split; reflexivity.
Qed.

(** ** Names held by the reference tables *)

Section ReferenceNames.

Context {A : Type}.
Variables (name_of : A -> string) (expected : string -> string).
Variable fields : list string.

Lemma well_named_empty : well_named name_of expected Refs.empty.
Proof. split; [intros k a H | intros a H]; discriminate H. Qed.

Lemma well_named_set k a o :
  name_of a = expected k ->
  well_named name_of expected o ->
  well_named name_of expected (Refs.set k a o).
Proof.
  intros Ha [Hown Hproto]. unfold Refs.set.
  destruct (String.eqb_spec k "__proto__") as [->|Hne]; split; cbn.
  - exact Hown.
  - now intros a' [= <-].
  - intros k' a'. rewrite get_set.
    destruct (String.eqb_spec k k') as [->|]; [now intros [= <-] | apply Hown].
  - exact Hproto.
Qed.

Lemma well_named_field k o :
  well_named name_of expected o ->
  Refs.field name_of (Refs.get fields k o) = "undefined" \/
  Refs.field name_of (Refs.get fields k o) = expected k.
Proof.
  intros [Hown Hproto]. unfold Refs.get.
  destruct (get k (Refs.own o)) as [a|] eqn:E; [right; now apply Hown|].
  destruct (String.eqb_spec k "__proto__") as [->|Hne].
  - destruct (Refs.proto o) as [a|] eqn:Ep; [right; now apply Hproto | now left].
  - destruct (match Refs.proto o with Some _ => _ | None => _ end); [now left|].
    destruct (inherited k); now left.
Qed.

End ReferenceNames.

Lemma firstPass_well_named namespace appName st tier :
  well_named CmRef.cmName (expected_cm appName) (Locals.cmRefs st) /\
  well_named SecretRef.secretName (expected_secret appName) (Locals.secretRefs st) ->
  well_named CmRef.cmName (expected_cm appName)
    (Locals.cmRefs (firstPass namespace appName st tier)) /\
  well_named SecretRef.secretName (expected_secret appName)
    (Locals.secretRefs (firstPass namespace appName st tier)).
Proof.
  intros [Hcm Hsec]. unfold firstPass.
  destruct (renderConfigMap tier namespace appName) as [cm|] eqn:Ecm;
    destruct (renderSecret tier namespace appName) as [secret|] eqn:Esec;
    destruct (pvc_enabled tier && deployment_like tier);
    destruct (generatePVC tier namespace appName) as [pvc|];
    destruct (pv_requested tier);
    destruct (generatePV tier appName) as [pv|];
    cbn [Locals.cmRefs Locals.secretRefs]; split;
    try assumption;
    try (apply well_named_set; [|assumption];
         first [ apply (renderConfigMap_some _ _ _ _ Ecm)
               | apply (renderSecret_some _ _ _ _ Esec) ]).
Qed.

Lemma afterFirstPass_well_named payload :
  well_named CmRef.cmName (expected_cm (Payload.appName payload))
    (Locals.cmRefs (afterFirstPass payload)) /\
  well_named SecretRef.secretName (expected_secret (Payload.appName payload))
    (Locals.secretRefs (afterFirstPass payload)).
Proof.
  unfold afterFirstPass.
  assert (H0 : well_named CmRef.cmName (expected_cm (Payload.appName payload))
                 (Locals.cmRefs (initialLocals payload)) /\
               well_named SecretRef.secretName
                 (expected_secret (Payload.appName payload))
                 (Locals.secretRefs (initialLocals payload))).
  { split; apply well_named_empty. }
  revert H0. generalize (initialLocals payload).
  induction (or_empty (Payload.tiers payload)) as [|tier tiers IH];
    intros st H; cbn [fold_left]; [exact H|].
  apply IH. now apply firstPass_well_named.
Qed.

(** ** StatefulSets and their storage *)




Lemma includes_join (x sep : string) (l : list string) :
  In x l -> includes x (join sep l).
Proof.
  induction l as [|y l IH]; intros []; subst.
  - destruct l; [apply includes_refl | apply includes_head].
  - destruct l as [|z l]; [easy|].
    change (join sep (y :: z :: l)) with (y ++ sep ++ join sep (z :: l)).
    do 2 apply includes_app_r. now apply IH.
Qed.









(** ** Namespace and labels *)

Section Metadata.

Variables (tier : Tier.t) (namespace appName : value).

Lemma generateDeployment_metadata cmRef secretRef pvcRef :
  includes (namespace_line namespace)
    (generateDeployment tier namespace appName cmRef secretRef pvcRef) /\
  includes (labels_block appName (tier_key tier))
    (generateDeployment tier namespace appName cmRef secretRef pvcRef).
Proof.
  unfold namespace_line, labels_block, tier_key, generateDeployment. cbv zeta.
  split; find_in_template.
Qed.

Lemma generateStatefulSet_metadata cmRef secretRef :
  includes (namespace_line namespace)
    (generateStatefulSet tier namespace appName cmRef secretRef) /\
  includes (labels_block appName (tier_key tier))
    (generateStatefulSet tier namespace appName cmRef secretRef).
Proof.
  unfold namespace_line, labels_block, tier_key, generateStatefulSet. cbv zeta.
  split; find_in_template.
Qed.

Lemma generateHeadlessService_metadata :
  includes (namespace_line namespace)
    (generateHeadlessService tier namespace appName) /\
  includes (labels_block appName (tier_key tier))
    (generateHeadlessService tier namespace appName).
Proof.
  unfold namespace_line, labels_block, tier_key, generateHeadlessService.
  cbv zeta. split; find_in_template.
Qed.

Lemma generateService_metadata doc :
  generateService tier namespace appName = Some doc ->
  includes (namespace_line namespace) doc /\
  includes (labels_block appName (tier_key tier)) doc.
Proof.
  unfold namespace_line, labels_block, tier_key, generateService.
  destruct (Tier.service tier) as [service|]; [|discriminate].
  cbv zeta. intros H.
  match type of H with Some ?d = _ =>
    assert (Hd : includes ("  namespace: " ++ toString namespace ++ LF) d /\
                 includes ("  labels:" ++ LF ++
                           "    app: " ++ toString appName ++ LF ++
                           "    tier: " ++ toString (Tier.name tier) ++ LF) d)
      by (split; find_in_template);
    set (content := d) in *; clearbody content
  end.
  now injection H as <-.
Qed.

End Metadata.

Lemma generateIngress_metadata tiers namespace appName doc :
  generateIngress tiers namespace appName = Returned (Some doc) ->
  includes (namespace_line namespace) doc /\
  includes ("  name: " ++ toString appName ++ "-ingress" ++ LF) doc.
Proof.
  unfold generateIngress.
  destruct (collectRules appName [] tiers) as [rules|]; [|discriminate].
  destruct (Object_keys rules); [discriminate|].
  intros [= <-]. unfold namespace_line, ingressYaml.
  split; find_in_template.
Qed.

(** C5 (amended). For a request that passes validation (and whose
    Ingress renders), every ConfigMap, Secret, PVC, Deployment,
    StatefulSet, Service, headless Service and Ingress document of the
    output holds the line [namespace: {namespace}]; the Deployment,
    StatefulSet, Service and headless Service documents also hold the
    labels [app: {appName}] and [tier: {name}]. *)
Theorem namespaced_documents_metadata (payload : Payload.t) :
  validated payload ->
  ingress_renders (or_empty (Payload.tiers payload)) = true ->
  exists files,
    compile payload = Returned files /\
    (forall n doc,
       get ("configmap-" ++ n ++ ".yaml") files = Some doc \/
       get ("secret-" ++ n ++ ".yaml") files = Some doc \/
       get ("pvc-" ++ n ++ ".yaml") files = Some doc ->
       includes (namespace_line (Payload.namespace payload)) doc) /\
    (forall n doc,
       get ("deployment-" ++ n ++ ".yaml") files = Some doc \/
       get ("statefulset-" ++ n ++ ".yaml") files = Some doc \/
       get ("service-" ++ n ++ ".yaml") files = Some doc \/
       get ("headless-service-" ++ n ++ ".yaml") files = Some doc ->
       includes (namespace_line (Payload.namespace payload)) doc /\
       includes (labels_block (Payload.appName payload) n) doc) /\
    (forall doc,
       get "ingress.yaml" files = Some doc ->
       includes (namespace_line (Payload.namespace payload)) doc).
Proof.
  intros Hv Hi. destruct (compile_returns payload Hv Hi) as (ing & Hg & Hc).
  exists (assign [] (writes payload ing)). split; [exact Hc|].
  assert (Hem : forall k doc,
    get k (assign [] (writes payload ing)) = Some doc ->
    emitted (Payload.namespace payload) (Payload.appName payload)
      (afterFirstPass payload) (or_empty (Payload.tiers payload)) ing k doc).
  { intros k doc H. apply get_in, in_assign in H as [H|[]]. now apply in_writes. }
  split; [|split].
  - intros n doc [H|[H|H]]; apply Hem in H.
    + apply emitted_configmap_key in H as (tier & cm & _ & _ & Hr & ->).
      apply (renderConfigMap_some _ _ _ _ Hr).
    + apply emitted_secret_key in H as (tier & s & _ & _ & Hr & ->).
      apply (renderSecret_some _ _ _ _ Hr).
    + apply emitted_pvc_key in H as (tier & p & _ & _ & _ & Hr & ->).
      apply (generatePVC_some _ _ _ _ Hr).
  - intros n doc [H|[H|[H|H]]]; apply Hem in H.
    + apply emitted_deployment_key in H as (tier & _ & <- & _ & ->).
      apply generateDeployment_metadata.
    + apply emitted_statefulset_key in H as (tier & _ & <- & _ & ->).
      apply generateStatefulSet_metadata.
    + apply emitted_service_key in H as (tier & _ & <- & Hs).
      now apply generateService_metadata.
    + apply emitted_headless_key in H as (tier & _ & <- & _ & ->).
      apply generateHeadlessService_metadata.
  - intros doc H. apply Hem, emitted_ingress_key in H. subst ing.
    apply (generateIngress_metadata _ _ _ _ Hg).
Qed.

Lemma namespaced_documents_metadata_witness :
  exists files,
    compile furnished_request = Returned files /\
    (forall n doc,
       get ("configmap-" ++ n ++ ".yaml") files = Some doc \/
       get ("secret-" ++ n ++ ".yaml") files = Some doc \/
       get ("pvc-" ++ n ++ ".yaml") files = Some doc ->
       includes (namespace_line (Payload.namespace furnished_request)) doc) /\
    (forall n doc,
       get ("deployment-" ++ n ++ ".yaml") files = Some doc \/
       get ("statefulset-" ++ n ++ ".yaml") files = Some doc \/
       get ("service-" ++ n ++ ".yaml") files = Some doc \/
       get ("headless-service-" ++ n ++ ".yaml") files = Some doc ->
       includes (namespace_line (Payload.namespace furnished_request)) doc /\
       includes (labels_block (Payload.appName furnished_request) n) doc) /\
    (forall doc,
       get "ingress.yaml" files = Some doc ->
       includes (namespace_line (Payload.namespace furnished_request)) doc).
Proof.
  apply (namespaced_documents_metadata furnished_request); reflexivity.
Defined.

(** C5 as stated fails: the ConfigMap, Secret, PVC and Ingress documents
    of this request hold the namespace line but no labels at all. *)
Lemma unlabelled_documents :
  exists files cm secret pvc ingress,
    compile furnished_request = Returned files /\
    get "configmap-api.yaml" files = Some cm /\
    get "secret-api.yaml" files = Some secret /\
    get "pvc-api.yaml" files = Some pvc /\
    get "ingress.yaml" files = Some ingress /\
    (~ includes "labels:" cm /\ ~ includes "app: web" cm /\
     ~ includes "tier: api" cm) /\
    (~ includes "labels:" secret /\ ~ includes "app: web" secret /\
     ~ includes "tier: api" secret) /\
    (~ includes "labels:" pvc /\ ~ includes "app: web" pvc /\
     ~ includes "tier: api" pvc) /\
    (~ includes "labels:" ingress /\ ~ includes "app: web" ingress /\
     ~ includes "tier: api" ingress).
Proof.
  eexists _, _, _, _, _. split; [vm_compute; reflexivity|].
  repeat (split; [reflexivity|]).
  repeat split; apply includesb_false; vm_compute; reflexivity.
Qed.

(** ** Ingress grouping *)

Lemma addRule_unrouted appName rulesByHost tier :
  routed tier = false -> addRule appName rulesByHost tier = Returned rulesByHost.
Proof.
  unfold routed, addRule.
  destruct (Tier.ingress tier), (Tier.service tier); (discriminate || reflexivity).
Qed.

Lemma collectRules_filter appName tiers rulesByHost :
  collectRules appName rulesByHost tiers =
  collectRules appName rulesByHost (filter routed tiers).
Proof.
  revert rulesByHost. induction tiers as [|tier tiers IH]; intros acc;
    [reflexivity|].
  cbn [filter]. destruct (routed tier) eqn:E.
  - cbn [collectRules]. destruct (addRule appName acc tier); [apply IH | reflexivity].
  - cbn [collectRules]. rewrite (addRule_unrouted _ _ _ E). apply IH.
Qed.

Lemma Object_keys_one {A} (h : string) (v : A) : Object_keys [(h, v)] = [h].
Proof.
  unfold Object_keys, keys, named_keys. cbn [map fst index_keys filter].
  destruct (array_index h); reflexivity.
Qed.

Lemma Object_keys_two {A} (h1 h2 : string) (v1 v2 : A) :
  Object_keys [(h1, v1); (h2, v2)] = [h1; h2] \/
  Object_keys [(h1, v1); (h2, v2)] = [h2; h1].
Proof.
  unfold Object_keys, keys, named_keys. cbn [map fst index_keys filter].
  destruct (array_index h1) as [n1|], (array_index h2) as [n2|];
    cbn [insert_index map snd app]; auto.
  destruct (n1 <=? n2)%N; cbn [map snd app]; auto.
Qed.

(** Two routed tiers on one host: one host block with both paths. *)
Lemma ingress_groups_same_host tiers namespace appName t1 i1 s1 t2 i2 s2 h :
  filter routed tiers = [t1; t2] ->
  Tier.ingress t1 = Some i1 -> Tier.service t1 = Some s1 ->
  Tier.ingress t2 = Some i2 -> Tier.service t2 = Some s2 ->
  toString (Ingress.host i1) = h -> toString (Ingress.host i2) = h ->
  inherited h = false ->
  let rules := [(h, [rule_of appName t1 i1 s1; rule_of appName t2 i2 s2])] in
  generateIngress tiers namespace appName =
    Returned (Some (ingressYaml namespace appName rules)) /\
  rulesYaml rules =
    "  - host: " ++ h ++ LF ++
    "    http:" ++ LF ++
    "      paths:" ++ LF ++
    pathYaml (rule_of appName t1 i1 s1) ++ LF ++
    pathYaml (rule_of appName t2 i2 s2).
Proof.
  intros Hf Hi1 Hs1 Hi2 Hs2 Hh1 Hh2 Hh rules. split.
  - unfold generateIngress. rewrite collectRules_filter, Hf.
    cbn [collectRules]. unfold addRule at 1. rewrite Hi1, Hs1, Hh1.
    cbn [get]. rewrite Hh. cbn [set].
    unfold addRule. rewrite Hi2, Hs2, Hh2. cbn [get].
    rewrite String.eqb_refl. cbn [set]. rewrite String.eqb_refl.
    cbn [app]. fold (rule_of appName t1 i1 s1) (rule_of appName t2 i2 s2).
    now rewrite Object_keys_one.
  - unfold rulesYaml, rules. rewrite Object_keys_one. cbn [map get join].
    rewrite String.eqb_refl. unfold hostYaml. cbn [map join].
    reflexivity.
Qed.

(** Two routed tiers on different hosts: two host blocks. *)
Lemma ingress_splits_distinct_hosts tiers namespace appName
    t1 i1 s1 t2 i2 s2 h1 h2 :
  filter routed tiers = [t1; t2] ->
  Tier.ingress t1 = Some i1 -> Tier.service t1 = Some s1 ->
  Tier.ingress t2 = Some i2 -> Tier.service t2 = Some s2 ->
  toString (Ingress.host i1) = h1 -> toString (Ingress.host i2) = h2 ->
  h1 <> h2 -> inherited h1 = false -> inherited h2 = false ->
  let rules := [(h1, [rule_of appName t1 i1 s1]); (h2, [rule_of appName t2 i2 s2])] in
  generateIngress tiers namespace appName =
    Returned (Some (ingressYaml namespace appName rules)) /\
  (rulesYaml rules =
     hostYaml h1 [rule_of appName t1 i1 s1] ++ LF ++
     hostYaml h2 [rule_of appName t2 i2 s2] \/
   rulesYaml rules =
     hostYaml h2 [rule_of appName t2 i2 s2] ++ LF ++
     hostYaml h1 [rule_of appName t1 i1 s1]).
Proof.
  intros Hf Hi1 Hs1 Hi2 Hs2 Hh1 Hh2 Hne Hin1 Hin2 rules.
  assert (E12 : (h1 =? h2) = false) by now apply String.eqb_neq.
  assert (E21 : (h2 =? h1) = false) by (apply String.eqb_neq; congruence).
  split.
  - unfold generateIngress. rewrite collectRules_filter, Hf.
    cbn [collectRules]. unfold addRule at 1. rewrite Hi1, Hs1, Hh1.
    cbn [get]. rewrite Hin1. cbn [set].
    unfold addRule. rewrite Hi2, Hs2, Hh2. cbn [get].
    rewrite E12, Hin2. cbn [set]. rewrite E12.
    fold (rule_of appName t1 i1 s1) (rule_of appName t2 i2 s2).
    destruct (Object_keys_two h1 h2 [rule_of appName t1 i1 s1]
                [rule_of appName t2 i2 s2]) as [-> | ->]; reflexivity.
  - unfold rulesYaml.
    destruct (Object_keys_two h1 h2 [rule_of appName t1 i1 s1]
                [rule_of appName t2 i2 s2]) as [E | E];
      fold rules in E; rewrite E; unfold rules; cbn [map get join];
      rewrite ?String.eqb_refl, ?E12, ?E21; auto.
Qed.

(** What the output holds under [ingress.yaml] is what the Ingress
    renderer returned. *)
Lemma get_ingress payload ingress :
  get "ingress.yaml" (assign [] (writes payload ingress)) = ingress.
Proof.
  rewrite get_assign. unfold writes.
  assert (Hrbac : last_value "ingress.yaml" (rbac_writes payload) = None).
  { unfold rbac_writes. now destruct (truthy (Payload.enableRBAC payload)). }
  assert (Hp2 : last_value "ingress.yaml"
                  (flat_map (pass2_writes (Payload.namespace payload)
                               (Payload.appName payload) (afterFirstPass payload))
                     (or_empty (Payload.tiers payload))) = None).
  { apply last_value_none. intros Hk.
    apply in_map_iff in Hk as ([k v] & Hk & Hkv). cbn [fst] in Hk. subst k.
    apply in_flat_map in Hkv as (tier & Hin & Hkv).
    apply (in_pass2_writes _ _ _ (or_empty (Payload.tiers payload)) None tier)
      in Hkv; [|exact Hin].
    apply emitted_ingress_key in Hkv. discriminate Hkv. }
  assert (Hp1 : last_value "ingress.yaml"
                  (flat_map (pass1_writes (Payload.namespace payload)
                               (Payload.appName payload))
                     (or_empty (Payload.tiers payload))) = None).
  { apply last_value_none. intros Hk.
    apply in_map_iff in Hk as ([k v] & Hk & Hkv). cbn [fst] in Hk. subst k.
    apply in_flat_map in Hkv as (tier & Hin & Hkv).
    apply (in_pass1_writes _ _ (afterFirstPass payload)
             (or_empty (Payload.tiers payload)) None tier) in Hkv; [|exact Hin].
    apply emitted_ingress_key in Hkv. discriminate Hkv. }
  rewrite !last_value_app, Hrbac, Hp2, Hp1.
  destruct ingress as [doc|]; [reflexivity|].
  cbn [ingress_writes last_value]. unfold namespace_writes.
  now destruct (truthy (Payload.createNamespace payload)).
Qed.

(** No tier with both blocks: no Ingress file. *)
Lemma ingress_absent_without_routes payload :
  validated payload ->
  (forall tier, In tier (or_empty (Payload.tiers payload)) -> routed tier = false) ->
  exists files, compile payload = Returned files /\ get "ingress.yaml" files = None.
Proof.
  intros Hv Hr.
  assert (Hg : generateIngress (or_empty (Payload.tiers payload))
                 (Payload.namespace payload) (Payload.appName payload)
               = Returned None).
  { unfold generateIngress. now rewrite collectRules_unrouted. }
  exists (assign [] (writes payload None)). split.
  - now apply compile_writes.
  - apply get_ingress.
Qed.

(** For hosts that [rulesByHost] does not inherit, the document the
    renderer returns is the one entry under [ingress.yaml]. *)
Lemma ingress_document_once payload doc :
  validated payload ->
  generateIngress (or_empty (Payload.tiers payload))
    (Payload.namespace payload) (Payload.appName payload) = Returned (Some doc) ->
  exists files,
    compile payload = Returned files /\
    get "ingress.yaml" files = Some doc /\
    count_occ string_dec (keys files) "ingress.yaml" = 1.
Proof.
  intros Hv Hg. exists (assign [] (writes payload (Some doc))).
  assert (Hc := compile_writes payload (Some doc) Hv Hg).
  split; [exact Hc|]. split; [apply get_ingress|].
  apply (present_once payload); [exact Hc|]. rewrite get_ingress. discriminate.
Qed.

(** A routed tier whose host [rulesByHost] inherits makes the whole call
    throw. *)
Lemma compile_throws_on_inherited_host payload :
  validated payload ->
  ingress_renders (or_empty (Payload.tiers payload)) = false ->
  compile payload = Threw TypeError.
Proof.
  intros Hv Hi. unfold compile, generateKubernetesManifests.
  rewrite Hv. cbv zeta. now rewrite generateIngress_throws.
Qed.

(** C4. The claim does not hold of the code: this request passes
    validation and its two tiers have both blocks and share a host, yet no
    Ingress document is produced; the host names a property inherited from
    [Object.prototype], [rulesByHost[host]] is that property and not an
    array, and the renderer, and with it [compile], throws a TypeError. *)
Theorem ingress_inherited_host_throws :
  validated shadowed_request /\
  filter routed (or_empty (Payload.tiers shadowed_request)) =
    or_empty (Payload.tiers shadowed_request) /\
  map host_of (or_empty (Payload.tiers shadowed_request)) =
    ["constructor"; "constructor"] /\
  generateIngress (or_empty (Payload.tiers shadowed_request))
    (Payload.namespace shadowed_request) (Payload.appName shadowed_request) =
    Threw TypeError /\
  compile shadowed_request = Threw TypeError /\
  forall files, compile shadowed_request <> Returned files.
Proof.
  repeat split; try reflexivity. intros files H. discriminate H.
Qed.

(** ** The same defect, met elsewhere *)

(** C6. The claim does not hold of the code: this request passes
    validation and holds a tier with an enabled [nfs] PV without
    [nfsServer], which [generatePV] turns down; yet [compile] does not
    succeed, it throws the TypeError of the Ingress renderer, because
    another tier is routed to a host that [rulesByHost] inherits. The PV
    block is not what fails: whatever PV blocks the tiers carry, the call
    throws the same, and the nfs tier alone compiles, to its Deployment
    without a PV file. *)
Theorem pv_request_fails_on_inherited_host :
  validated nfs_exposed_request /\
  In nfs_unserved_tier (or_empty (Payload.tiers nfs_exposed_request)) /\
  Tier.pv nfs_unserved_tier = Some nfs_unserved /\
  Pv.enabled nfs_unserved = Bool true /\
  Pv.type nfs_unserved = Str "nfs" /\
  Pv.nfsServer nfs_unserved = Undefined /\
  generatePV nfs_unserved_tier (Payload.appName nfs_exposed_request) = None /\
  compile nfs_exposed_request = Threw TypeError /\
  (forall files, compile nfs_exposed_request <> Returned files) /\
  (forall f, compile (with_pvs f nfs_exposed_request) = Threw TypeError) /\
  exists files,
    compile nfs_alone_request = Returned files /\
    keys files = ["deployment-db.yaml"].
Proof.
  split; [reflexivity|]. split; [now left|].
  do 6 (split; [reflexivity|]).
  split; [intros files H; discriminate H|]. split.
  - intros f. apply compile_throws_on_inherited_host.
    + now apply with_pvs_validated.
    + now rewrite with_pvs_ingress_renders.
  - eexists. split; reflexivity.
Qed.

(** C9. The claim does not hold of the code: this request passes
    validation and its tier [api] declares a [service] block, for which
    [generateService] has a document; yet no [service-api.yaml] is
    emitted, for [compile] throws the TypeError of the Ingress renderer
    (the tier's host is one that [rulesByHost] inherits) and returns no
    mapping. *)
Theorem service_block_without_service_file :
  validated shadowed_request /\
  In (shadowed_tier "api" "/") (or_empty (Payload.tiers shadowed_request)) /\
  tier_key (shadowed_tier "api" "/") = "api" /\
  Tier.service (shadowed_tier "api" "/") =
    Some (Service.mk (Str "ClusterIP") (Num 80) Undefined) /\
  generateService (shadowed_tier "api" "/") (Payload.namespace shadowed_request)
    (Payload.appName shadowed_request) <> None /\
  compile shadowed_request = Threw TypeError /\
  (forall files, compile shadowed_request <> Returned files).
Proof.
  split; [reflexivity|]. split; [now left|].
  do 2 (split; [reflexivity|]). split; [discriminate|].
  split; [reflexivity|]. intros files H. discriminate H.
Qed.

(** C10. The claim does not hold of the code: this request passes
    validation and holds two tiers named [api] of the default workload
    type; the second loop has overwritten the earlier Deployment with the
    later one, yet there is no output mapping with one
    [deployment-api.yaml], for [compile] then throws the TypeError of the
    Ingress renderer (a third tier is routed to a host that [rulesByHost]
    inherits). *)
Theorem duplicate_names_without_output :
  validated twins_exposed_request /\
  or_empty (Payload.tiers twins_exposed_request) =
    [twin_tier "nginx:1.26"; twin_tier "nginx:1.27"; shadowed_tier "web" "/"] /\
  tier_key (twin_tier "nginx:1.26") = "api" /\
  tier_key (twin_tier "nginx:1.27") = "api" /\
  Tier.workloadType (twin_tier "nginx:1.26") = Undefined /\
  Tier.workloadType (twin_tier "nginx:1.27") = Undefined /\
  compile twins_exposed_request = Threw TypeError /\
  (forall files, compile twins_exposed_request <> Returned files) /\
  exists doc,
    get "deployment-api.yaml" (afterSecondPass twins_exposed_request) = Some doc /\
    includes "image: nginx:1.27" doc.
Proof.
  do 7 (split; [reflexivity|]).
  split; [intros files H; discriminate H|].
  eexists. split; [reflexivity|]. apply includesb_true. reflexivity.
Qed.

(** * Further properties of the code *)

(** ** Outcomes and file names *)

Lemma compile_returned payload files :
  compile payload = Returned files ->
  exists ingress,
    validated payload /\
    generateIngress (or_empty (Payload.tiers payload))
      (Payload.namespace payload) (Payload.appName payload) = Returned ingress /\
    files = assign [] (writes payload ingress).
Proof.
  intros H.
  destruct (proj1 (compile_returns_iff payload) (ex_intro _ files H)) as [Hv Hi].
  destruct (compile_returns payload Hv Hi) as (ing & Hg & E).
  exists ing. repeat split; auto. congruence.
Qed.

Lemma file_emitted payload files k v :
  compile payload = Returned files ->
  get k files = Some v ->
  exists ingress,
    emitted (Payload.namespace payload) (Payload.appName payload)
      (afterFirstPass payload) (or_empty (Payload.tiers payload)) ingress k v /\
    generateIngress (or_empty (Payload.tiers payload))
      (Payload.namespace payload) (Payload.appName payload) = Returned ingress.
Proof.
  intros Hc Hg. destruct (compile_returned _ _ Hc) as (ing & Hv & Hi & ->).
  exists ing. split; [|exact Hi].
  apply get_in, in_assign in Hg as [Hg|[]]. now apply in_writes.
Qed.

Lemma file_present payload files ingress k :
  compile payload = Returned files ->
  generateIngress (or_empty (Payload.tiers payload))
      (Payload.namespace payload) (Payload.appName payload) = Returned ingress ->
  (exists v, In (k, v) (writes payload ingress)) ->
  get k files <> None.
Proof.
  intros Hc Hi [v Hin]. destruct (compile_returned _ _ Hc) as (ing & Hv & Hi' & ->).
  assert (ing = ingress) by congruence. subst ing.
  now apply (written_present _ _ _ v).
Qed.

Lemma in_writes_pass1 payload ingress tier k v :
  In tier (or_empty (Payload.tiers payload)) ->
  In (k, v) (pass1_writes (Payload.namespace payload) (Payload.appName payload) tier) ->
  In (k, v) (writes payload ingress).
Proof.
  intros Hin H. unfold writes. rewrite !in_app_iff.
  right. left. apply in_flat_map. eauto.
Qed.

Lemma ingress_renders_false tiers :
  ingress_renders tiers = false <->
  exists tier, In tier tiers /\ routed tier = true /\ inherited (host_of tier) = true.
Proof.
  unfold ingress_renders. induction tiers as [|t l IH]; cbn [forallb].
  - split; [discriminate | now intros (? & [] & _)].
  - rewrite andb_false_iff, IH. unfold ingress_throws. split.
    + intros [H|(tier & Hin & H)].
      * exists t. apply negb_false_iff, andb_true_iff in H. split; [now left|exact H].
      * exists tier. split; [now right|exact H].
    + intros (tier & [->|Hin] & Hr & Hh).
      * left. now rewrite Hr, Hh.
      * right. eauto.
Qed.

(** X1. A call of [compile] ends in exactly one of three ways. It throws
    the validation error (message [Validation failed], status 400, the
    list of failed checks) exactly when the request fails a check; it
    throws a TypeError exactly when the request passes the checks and some
    tier with both an [ingress] and a [service] block names a host that is
    a member of [Object.prototype]; it returns exactly when the request
    passes the checks and no tier does. It throws nothing else. (Requests
    are those of the embedding: the optional blocks of a tier are absent or
    of the shape the generator reads, not [null].) *)
Theorem compile_outcomes (payload : Payload.t) :
  (compile payload =
     Threw (Error "Validation failed" 400 (validation_errors payload)) <->
   ~ validated payload) /\
  (compile payload = Threw TypeError <->
   validated payload /\ inherited_host payload) /\
  ((exists files, compile payload = Returned files) <->
   validated payload /\ ~ inherited_host payload) /\
  (forall e, compile payload = Threw e ->
     e = Error "Validation failed" 400 (validation_errors payload) \/ e = TypeError).
Proof.
  unfold inherited_host.
  destruct (validation_errors payload) as [|m ms] eqn:Ev.
  - assert (Hv : validated payload) by exact Ev.
    destruct (ingress_renders (or_empty (Payload.tiers payload))) eqn:Ei.
    + destruct (compile_returns payload Hv Ei) as (ing & _ & Hc).
      assert (Hn : ~ exists tier, In tier (or_empty (Payload.tiers payload)) /\
                routed tier = true /\ inherited (host_of tier) = true).
      { intros H. apply ingress_renders_false in H. congruence. }
      rewrite Hc. split; [|split; [|split]].
      * split; [discriminate | intros H; contradiction].
      * split; [discriminate | intros [_ H]; contradiction].
      * split; [intros _; split; assumption | intros _; eauto].
      * intros e; discriminate.
    + assert (Hc := compile_throws_on_inherited_host payload Hv Ei).
      apply ingress_renders_false in Ei.
      rewrite Hc. split; [|split; [|split]].
      * split; [discriminate | intros H; contradiction].
      * split; [intros _; split; assumption | reflexivity].
      * split; [intros [? ?]; discriminate | intros [_ H]; contradiction].
      * intros e [= <-]. now right.
  - assert (Hv : ~ validated payload) by (unfold validated; congruence).
    assert (Hc : compile payload = Threw (Error "Validation failed" 400 (m :: ms))).
    { unfold compile, generateKubernetesManifests. now rewrite Ev. }
    rewrite Hc. split; [|split; [|split]].
    * split; [intros _; exact Hv | reflexivity].
    * split; [discriminate | intros [H _]; contradiction].
    * split; [intros [? ?]; discriminate | intros [H _]; contradiction].
    * intros e [= <-]. now left.
Qed.

(** X2. The output object has no two entries of one name, and every
    name in it is [namespace.yaml], [ingress.yaml], one of the three RBAC
    names, or one of the eight per-tier prefixes followed by the name of a
    tier of the request and [.yaml]. *)
Theorem output_file_names (payload : Payload.t) (files : props string) :
  compile payload = Returned files ->
  NoDup (keys files) /\
  forall k, In k (keys files) ->
    In k fixed_files \/
    exists kind tier,
      In kind tier_file_kinds /\
      In tier (or_empty (Payload.tiers payload)) /\
      k = kind ++ tier_key tier ++ ".yaml".
Proof.
  intros Hc. split; [now apply (compile_NoDup payload)|].
  intros k Hk.
  destruct (get k files) as [v|] eqn:Eg;
    [|apply get_none_keys in Eg; contradiction].
  destruct (file_emitted _ _ _ _ Hc Eg) as (ing & He & _).
  unfold fixed_files, tier_file_kinds.
  destruct He.
  - left. cbn. tauto.
  - right. exists "configmap-", tier. cbn. tauto.
  - right. exists "secret-", tier. cbn. tauto.
  - right. exists "pvc-", tier. cbn. tauto.
  - right. exists "pv-", tier. cbn. tauto.
  - right. exists "headless-service-", tier. cbn. tauto.
  - right. exists "statefulset-", tier. cbn. tauto.
  - right. exists "deployment-", tier. cbn. tauto.
  - right. exists "service-", tier. cbn. tauto.
  - left. cbn. tauto.
  - left. destruct H as [H|[H|[H|[]]]]; injection H as <- _; cbn; tauto.
Qed.

Lemma output_file_names_witness :
  NoDup (keys (files_of (compile scenario))) /\
  forall k, In k (keys (files_of (compile scenario))) ->
    In k fixed_files \/
    exists kind tier,
      In kind tier_file_kinds /\
      In tier (or_empty (Payload.tiers scenario)) /\
      k = kind ++ tier_key tier ++ ".yaml".
Proof. apply (output_file_names scenario). reflexivity. Defined.

Lemma is_statefulset_iff tier :
  is_statefulset tier = true <-> Tier.workloadType tier = Str "StatefulSet".
Proof.
  unfold is_statefulset, or_else, is_str.
  destruct (Tier.workloadType tier) as [| |b|z|s]; cbn; try (split; [discriminate|discriminate]).
  - destruct b; cbn; split; discriminate.
  - destruct (z =? 0)%Z; cbn; split; discriminate.
  - destruct (s =? EmptyString) eqn:E; cbn.
    + apply String.eqb_eq in E. subst. cbn. split; discriminate.
    + split.
      * intros H. apply String.eqb_eq in H. now subst.
      * intros [= ->]. reflexivity.
Qed.

(** X3. Which workload files a returned output holds under a tier name:
    [statefulset-{n}.yaml] exactly when some tier named [n] has
    [workloadType] equal to the string [StatefulSet], and then together
    with [headless-service-{n}.yaml]; [deployment-{n}.yaml] exactly when
    some tier named [n] has any other [workloadType] (absent, empty, or a
    value the generator does not know). Every tier name has at least one of
    the two. *)
Theorem workload_file_per_tier
    (payload : Payload.t) (files : props string) (n : string) :
  compile payload = Returned files ->
  (get ("statefulset-" ++ n ++ ".yaml") files <> None <->
   exists tier, In tier (or_empty (Payload.tiers payload)) /\
     tier_key tier = n /\ Tier.workloadType tier = Str "StatefulSet") /\
  (get ("headless-service-" ++ n ++ ".yaml") files <> None <->
   get ("statefulset-" ++ n ++ ".yaml") files <> None) /\
  (get ("deployment-" ++ n ++ ".yaml") files <> None <->
   exists tier, In tier (or_empty (Payload.tiers payload)) /\
     tier_key tier = n /\ Tier.workloadType tier <> Str "StatefulSet") /\
  ((exists tier, In tier (or_empty (Payload.tiers payload)) /\ tier_key tier = n) ->
   get ("statefulset-" ++ n ++ ".yaml") files <> None \/
   get ("deployment-" ++ n ++ ".yaml") files <> None).
Proof.
  intros Hc. destruct (compile_returned _ _ Hc) as (ing & Hv & Hi & E).
  set (ns := Payload.namespace payload) in *.
  set (app := Payload.appName payload) in *.
  assert (Hss : get ("statefulset-" ++ n ++ ".yaml") files <> None <->
     exists tier, In tier (or_empty (Payload.tiers payload)) /\
       tier_key tier = n /\ Tier.workloadType tier = Str "StatefulSet").
  { split.
    - intros H. destruct (get ("statefulset-" ++ n ++ ".yaml") files) as [v|] eqn:Eg; [|now elim H].
      destruct (file_emitted _ _ _ _ Hc Eg) as (ing' & He & _).
      apply emitted_statefulset_key in He as (tier & Hin & Hk & Hs & _).
      exists tier. repeat split; auto. now apply is_statefulset_iff.
    - intros (tier & Hin & Hk & Hw). apply is_statefulset_iff in Hw.
      apply (file_present _ _ ing _ Hc Hi). eexists.
      apply (in_writes_pass2 _ _ tier); [exact Hin|].
      unfold pass2_writes, workload_writes. rewrite in_app_iff. left.
      rewrite Hw, Hk. right. left. reflexivity. }
  assert (Hhl : get ("headless-service-" ++ n ++ ".yaml") files <> None <->
     exists tier, In tier (or_empty (Payload.tiers payload)) /\
       tier_key tier = n /\ Tier.workloadType tier = Str "StatefulSet").
  { split.
    - intros H. destruct (get ("headless-service-" ++ n ++ ".yaml") files) as [v|] eqn:Eg; [|now elim H].
      destruct (file_emitted _ _ _ _ Hc Eg) as (ing' & He & _).
      apply emitted_headless_key in He as (tier & Hin & Hk & Hs & _).
      exists tier. repeat split; auto. now apply is_statefulset_iff.
    - intros (tier & Hin & Hk & Hw). apply is_statefulset_iff in Hw.
      apply (file_present _ _ ing _ Hc Hi). eexists.
      apply (in_writes_pass2 _ _ tier); [exact Hin|].
      unfold pass2_writes, workload_writes. rewrite in_app_iff. left.
      rewrite Hw, Hk. left. reflexivity. }
  assert (Hd : get ("deployment-" ++ n ++ ".yaml") files <> None <->
     exists tier, In tier (or_empty (Payload.tiers payload)) /\
       tier_key tier = n /\ Tier.workloadType tier <> Str "StatefulSet").
  { split.
    - intros H. destruct (get ("deployment-" ++ n ++ ".yaml") files) as [v|] eqn:Eg; [|now elim H].
      destruct (file_emitted _ _ _ _ Hc Eg) as (ing' & He & _).
      apply emitted_deployment_key in He as (tier & Hin & Hk & Hs & _).
      exists tier. repeat split; auto. intros Hw.
      apply is_statefulset_iff in Hw. congruence.
    - intros (tier & Hin & Hk & Hw).
      assert (Hs : is_statefulset tier = false).
      { destruct (is_statefulset tier) eqn:Es; [|reflexivity].
        apply is_statefulset_iff in Es. contradiction. }
      apply (file_present _ _ ing _ Hc Hi). eexists.
      apply (in_writes_pass2 _ _ tier); [exact Hin|].
      unfold pass2_writes, workload_writes. rewrite in_app_iff. left.
      rewrite Hs, Hk. left. reflexivity. }
  split; [exact Hss|]. split; [now rewrite Hhl, Hss|]. split; [exact Hd|].
  intros (tier & Hin & Hk).
  destruct (is_statefulset tier) eqn:Es.
  - left. apply Hss. exists tier. repeat split; auto. now apply is_statefulset_iff.
  - right. apply Hd. exists tier. repeat split; auto. intros Hw.
    apply is_statefulset_iff in Hw. congruence.
Qed.

Lemma workload_file_per_tier_witness :
  (get ("statefulset-" ++ "db" ++ ".yaml") (files_of (compile stateful_request)) <> None <->
   exists tier, In tier (or_empty (Payload.tiers stateful_request)) /\
     tier_key tier = "db" /\ Tier.workloadType tier = Str "StatefulSet") /\
  (get ("headless-service-" ++ "db" ++ ".yaml") (files_of (compile stateful_request)) <> None <->
   get ("statefulset-" ++ "db" ++ ".yaml") (files_of (compile stateful_request)) <> None) /\
  (get ("deployment-" ++ "db" ++ ".yaml") (files_of (compile stateful_request)) <> None <->
   exists tier, In tier (or_empty (Payload.tiers stateful_request)) /\
     tier_key tier = "db" /\ Tier.workloadType tier <> Str "StatefulSet") /\
  ((exists tier, In tier (or_empty (Payload.tiers stateful_request)) /\ tier_key tier = "db") ->
   get ("statefulset-" ++ "db" ++ ".yaml") (files_of (compile stateful_request)) <> None \/
   get ("deployment-" ++ "db" ++ ".yaml") (files_of (compile stateful_request)) <> None).
Proof. apply (workload_file_per_tier stateful_request). reflexivity. Defined.

(** ** Supporting files *)

Lemma pv_accepted_requested tier pv :
  Tier.pv tier = Some pv ->
  truthy (Pv.enabled pv) = true ->
  pv_rejected pv = false ->
  pv_requested tier = true.
Proof.
  intros Hp He Hr. unfold pv_requested. rewrite Hp, He.
  unfold pv_rejected in Hr. apply orb_false_iff in Hr as [Hr _].
  apply negb_false_iff in Hr. unfold recognized_types in Hr. cbn [existsb] in Hr.
  unfold is_str in *. destruct (Pv.type pv) as [| |b|z|s]; try discriminate Hr.
  cbn [truthy].
  repeat (apply orb_true_iff in Hr as [Hr|Hr];
          [apply String.eqb_eq in Hr; subst s; reflexivity|]).
  discriminate Hr.
Qed.

(** X4. Which supporting files a returned output holds under a tier name:
    a ConfigMap (Secret) exactly when some tier of the name has a non-empty
    [configMapData] ([secretData]); a PVC exactly when some tier of the
    name has [pvc.enabled] truthy and [workloadType] equal to [Deployment]
    or falsy; a PV exactly when some tier of the name has [pv.enabled]
    truthy, a recognized [pv.type] and every field its backend requires. *)
Theorem supporting_files_presence
    (payload : Payload.t) (files : props string) (n : string) :
  compile payload = Returned files ->
  (get ("configmap-" ++ n ++ ".yaml") files <> None <->
   exists tier, In tier (or_empty (Payload.tiers payload)) /\ tier_key tier = n /\
     or_empty (Tier.configMapData tier) <> []) /\
  (get ("secret-" ++ n ++ ".yaml") files <> None <->
   exists tier, In tier (or_empty (Payload.tiers payload)) /\ tier_key tier = n /\
     or_empty (Tier.secretData tier) <> []) /\
  (get ("pvc-" ++ n ++ ".yaml") files <> None <->
   exists tier pvc, In tier (or_empty (Payload.tiers payload)) /\ tier_key tier = n /\
     Tier.pvc tier = Some pvc /\ truthy (Pvc.enabled pvc) = true /\
     (Tier.workloadType tier = Str "Deployment" \/
      truthy (Tier.workloadType tier) = false)) /\
  (get ("pv-" ++ n ++ ".yaml") files <> None <->
   exists tier pv, In tier (or_empty (Payload.tiers payload)) /\ tier_key tier = n /\
     Tier.pv tier = Some pv /\ truthy (Pv.enabled pv) = true /\
     pv_rejected pv = false).
Proof.
  intros Hc. destruct (compile_returned _ _ Hc) as (ing & Hv & Hi & E).
  split; [|split; [|split]].
  - split.
    + intros H.
      destruct (get ("configmap-" ++ n ++ ".yaml") files) as [v|] eqn:Eg; [|now elim H].
      destruct (file_emitted _ _ _ _ Hc Eg) as (ing' & He & _).
      apply emitted_configmap_key in He as (tier & cm & Hin & Hk & Hr & _).
      exists tier. repeat split; auto. now apply renderConfigMap_some in Hr.
    + intros (tier & Hin & Hk & Hd).
      apply (file_present _ _ ing _ Hc Hi).
      destruct (renderConfigMap tier (Payload.namespace payload)
                  (Payload.appName payload)) as [cm|] eqn:Er.
      * exists (CmRef.content cm). apply (in_writes_pass1 _ _ tier); [exact Hin|].
        unfold pass1_writes. rewrite Er, in_app_iff. left.
        rewrite (proj1 (renderConfigMap_some _ _ _ _ Er)), Hk. now left.
      * unfold renderConfigMap in Er.
        destruct (or_empty (Tier.configMapData tier)); [now elim Hd | discriminate].
  - split.
    + intros H.
      destruct (get ("secret-" ++ n ++ ".yaml") files) as [v|] eqn:Eg; [|now elim H].
      destruct (file_emitted _ _ _ _ Hc Eg) as (ing' & He & _).
      apply emitted_secret_key in He as (tier & cm & Hin & Hk & Hr & _).
      exists tier. repeat split; auto. now apply renderSecret_some in Hr.
    + intros (tier & Hin & Hk & Hd).
      apply (file_present _ _ ing _ Hc Hi).
      destruct (renderSecret tier (Payload.namespace payload)
                  (Payload.appName payload)) as [cm|] eqn:Er.
      * exists (SecretRef.content cm). apply (in_writes_pass1 _ _ tier); [exact Hin|].
        unfold pass1_writes. rewrite Er, !in_app_iff. right. left.
        rewrite (proj1 (renderSecret_some _ _ _ _ Er)), Hk. now left.
      * unfold renderSecret in Er.
        destruct (or_empty (Tier.secretData tier)); [now elim Hd | discriminate].
  - split.
    + intros H.
      destruct (get ("pvc-" ++ n ++ ".yaml") files) as [v|] eqn:Eg; [|now elim H].
      destruct (file_emitted _ _ _ _ Hc Eg) as (ing' & He & _).
      apply emitted_pvc_key in He as (tier & pvc & Hin & Hk & Hw & Hr & _).
      apply andb_true_iff in Hw as [Hen Hdl].
      unfold pvc_enabled in Hen.
      destruct (Tier.pvc tier) as [p|] eqn:Ep; [|discriminate].
      exists tier, p. repeat split; auto.
      unfold deployment_like in Hdl. apply orb_true_iff in Hdl as [Hdl|Hdl].
      * left. unfold is_str in Hdl.
        destruct (Tier.workloadType tier); try discriminate.
        apply String.eqb_eq in Hdl. now subst.
      * right. now apply negb_true_iff in Hdl.
    + intros (tier & pvc & Hin & Hk & Hp & Hen & Hw).
      apply (file_present _ _ ing _ Hc Hi).
      assert (Hcond : pvc_enabled tier && deployment_like tier = true).
      { unfold pvc_enabled, deployment_like. rewrite Hp, Hen.
        destruct Hw as [-> | ->]; [reflexivity | now rewrite orb_true_r]. }
      destruct (generatePVC tier (Payload.namespace payload)
                  (Payload.appName payload)) as [r|] eqn:Er.
      * exists (PvcRef.content r). apply (in_writes_pass1 _ _ tier); [exact Hin|].
        unfold pass1_writes. rewrite Hcond, Er, !in_app_iff. right. right. left.
        rewrite (proj1 (generatePVC_some _ _ _ _ Er)), Hk. now left.
      * unfold generatePVC in Er. rewrite Hp, Hen in Er. discriminate.
  - split.
    + intros H.
      destruct (get ("pv-" ++ n ++ ".yaml") files) as [v|] eqn:Eg; [|now elim H].
      destruct (file_emitted _ _ _ _ Hc Eg) as (ing' & He & _).
      apply emitted_pv_key in He as (tier & pv & Hin & Hk & Hw & Hr & _).
      assert (Hnn : generatePV tier (Payload.appName payload) <> None) by congruence.
      rewrite generatePV_none_iff in Hnn.
      destruct (Tier.pv tier) as [p|] eqn:Ep; [|now elim Hnn].
      exists tier, p. repeat split; auto.
      * destruct (truthy (Pv.enabled p)); [reflexivity | elim Hnn; now left].
      * destruct (pv_rejected p); [elim Hnn; now right; right; right | reflexivity].
    + intros (tier & pv & Hin & Hk & Hp & Hen & Hrej).
      apply (file_present _ _ ing _ Hc Hi).
      assert (Hreq := pv_accepted_requested _ _ Hp Hen Hrej).
      destruct (generatePV tier (Payload.appName payload)) as [r|] eqn:Er.
      * exists (PvFile.content r). apply (in_writes_pass1 _ _ tier); [exact Hin|].
        unfold pass1_writes. rewrite Hreq, Er, !in_app_iff. right. right. right.
        rewrite (generatePV_some _ _ _ Er), Hk. now left.
      * apply generatePV_none_iff in Er. rewrite Hp in Er.
        unfold pv_requested in Hreq. rewrite Hp in Hreq.
        apply andb_true_iff in Hreq as [Hreq Hnone].
        apply andb_true_iff in Hreq as [_ Hty].
        apply negb_true_iff in Hnone.
        destruct Er as [Er|[Er|[Er|Er]]]; congruence.
Qed.

Lemma supporting_files_presence_witness :
  (get ("configmap-" ++ "api" ++ ".yaml") (files_of (compile furnished_request)) <> None <->
   exists tier, In tier (or_empty (Payload.tiers furnished_request)) /\ tier_key tier = "api" /\
     or_empty (Tier.configMapData tier) <> []) /\
  (get ("secret-" ++ "api" ++ ".yaml") (files_of (compile furnished_request)) <> None <->
   exists tier, In tier (or_empty (Payload.tiers furnished_request)) /\ tier_key tier = "api" /\
     or_empty (Tier.secretData tier) <> []) /\
  (get ("pvc-" ++ "api" ++ ".yaml") (files_of (compile furnished_request)) <> None <->
   exists tier pvc, In tier (or_empty (Payload.tiers furnished_request)) /\ tier_key tier = "api" /\
     Tier.pvc tier = Some pvc /\ truthy (Pvc.enabled pvc) = true /\
     (Tier.workloadType tier = Str "Deployment" \/
      truthy (Tier.workloadType tier) = false)) /\
  (get ("pv-" ++ "api" ++ ".yaml") (files_of (compile furnished_request)) <> None <->
   exists tier pv, In tier (or_empty (Payload.tiers furnished_request)) /\ tier_key tier = "api" /\
     Tier.pv tier = Some pv /\ truthy (Pv.enabled pv) = true /\
     pv_rejected pv = false).
Proof. apply (supporting_files_presence furnished_request). reflexivity. Defined.

(** ** Namespace and RBAC switches *)

Lemma tier_writes_key namespace appName refs tier k v :
  In (k, v) (pass1_writes namespace appName tier) \/
  In (k, v) (pass2_writes namespace appName refs tier) ->
  exists kind, In kind tier_file_kinds /\ k = kind ++ tier_key tier ++ ".yaml".
Proof.
  unfold tier_file_kinds. intros [H|H].
  - unfold pass1_writes in H. rewrite !in_app_iff in H. destruct H as [H|[H|[H|H]]].
    + destruct (renderConfigMap tier namespace appName) as [cm|] eqn:E; [|easy].
      destruct H as [H|[]]. injection H as <- <-.
      rewrite (proj1 (renderConfigMap_some _ _ _ _ E)).
      exists "configmap-". cbn [In]. tauto.
    + destruct (renderSecret tier namespace appName) as [s|] eqn:E; [|easy].
      destruct H as [H|[]]. injection H as <- <-.
      rewrite (proj1 (renderSecret_some _ _ _ _ E)).
      exists "secret-". cbn [In]. tauto.
    + destruct (pvc_enabled tier && deployment_like tier) eqn:Ec; [|easy].
      destruct (generatePVC tier namespace appName) as [pvc|] eqn:E; [|easy].
      destruct H as [H|[]]. injection H as <- <-.
      rewrite (proj1 (generatePVC_some _ _ _ _ E)).
      exists "pvc-". cbn [In]. tauto.
    + destruct (pv_requested tier) eqn:Ec; [|easy].
      destruct (generatePV tier appName) as [pv|] eqn:E; [|easy].
      destruct H as [H|[]]. injection H as <- <-.
      rewrite (generatePV_some _ _ _ E).
      exists "pv-". cbn [In]. tauto.
  - unfold pass2_writes, workload_writes, service_writes in H.
    rewrite in_app_iff in H. destruct H as [H|H].
    + destruct (is_statefulset tier) eqn:E.
      * destruct H as [H|[H|[]]]; injection H as <- <-.
        -- exists "headless-service-". cbn [In]. tauto.
        -- exists "statefulset-". cbn [In]. tauto.
      * destruct H as [H|[]]. injection H as <- <-.
        exists "deployment-". cbn [In]. tauto.
    + destruct (generateService tier namespace appName) as [doc|] eqn:E; [|easy].
      destruct H as [H|[]]. injection H as <- <-.
      exists "service-". cbn [In]. tauto.
Qed.

(** Where an assignment to the output object is made, with the switch
    that guards it. *)
Lemma writes_origin payload ingress k v :
  In (k, v) (writes payload ingress) ->
  (truthy (Payload.createNamespace payload) = true /\ k = "namespace.yaml" /\
   v = generateNamespace (Payload.namespace payload)) \/
  (exists kind tier, In kind tier_file_kinds /\
     In tier (or_empty (Payload.tiers payload)) /\
     k = kind ++ tier_key tier ++ ".yaml") \/
  (k = "ingress.yaml" /\ ingress = Some v) \/
  (truthy (Payload.enableRBAC payload) = true /\
   In (k, v) (generateRBAC (Payload.namespace payload) (Payload.appName payload))).
Proof.
  unfold writes. rewrite !in_app_iff. intros [H|[H|[H|[H|H]]]].
  - left. unfold namespace_writes in H.
    destruct (truthy (Payload.createNamespace payload)); [|easy].
    destruct H as [H|[]]. injection H as <- <-. auto.
  - right. left. apply in_flat_map in H as (tier & Hin & H).
    destruct (tier_writes_key _ _ (afterFirstPass payload) tier k v (or_introl H))
      as (kind & Hk & ->).
    eauto.
  - right. left. apply in_flat_map in H as (tier & Hin & H).
    destruct (tier_writes_key _ _ _ tier k v (or_intror H)) as (kind & Hk & ->).
    eauto.
  - right. right. left. unfold ingress_writes in H.
    destruct ingress as [doc|]; [|easy].
    destruct H as [H|[]]. injection H as <- <-. auto.
  - right. right. right. unfold rbac_writes in H.
    destruct (truthy (Payload.enableRBAC payload)); [auto|easy].
Qed.

Ltac kind_key Hk E :=
  unfold tier_file_kinds in Hk; cbn [In] in Hk;
  repeat (destruct Hk as [Hk|Hk]; [subst; discriminate E|]); exact Hk.

Lemma assign_keeps_head {A} (k : string) (v : A) ws : forall o,
  last_value k ws = None ->
  exists o', assign ((k, v) :: o) ws = (k, v) :: o'.
Proof.
  induction ws as [|[k1 v1] ws IH]; intros o H.
  - now exists o.
  - cbn [last_value] in H.
    destruct (last_value k ws) eqn:El; [discriminate|].
    destruct (k1 =? k) eqn:Ek; [discriminate|].
    unfold assign. cbn [fold_left fst snd set].
    rewrite String.eqb_sym, Ek. now apply IH.
Qed.

Lemma last_value_written {A} (k : string) (v : A) ws :
  last_value k ws = Some v -> In (k, v) ws.
Proof.
  induction ws as [|[k1 v1] ws IH]; [discriminate|].
  cbn [last_value]. destruct (last_value k ws) eqn:E.
  - intros H. right. apply IH. exact H.
  - destruct (k1 =? k) eqn:Ek; [|discriminate].
    apply String.eqb_eq in Ek. intros [= <-]. left. now subst.
Qed.

(** X5. With [createNamespace] truthy, the first entry of the output
    object is [namespace.yaml] with the Namespace document of the request's
    namespace; with [createNamespace] falsy, there is no such entry. *)
Theorem namespace_file_toggle (payload : Payload.t) (files : props string) :
  compile payload = Returned files ->
  (truthy (Payload.createNamespace payload) = true ->
   exists rest,
     files = ("namespace.yaml", generateNamespace (Payload.namespace payload)) :: rest) /\
  (truthy (Payload.createNamespace payload) = false ->
   get "namespace.yaml" files = None).
Proof.
  intros Hc. destruct (compile_returned _ _ Hc) as (ing & Hv & Hi & ->).
  set (rest :=
    (flat_map (pass1_writes (Payload.namespace payload) (Payload.appName payload))
       (or_empty (Payload.tiers payload))
     ++ flat_map (pass2_writes (Payload.namespace payload) (Payload.appName payload)
                    (afterFirstPass payload))
          (or_empty (Payload.tiers payload))
     ++ ingress_writes ing ++ rbac_writes payload)%list).
  assert (Hw : writes payload ing = (namespace_writes payload ++ rest)%list)
    by reflexivity.
  assert (Hrest : last_value "namespace.yaml" rest = None).
  { destruct (last_value "namespace.yaml" rest) as [v|] eqn:El; [|reflexivity].
    exfalso. apply last_value_written in El. unfold rest in El.
    rewrite !in_app_iff in El. destruct El as [H|[H|[H|H]]].
    - apply in_flat_map in H as (tier & _ & H).
      destruct (tier_writes_key _ _ (afterFirstPass payload) tier _ _ (or_introl H))
        as (kind & Hk & E). kind_key Hk E.
    - apply in_flat_map in H as (tier & _ & H).
      destruct (tier_writes_key _ _ _ tier _ _ (or_intror H)) as (kind & Hk & E).
      kind_key Hk E.
    - unfold ingress_writes in H. destruct ing; [|easy].
      destruct H as [H|[]]; discriminate H.
    - unfold rbac_writes in H. destruct (truthy (Payload.enableRBAC payload)); [|easy].
      destruct H as [H|[H|[H|[]]]]; discriminate H. }
  rewrite Hw. unfold namespace_writes. split; intros Ht; rewrite Ht.
  - cbn [app]. unfold assign at 1. cbn [fold_left fst snd set].
    apply (assign_keeps_head _ _ _ [] Hrest).
  - cbn [app]. now rewrite get_assign, Hrest.
Qed.

Lemma namespace_file_toggle_witness :
  (truthy (Payload.createNamespace scenario) = true ->
   exists rest,
     files_of (compile scenario) =
     ("namespace.yaml", generateNamespace (Payload.namespace scenario)) :: rest) /\
  (truthy (Payload.createNamespace scenario) = false ->
   get "namespace.yaml" (files_of (compile scenario)) = None).
Proof. apply (namespace_file_toggle scenario). reflexivity. Defined.

Lemma rbac_absent payload ingress k :
  truthy (Payload.enableRBAC payload) = false ->
  In k ["serviceaccount.yaml"; "role.yaml"; "rolebinding.yaml"] ->
  get k (assign [] (writes payload ingress)) = None.
Proof.
  intros Ht Hk. rewrite get_assign.
  destruct (last_value k (writes payload ingress)) as [v|] eqn:El; [|reflexivity].
  exfalso. apply last_value_written, writes_origin in El.
  destruct El as [(_ & E & _)|[(kind & tier & Hkind & _ & E)|[[E _]|[Hr _]]]].
  - destruct Hk as [<-|[<-|[<-|[]]]]; discriminate E.
  - destruct Hk as [<-|[<-|[<-|[]]]]; kind_key Hkind E.
  - destruct Hk as [<-|[<-|[<-|[]]]]; discriminate E.
  - congruence.
Qed.

Lemma rbac_last payload ingress k v :
  truthy (Payload.enableRBAC payload) = true ->
  last_value k (generateRBAC (Payload.namespace payload) (Payload.appName payload))
    = Some v ->
  get k (assign [] (writes payload ingress)) = Some v.
Proof.
  intros Ht Hl. rewrite get_assign. unfold writes.
  rewrite !last_value_app. unfold rbac_writes. rewrite Ht. now rewrite Hl.
Qed.

(** X6. The three RBAC files come together or not at all. With
    [enableRBAC] falsy none of them is in the output. With [enableRBAC]
    truthy all three are, and the RoleBinding names, as its subject and
    its [roleRef], the ServiceAccount [{appName}-sa] and the Role
    [{appName}-role] that the other two documents declare, in the
    request's namespace. *)
Theorem rbac_files_bound_together (payload : Payload.t) (files : props string) :
  compile payload = Returned files ->
  (truthy (Payload.enableRBAC payload) = false ->
   get "serviceaccount.yaml" files = None /\
   get "role.yaml" files = None /\
   get "rolebinding.yaml" files = None) /\
  (truthy (Payload.enableRBAC payload) = true ->
   exists serviceAccount role roleBinding,
     get "serviceaccount.yaml" files = Some serviceAccount /\
     get "role.yaml" files = Some role /\
     get "rolebinding.yaml" files = Some roleBinding /\
     includes ("kind: ServiceAccount" ++ LF ++ "metadata:" ++ LF ++
               "  name: " ++ toString (Payload.appName payload) ++ "-sa" ++ LF ++
               "  namespace: " ++ toString (Payload.namespace payload) ++ LF)
       serviceAccount /\
     includes ("kind: Role" ++ LF ++ "metadata:" ++ LF ++
               "  name: " ++ toString (Payload.appName payload) ++ "-role" ++ LF ++
               "  namespace: " ++ toString (Payload.namespace payload) ++ LF)
       role /\
     includes ("subjects:" ++ LF ++ "  - kind: ServiceAccount" ++ LF ++
               "    name: " ++ toString (Payload.appName payload) ++ "-sa" ++ LF ++
               "    namespace: " ++ toString (Payload.namespace payload) ++ LF)
       roleBinding /\
     includes ("roleRef:" ++ LF ++ "  kind: Role" ++ LF ++
               "  name: " ++ toString (Payload.appName payload) ++ "-role" ++ LF)
       roleBinding).
Proof.
  intros Hc. destruct (compile_returned _ _ Hc) as (ing & Hv & Hi & ->).
  split; intros Ht.
  - repeat split; apply rbac_absent; cbn [In]; auto.
  - do 3 eexists.
    split; [apply (rbac_last _ _ _ _ Ht); reflexivity|].
    split; [apply (rbac_last _ _ _ _ Ht); reflexivity|].
    split; [apply (rbac_last _ _ _ _ Ht); reflexivity|].
    repeat split; find_in_template.
Qed.

Lemma rbac_files_bound_together_witness :
  (truthy (Payload.enableRBAC governed_request) = false ->
   get "serviceaccount.yaml" (files_of (compile governed_request)) = None /\
   get "role.yaml" (files_of (compile governed_request)) = None /\
   get "rolebinding.yaml" (files_of (compile governed_request)) = None) /\
  (truthy (Payload.enableRBAC governed_request) = true ->
   exists serviceAccount role roleBinding,
     get "serviceaccount.yaml" (files_of (compile governed_request)) = Some serviceAccount /\
     get "role.yaml" (files_of (compile governed_request)) = Some role /\
     get "rolebinding.yaml" (files_of (compile governed_request)) = Some roleBinding /\
     includes ("kind: ServiceAccount" ++ LF ++ "metadata:" ++ LF ++
               "  name: " ++ toString (Payload.appName governed_request) ++ "-sa" ++ LF ++
               "  namespace: " ++ toString (Payload.namespace governed_request) ++ LF)
       serviceAccount /\
     includes ("kind: Role" ++ LF ++ "metadata:" ++ LF ++
               "  name: " ++ toString (Payload.appName governed_request) ++ "-role" ++ LF ++
               "  namespace: " ++ toString (Payload.namespace governed_request) ++ LF)
       role /\
     includes ("subjects:" ++ LF ++ "  - kind: ServiceAccount" ++ LF ++
               "    name: " ++ toString (Payload.appName governed_request) ++ "-sa" ++ LF ++
               "    namespace: " ++ toString (Payload.namespace governed_request) ++ LF)
       roleBinding /\
     includes ("roleRef:" ++ LF ++ "  kind: Role" ++ LF ++
               "  name: " ++ toString (Payload.appName governed_request) ++ "-role" ++ LF)
       roleBinding).
Proof. apply (rbac_files_bound_together governed_request). reflexivity. Defined.

(** ** What the second pass reads *)

Section Replay.

Context {A : Type}.

Lemma replay_own (sets : list (string * A)) : forall o k,
  k <> "__proto__" ->
  get k (Refs.own (replay sets o)) =
  match last_value k sets with
  | Some a => Some a
  | None => get k (Refs.own o)
  end.
Proof.
  induction sets as [|[k1 a1] sets IH]; intros o k Hk; [reflexivity|].
  cbn [replay fold_left fst snd]. fold (replay sets (Refs.set k1 a1 o)).
  rewrite (IH _ _ Hk). cbn [last_value].
  destruct (last_value k sets); [reflexivity|].
  unfold Refs.set. destruct (k1 =? "__proto__") eqn:E1; cbn [Refs.own].
  - apply String.eqb_eq in E1. subst k1.
    destruct ("__proto__" =? k) eqn:E2; [|reflexivity].
    apply String.eqb_eq in E2. congruence.
  - rewrite get_set. now destruct (k1 =? k).
Qed.

Lemma replay_own_proto (sets : list (string * A)) : forall o,
  get "__proto__" (Refs.own (replay sets o)) = get "__proto__" (Refs.own o).
Proof.
  induction sets as [|[k1 a1] sets IH]; intros o; [reflexivity|].
  cbn [replay fold_left fst snd]. fold (replay sets (Refs.set k1 a1 o)).
  rewrite IH. unfold Refs.set. destruct (k1 =? "__proto__") eqn:E1; cbn [Refs.own].
  - reflexivity.
  - now rewrite get_set, E1.
Qed.

Lemma replay_proto (sets : list (string * A)) : forall o,
  Refs.proto (replay sets o) =
  match last_value "__proto__" sets with
  | Some a => Some a
  | None => Refs.proto o
  end.
Proof.
  induction sets as [|[k1 a1] sets IH]; intros o; [reflexivity|].
  cbn [replay fold_left fst snd]. fold (replay sets (Refs.set k1 a1 o)).
  rewrite IH. cbn [last_value].
  destruct (last_value "__proto__" sets); [reflexivity|].
  unfold Refs.set. destruct (k1 =? "__proto__"); reflexivity.
Qed.

Lemma get_replay fields k (sets : list (string * A)) :
  Refs.get fields k (replay sets Refs.empty) = lookup fields k sets.
Proof.
  unfold Refs.get, lookup. destruct (String.eqb_spec k "__proto__") as [->|Hk].
  - rewrite replay_own_proto, replay_proto. cbn [Refs.empty Refs.own Refs.proto get].
    destruct (last_value "__proto__" sets); [reflexivity|].
    reflexivity.
  - rewrite (replay_own _ _ _ Hk), replay_proto.
    cbn [Refs.empty Refs.own Refs.proto get].
    destruct (last_value k sets); [reflexivity|].
    destruct (last_value "__proto__" sets); cbn [orb].
    + destruct (existsb (String.eqb k) fields); reflexivity.
    + reflexivity.
Qed.

Lemma replay_app (s1 s2 : list (string * A)) o :
  replay (s1 ++ s2) o = replay s2 (replay s1 o).
Proof. apply fold_left_app. Qed.

End Replay.

Lemma firstPass_refs namespace appName st tier :
  Locals.cmRefs (firstPass namespace appName st tier) =
    replay (cm_sets namespace appName [tier]) (Locals.cmRefs st) /\
  Locals.secretRefs (firstPass namespace appName st tier) =
    replay (secret_sets namespace appName [tier]) (Locals.secretRefs st) /\
  Locals.pvcRefs (firstPass namespace appName st tier) =
    replay (pvc_sets namespace appName [tier]) (Locals.pvcRefs st).
Proof.
  unfold firstPass, cm_sets, secret_sets, pvc_sets. cbn [flat_map]. cbv zeta.
  rewrite !app_nil_r.
  destruct (renderConfigMap tier namespace appName);
    destruct (renderSecret tier namespace appName);
    destruct (pvc_enabled tier && deployment_like tier);
    destruct (generatePVC tier namespace appName);
    destruct (pv_requested tier);
    destruct (generatePV tier appName); repeat split; reflexivity.
Qed.

Lemma firstPass_fold_refs namespace appName tiers : forall st,
  Locals.cmRefs (fold_left (firstPass namespace appName) tiers st) =
    replay (cm_sets namespace appName tiers) (Locals.cmRefs st) /\
  Locals.secretRefs (fold_left (firstPass namespace appName) tiers st) =
    replay (secret_sets namespace appName tiers) (Locals.secretRefs st) /\
  Locals.pvcRefs (fold_left (firstPass namespace appName) tiers st) =
    replay (pvc_sets namespace appName tiers) (Locals.pvcRefs st).
Proof.
  induction tiers as [|tier tiers IH]; intros st; [repeat split; reflexivity|].
  cbn [fold_left].
  destruct (IH (firstPass namespace appName st tier)) as (-> & -> & ->).
  destruct (firstPass_refs namespace appName st tier) as (-> & -> & ->).
  change (tier :: tiers) with ([tier] ++ tiers)%list.
  unfold cm_sets, secret_sets, pvc_sets.
  rewrite !flat_map_app, !replay_app. repeat split; reflexivity.
Qed.

Lemma afterFirstPass_refs payload :
  Locals.cmRefs (afterFirstPass payload) =
    replay (cm_sets (Payload.namespace payload) (Payload.appName payload)
              (or_empty (Payload.tiers payload))) Refs.empty /\
  Locals.secretRefs (afterFirstPass payload) =
    replay (secret_sets (Payload.namespace payload) (Payload.appName payload)
              (or_empty (Payload.tiers payload))) Refs.empty /\
  Locals.pvcRefs (afterFirstPass payload) =
    replay (pvc_sets (Payload.namespace payload) (Payload.appName payload)
              (or_empty (Payload.tiers payload))) Refs.empty.
Proof. unfold afterFirstPass. apply firstPass_fold_refs. Qed.

(** The references a second-pass iteration reads. *)
Lemma second_pass_refs payload n :
  Refs.get cm_fields n (Locals.cmRefs (afterFirstPass payload)) =
    lookup cm_fields n
      (cm_sets (Payload.namespace payload) (Payload.appName payload)
         (or_empty (Payload.tiers payload))) /\
  Refs.get secret_fields n (Locals.secretRefs (afterFirstPass payload)) =
    lookup secret_fields n
      (secret_sets (Payload.namespace payload) (Payload.appName payload)
         (or_empty (Payload.tiers payload))) /\
  Refs.get pvc_fields n (Locals.pvcRefs (afterFirstPass payload)) =
    lookup pvc_fields n
      (pvc_sets (Payload.namespace payload) (Payload.appName payload)
         (or_empty (Payload.tiers payload))).
Proof.
  destruct (afterFirstPass_refs payload) as (-> & -> & ->).
  rewrite !get_replay. repeat split; reflexivity.
Qed.

Lemma in_cm_sets namespace appName tiers k cm :
  In (k, cm) (cm_sets namespace appName tiers) <->
  exists tier, In tier tiers /\ tier_key tier = k /\
    renderConfigMap tier namespace appName = Some cm.
Proof.
  unfold cm_sets. rewrite in_flat_map. split.
  - intros (tier & Hin & H).
    destruct (renderConfigMap tier namespace appName) as [c|] eqn:E; [|easy].
    destruct H as [H|[]]. injection H as <- <-. eauto.
  - intros (tier & Hin & Hk & E). exists tier. split; [exact Hin|].
    rewrite E, Hk. now left.
Qed.

Lemma in_secret_sets namespace appName tiers k s :
  In (k, s) (secret_sets namespace appName tiers) <->
  exists tier, In tier tiers /\ tier_key tier = k /\
    renderSecret tier namespace appName = Some s.
Proof.
  unfold secret_sets. rewrite in_flat_map. split.
  - intros (tier & Hin & H).
    destruct (renderSecret tier namespace appName) as [c|] eqn:E; [|easy].
    destruct H as [H|[]]. injection H as <- <-. eauto.
  - intros (tier & Hin & Hk & E). exists tier. split; [exact Hin|].
    rewrite E, Hk. now left.
Qed.

Lemma in_pvc_sets namespace appName tiers k p :
  In (k, p) (pvc_sets namespace appName tiers) <->
  exists tier, In tier tiers /\ tier_key tier = k /\
    pvc_enabled tier && deployment_like tier = true /\
    generatePVC tier namespace appName = Some p.
Proof.
  unfold pvc_sets. rewrite in_flat_map. split.
  - intros (tier & Hin & H).
    destruct (pvc_enabled tier && deployment_like tier) eqn:Ec; [|easy].
    destruct (generatePVC tier namespace appName) as [c|] eqn:E; [|easy].
    destruct H as [H|[]]. injection H as <- <-. eauto.
  - intros (tier & Hin & Hk & Ec & E). exists tier. split; [exact Hin|].
    rewrite Ec, E, Hk. now left.
Qed.

Lemma last_value_some_in {A} k (ws : list (string * A)) v :
  In (k, v) ws -> exists v', last_value k ws = Some v'.
Proof.
  intros Hin. destruct (last_value k ws) as [v'|] eqn:E; [eauto|].
  apply last_value_none in E. elim E.
  change k with (fst (k, v)). now apply in_map.
Qed.

(** The reference a workload of name [n] reads once a file of that name
    was written in the first pass. *)
Lemma cm_ref_found payload files n doc :
  compile payload = Returned files ->
  get ("configmap-" ++ n ++ ".yaml") files = Some doc ->
  exists cm,
    Refs.get cm_fields n (Locals.cmRefs (afterFirstPass payload)) = Refs.Own cm /\
    CmRef.cmName cm = expected_cm (Payload.appName payload) n /\
    includes ("  name: " ++ expected_cm (Payload.appName payload) n ++ LF) doc.
Proof.
  intros Hc Hg. destruct (file_emitted _ _ _ _ Hc Hg) as (ing & He & _).
  apply emitted_configmap_key in He as (tier & cm & Hin & Hk & Hr & ->).
  rewrite (proj1 (second_pass_refs payload n)). unfold lookup.
  destruct (last_value_some_in n
              (cm_sets (Payload.namespace payload) (Payload.appName payload)
                 (or_empty (Payload.tiers payload))) cm) as [cm' El].
  { apply in_cm_sets. eauto. }
  rewrite El. exists cm'. split; [reflexivity|].
  apply last_value_written, in_cm_sets in El as (tier' & _ & Hk' & Hr').
  split.
  - rewrite (proj1 (proj2 (renderConfigMap_some _ _ _ _ Hr'))), Hk'. reflexivity.
  - revert Hr. unfold renderConfigMap. cbv zeta.
    destruct (or_empty (Tier.configMapData tier)); [discriminate|].
    unfold tier_key in Hk. rewrite Hk. unfold expected_cm.
    intros H.
    match type of H with Some (CmRef.mk _ ?c _) = _ =>
      assert (Hi : includes ("  name: " ++ (toString (Payload.appName payload) ++ "-" ++ n ++ "-config") ++ LF) c)
        by find_in_template;
      set (content := c) in *; clearbody content
    end.
    injection H as <-. exact Hi.
Qed.

Lemma secret_ref_found payload files n doc :
  compile payload = Returned files ->
  get ("secret-" ++ n ++ ".yaml") files = Some doc ->
  exists secret,
    Refs.get secret_fields n (Locals.secretRefs (afterFirstPass payload)) =
      Refs.Own secret /\
    SecretRef.secretName secret = expected_secret (Payload.appName payload) n /\
    includes ("  name: " ++ expected_secret (Payload.appName payload) n ++ LF) doc.
Proof.
  intros Hc Hg. destruct (file_emitted _ _ _ _ Hc Hg) as (ing & He & _).
  apply emitted_secret_key in He as (tier & cm & Hin & Hk & Hr & ->).
  rewrite (proj1 (proj2 (second_pass_refs payload n))). unfold lookup.
  destruct (last_value_some_in n
              (secret_sets (Payload.namespace payload) (Payload.appName payload)
                 (or_empty (Payload.tiers payload))) cm) as [cm' El].
  { apply in_secret_sets. eauto. }
  rewrite El. exists cm'. split; [reflexivity|].
  apply last_value_written, in_secret_sets in El as (tier' & _ & Hk' & Hr').
  split.
  - rewrite (proj1 (proj2 (renderSecret_some _ _ _ _ Hr'))), Hk'. reflexivity.
  - revert Hr. unfold renderSecret. cbv zeta.
    destruct (or_empty (Tier.secretData tier)); [discriminate|].
    unfold tier_key in Hk. rewrite Hk. unfold expected_secret.
    intros H.
    match type of H with Some (SecretRef.mk _ ?c _) = _ =>
      assert (Hi : includes ("  name: " ++ (toString (Payload.appName payload) ++ "-" ++ n ++ "-secret") ++ LF) c)
        by find_in_template;
      set (content := c) in *; clearbody content
    end.
    injection H as <-. exact Hi.
Qed.

(** ** Volumes of a workload *)

Ltac walk_to_mounts :=
  repeat lazymatch goal with
         | |- includes _ (volumeMountsSection _ ++ _) => fail
         | |- _ => apply includes_app_r
         end;
  apply includes_app_l.

Ltac walk_to_volumes :=
  repeat lazymatch goal with
         | |- includes _ (volumesSection _ ++ _) => fail
         | |- includes _ (extraVolumes _ _ ++ _) => fail
         | |- _ => apply includes_app_r
         end;
  apply includes_app_l.

Lemma includes_mounts x mounts :
  In x mounts -> includes x (volumeMountsSection mounts).
Proof.
  intros H. unfold volumeMountsSection. destruct mounts as [|m ms]; [destruct H|].
  do 3 apply includes_app_r. now apply includes_join.
Qed.

Lemma includes_volumes x volumes :
  In x volumes -> includes x (volumesSection volumes).
Proof.
  intros H. unfold volumesSection. destruct volumes as [|m ms]; [destruct H|].
  do 3 apply includes_app_r. now apply includes_join.
Qed.

Lemma in_pushed (c : bool) (x : string) : c = true -> In x (pushed c x).
Proof. intros ->. now left. Qed.

Section WorkloadVolumes.

Variables (tier : Tier.t) (namespace appName : value).
Variables (cmRef : Refs.found CmRef.t) (secretRef : Refs.found SecretRef.t).

Lemma deployment_config_volume pvcRef :
  Refs.present cmRef = true ->
  includes (configMount (Refs.field CmRef.cmName cmRef) (tier_key tier))
    (generateDeployment tier namespace appName cmRef secretRef pvcRef) /\
  includes (configVolume (Refs.field CmRef.cmName cmRef))
    (generateDeployment tier namespace appName cmRef secretRef pvcRef).
Proof.
  intros Hp. unfold generateDeployment. cbv zeta. split.
  - walk_to_mounts. apply includes_mounts, in_concat.
    eexists. split; [left; reflexivity|]. now apply in_pushed.
  - walk_to_volumes. apply includes_volumes, in_concat.
    eexists. split; [left; reflexivity|]. now apply in_pushed.
Qed.

Lemma deployment_secret_volume pvcRef :
  Refs.present secretRef = true ->
  includes (secretMount (Refs.field SecretRef.secretName secretRef) (tier_key tier))
    (generateDeployment tier namespace appName cmRef secretRef pvcRef) /\
  includes (secretVolume (Refs.field SecretRef.secretName secretRef))
    (generateDeployment tier namespace appName cmRef secretRef pvcRef).
Proof.
  intros Hp. unfold generateDeployment. cbv zeta. split.
  - walk_to_mounts. apply includes_mounts, in_concat.
    eexists. split; [right; left; reflexivity|]. now apply in_pushed.
  - walk_to_volumes. apply includes_volumes, in_concat.
    eexists. split; [right; left; reflexivity|]. now apply in_pushed.
Qed.

Lemma deployment_claim_volume (pvcRef : Refs.found PvcRef.t) :
  Refs.present pvcRef = true ->
  includes (claimMount (Refs.field PvcRef.pvcName pvcRef) (claim_mount_path tier))
    (generateDeployment tier namespace appName cmRef secretRef pvcRef) /\
  includes (claimVolume (Refs.field PvcRef.pvcName pvcRef))
    (generateDeployment tier namespace appName cmRef secretRef pvcRef).
Proof.
  intros Hp. unfold generateDeployment. cbv zeta. split.
  - walk_to_mounts. apply includes_mounts, in_concat.
    eexists. split; [right; right; left; reflexivity|]. now apply in_pushed.
  - walk_to_volumes. apply includes_volumes, in_concat.
    eexists. split; [right; right; left; reflexivity|]. now apply in_pushed.
Qed.

Lemma statefulset_config_volume :
  Refs.present cmRef = true ->
  includes (configMount (Refs.field CmRef.cmName cmRef) (tier_key tier))
    (generateStatefulSet tier namespace appName cmRef secretRef) /\
  includes (configVolume (Refs.field CmRef.cmName cmRef))
    (generateStatefulSet tier namespace appName cmRef secretRef).
Proof.
  intros Hp. unfold generateStatefulSet. cbv zeta. split.
  - walk_to_mounts. apply includes_mounts. unfold statefulSetVolumeMounts.
    cbv zeta. apply in_concat.
    eexists. split; [left; reflexivity|]. now apply in_pushed.
  - walk_to_volumes. unfold extraVolumes. cbv zeta. rewrite Hp. cbn [orb].
    do 2 apply includes_app_r. apply includes_app_l. apply includes_app_r.
    unfold configVolume. apply includes_refl.
Qed.

Lemma statefulset_secret_volume :
  Refs.present secretRef = true ->
  includes (secretMount (Refs.field SecretRef.secretName secretRef) (tier_key tier))
    (generateStatefulSet tier namespace appName cmRef secretRef) /\
  includes (secretVolume (Refs.field SecretRef.secretName secretRef))
    (generateStatefulSet tier namespace appName cmRef secretRef).
Proof.
  intros Hp. unfold generateStatefulSet. cbv zeta. split.
  - walk_to_mounts. apply includes_mounts. unfold statefulSetVolumeMounts.
    cbv zeta. apply in_concat.
    eexists. split; [right; left; reflexivity|]. now apply in_pushed.
  - walk_to_volumes. unfold extraVolumes. cbv zeta. rewrite Hp, orb_true_r.
    do 3 apply includes_app_r. apply includes_app_r.
    unfold secretVolume. apply includes_refl.
Qed.

End WorkloadVolumes.

(** ** Workloads and the resources of their name *)

(** What a workload file holds: the document of a tier of that name,
    rendered with the references the second pass reads under the name. *)
Lemma workload_doc_inv payload files n doc :
  compile payload = Returned files ->
  workload_doc n files doc ->
  exists tier,
    In tier (or_empty (Payload.tiers payload)) /\ tier_key tier = n /\
    (doc = generateDeployment tier (Payload.namespace payload) (Payload.appName payload)
             (Refs.get cm_fields n (Locals.cmRefs (afterFirstPass payload)))
             (Refs.get secret_fields n (Locals.secretRefs (afterFirstPass payload)))
             (Refs.get pvc_fields n (Locals.pvcRefs (afterFirstPass payload))) \/
     doc = generateStatefulSet tier (Payload.namespace payload) (Payload.appName payload)
             (Refs.get cm_fields n (Locals.cmRefs (afterFirstPass payload)))
             (Refs.get secret_fields n (Locals.secretRefs (afterFirstPass payload)))).
Proof.
  intros Hc [Hg|Hg]; destruct (file_emitted _ _ _ _ Hc Hg) as (ing & He & _).
  - apply emitted_deployment_key in He as (tier & Hin & Hk & _ & ->). eauto 10.
  - apply emitted_statefulset_key in He as (tier & Hin & Hk & _ & ->). eauto 10.
Qed.

(** X7. A workload mounts the ConfigMap and the Secret of its name under
    the names these declare: when the output holds [configmap-{n}.yaml],
    that document is named [{appName}-{n}-config], and the Deployment or
    StatefulSet stored under [n] has a volume mount
    [{appName}-{n}-config-vol] at [/config/{n}] and a volume of that name
    whose [configMap.name] is [{appName}-{n}-config]; likewise for
    [secret-{n}.yaml], [{appName}-{n}-secret] and [/secrets/{n}]. *)
Theorem config_and_secret_volumes
    (payload : Payload.t) (files : props string) (n : string) :
  compile payload = Returned files ->
  (forall doc cm,
     workload_doc n files doc ->
     get ("configmap-" ++ n ++ ".yaml") files = Some cm ->
     includes ("  name: " ++ expected_cm (Payload.appName payload) n ++ LF) cm /\
     includes (configMount (expected_cm (Payload.appName payload) n) n) doc /\
     includes (configVolume (expected_cm (Payload.appName payload) n)) doc) /\
  (forall doc secret,
     workload_doc n files doc ->
     get ("secret-" ++ n ++ ".yaml") files = Some secret ->
     includes ("  name: " ++ expected_secret (Payload.appName payload) n ++ LF) secret /\
     includes (secretMount (expected_secret (Payload.appName payload) n) n) doc /\
     includes (secretVolume (expected_secret (Payload.appName payload) n)) doc).
Proof.
  intros Hc. split.
  - intros doc cm Hd Hg.
    destruct (cm_ref_found _ _ _ _ Hc Hg) as (ref & Hr & Hn & Hi).
    split; [exact Hi|].
    destruct (workload_doc_inv _ _ _ _ Hc Hd) as (tier & _ & Hk & [-> | ->]);
      rewrite Hr, <- Hn, <- Hk.
    + apply (deployment_config_volume tier _ _ (Refs.Own ref)). reflexivity.
    + apply (statefulset_config_volume tier _ _ (Refs.Own ref)). reflexivity.
  - intros doc secret Hd Hg.
    destruct (secret_ref_found _ _ _ _ Hc Hg) as (ref & Hr & Hn & Hi).
    split; [exact Hi|].
    destruct (workload_doc_inv _ _ _ _ Hc Hd) as (tier & _ & Hk & [-> | ->]);
      rewrite Hr, <- Hn, <- Hk.
    + apply (deployment_secret_volume tier _ _ _ (Refs.Own ref)). reflexivity.
    + apply (statefulset_secret_volume tier _ _ _ (Refs.Own ref)). reflexivity.
Qed.

Lemma config_and_secret_volumes_witness :
  workload_doc "api" (files_of (compile furnished_request))
    (file_of "deployment-api.yaml" (files_of (compile furnished_request))) /\
  includes ("  name: web-api-config" ++ LF)
    (file_of "configmap-api.yaml" (files_of (compile furnished_request))) /\
  includes (configVolume "web-api-config")
    (file_of "deployment-api.yaml" (files_of (compile furnished_request))) /\
  includes ("  name: web-api-secret" ++ LF)
    (file_of "secret-api.yaml" (files_of (compile furnished_request))) /\
  includes (secretVolume "web-api-secret")
    (file_of "deployment-api.yaml" (files_of (compile furnished_request))).
Proof.
  assert (Hd : workload_doc "api" (files_of (compile furnished_request))
                 (file_of "deployment-api.yaml" (files_of (compile furnished_request))))
    by (left; reflexivity).
  destruct (config_and_secret_volumes furnished_request
              (files_of (compile furnished_request)) "api" eq_refl) as [Hcm Hsec].
  destruct (Hcm _ _ Hd eq_refl) as (H1 & _ & H2).
  destruct (Hsec _ _ Hd eq_refl) as (H3 & _ & H4).
  repeat split; assumption.
Defined.

Lemma pvc_ref_found payload files n doc :
  compile payload = Returned files ->
  get ("pvc-" ++ n ++ ".yaml") files = Some doc ->
  exists pvc,
    Refs.get pvc_fields n (Locals.pvcRefs (afterFirstPass payload)) = Refs.Own pvc /\
    PvcRef.pvcName pvc = expected_pvc (Payload.appName payload) n /\
    includes ("  name: " ++ expected_pvc (Payload.appName payload) n ++ LF) doc.
Proof.
  intros Hc Hg. destruct (file_emitted _ _ _ _ Hc Hg) as (ing & He & _).
  apply emitted_pvc_key in He as (tier & cm & Hin & Hk & Hw & Hr & ->).
  rewrite (proj2 (proj2 (second_pass_refs payload n))). unfold lookup.
  destruct (last_value_some_in n
              (pvc_sets (Payload.namespace payload) (Payload.appName payload)
                 (or_empty (Payload.tiers payload))) cm) as [cm' El].
  { apply in_pvc_sets. eauto 10. }
  rewrite El. exists cm'. split; [reflexivity|].
  apply last_value_written, in_pvc_sets in El as (tier' & _ & Hk' & _ & Hr').
  split.
  - rewrite (proj1 (proj2 (generatePVC_some _ _ _ _ Hr'))), Hk'. reflexivity.
  - revert Hr. unfold generatePVC. cbv zeta.
    destruct (negb (truthy (Pvc.enabled _))); [discriminate|].
    unfold tier_key in Hk. rewrite Hk. unfold expected_pvc.
    intros H.
    match type of H with Some (PvcRef.mk _ ?c _) = _ =>
      assert (Hi : includes ("  name: " ++ (toString (Payload.appName payload) ++ "-" ++ n ++ "-pvc") ++ LF) c)
        by find_in_template;
      set (content := c) in *; clearbody content
    end.
    injection H as <-. exact Hi.
Qed.

(** X8. A Deployment claims the PVC of its name: when the output holds
    both [deployment-{n}.yaml] and [pvc-{n}.yaml], the claim is named
    [{appName}-{n}-pvc], the Deployment has a volume
    [{appName}-{n}-pvc-vol] whose [claimName] is that name, and it mounts
    the volume at the [pvc.mountPath] of a tier named [n], or at [/data]
    when that is falsy. *)
Theorem deployment_claims_its_pvc
    (payload : Payload.t) (files : props string) (n doc pvc : string) :
  compile payload = Returned files ->
  get ("deployment-" ++ n ++ ".yaml") files = Some doc ->
  get ("pvc-" ++ n ++ ".yaml") files = Some pvc ->
  includes ("kind: PersistentVolumeClaim" ++ LF ++ "metadata:" ++ LF ++
            "  name: " ++ expected_pvc (Payload.appName payload) n ++ LF) pvc /\
  includes (claimVolume (expected_pvc (Payload.appName payload) n)) doc /\
  exists tier,
    In tier (or_empty (Payload.tiers payload)) /\ tier_key tier = n /\
    includes (claimMount (expected_pvc (Payload.appName payload) n)
                (claim_mount_path tier)) doc.
Proof.
  intros Hc Hd Hg.
  destruct (pvc_ref_found _ _ _ _ Hc Hg) as (ref & Hr & Hn & Hi).
  split.
  - destruct (file_emitted _ _ _ _ Hc Hg) as (ing & He & _).
    apply emitted_pvc_key in He as (tier & cm & Hin & Hk & Hw & Hgen & ->).
    revert Hgen. unfold generatePVC. cbv zeta.
    destruct (negb (truthy (Pvc.enabled _))); [discriminate|].
    unfold tier_key in Hk. rewrite Hk. unfold expected_pvc.
    intros H.
    match type of H with Some (PvcRef.mk _ ?c _) = _ =>
      assert (Hi' : includes ("kind: PersistentVolumeClaim" ++ LF ++ "metadata:" ++ LF ++
                "  name: " ++ (toString (Payload.appName payload) ++ "-" ++ n ++ "-pvc") ++ LF) c)
        by find_in_template;
      set (content := c) in *; clearbody content
    end.
    injection H as <-. exact Hi'.
  - destruct (file_emitted _ _ _ _ Hc Hd) as (ing & He & _).
    apply emitted_deployment_key in He as (tier & Hin & Hk & _ & ->).
    rewrite Hr, <- Hn.
    destruct (deployment_claim_volume tier (Payload.namespace payload)
                (Payload.appName payload)
                (Refs.get cm_fields n (Locals.cmRefs (afterFirstPass payload)))
                (Refs.get secret_fields n (Locals.secretRefs (afterFirstPass payload)))
                (Refs.Own ref) eq_refl) as [Hm Hv].
    split; [exact Hv|]. exists tier. repeat split; auto.
Qed.

Lemma deployment_claims_its_pvc_witness :
  includes ("kind: PersistentVolumeClaim" ++ LF ++ "metadata:" ++ LF ++
            "  name: " ++ expected_pvc (Payload.appName furnished_request) "api" ++ LF)
    (file_of "pvc-api.yaml" (files_of (compile furnished_request))) /\
  includes (claimVolume (expected_pvc (Payload.appName furnished_request) "api"))
    (file_of "deployment-api.yaml" (files_of (compile furnished_request))) /\
  exists tier,
    In tier (or_empty (Payload.tiers furnished_request)) /\ tier_key tier = "api" /\
    includes (claimMount (expected_pvc (Payload.appName furnished_request) "api")
                (claim_mount_path tier))
      (file_of "deployment-api.yaml" (files_of (compile furnished_request))).
Proof.
  apply (deployment_claims_its_pvc furnished_request
           (files_of (compile furnished_request)) "api"); reflexivity.
Defined.

Lemma no_file_no_set payload files :
  compile payload = Returned files ->
  forall n,
  (get ("configmap-" ++ n ++ ".yaml") files = None ->
   last_value n (cm_sets (Payload.namespace payload) (Payload.appName payload)
                   (or_empty (Payload.tiers payload))) = None) /\
  (get ("secret-" ++ n ++ ".yaml") files = None ->
   last_value n (secret_sets (Payload.namespace payload) (Payload.appName payload)
                   (or_empty (Payload.tiers payload))) = None) /\
  (get ("pvc-" ++ n ++ ".yaml") files = None ->
   last_value n (pvc_sets (Payload.namespace payload) (Payload.appName payload)
                   (or_empty (Payload.tiers payload))) = None).
Proof.
  intros Hc n. destruct (compile_returned _ _ Hc) as (ing & Hv & Hi & E).
  repeat split; intros Hg.
  - destruct (last_value n (cm_sets _ _ _)) as [cm|] eqn:El; [|reflexivity].
    exfalso. apply last_value_written, in_cm_sets in El as (tier & Hin & Hk & Hr).
    revert Hg. apply (file_present _ _ ing _ Hc Hi).
    exists (CmRef.content cm). apply (in_writes_pass1 _ _ tier); [exact Hin|].
    unfold pass1_writes. rewrite Hr, in_app_iff. left.
    rewrite (proj1 (renderConfigMap_some _ _ _ _ Hr)), Hk. now left.
  - destruct (last_value n (secret_sets _ _ _)) as [cm|] eqn:El; [|reflexivity].
    exfalso. apply last_value_written, in_secret_sets in El as (tier & Hin & Hk & Hr).
    revert Hg. apply (file_present _ _ ing _ Hc Hi).
    exists (SecretRef.content cm). apply (in_writes_pass1 _ _ tier); [exact Hin|].
    unfold pass1_writes. rewrite Hr, !in_app_iff. right. left.
    rewrite (proj1 (renderSecret_some _ _ _ _ Hr)), Hk. now left.
  - destruct (last_value n (pvc_sets _ _ _)) as [cm|] eqn:El; [|reflexivity].
    exfalso. apply last_value_written, in_pvc_sets in El as (tier & Hin & Hk & Hw & Hr).
    revert Hg. apply (file_present _ _ ing _ Hc Hi).
    exists (PvcRef.content cm). apply (in_writes_pass1 _ _ tier); [exact Hin|].
    unfold pass1_writes. rewrite Hw, Hr, !in_app_iff. right. right. left.
    rewrite (proj1 (generatePVC_some _ _ _ _ Hr)), Hk. now left.
Qed.

Lemma lookup_inherited {A} fields n (sets : list (string * A)) :
  last_value n sets = None -> inherited n = true ->
  lookup fields n sets = Refs.Inherited.
Proof.
  intros El Hi. unfold lookup. rewrite El, Hi. now rewrite orb_true_r.
Qed.

(** X9. A tier named like a member of [Object.prototype]
    ([constructor], [toString], [__proto__], ...) gets volumes it never
    asked for. [cmRefs[tier.name]] is then the inherited member, which is
    truthy and has no [cmName]: although the output holds no ConfigMap of
    that name, the workload mounts a volume [undefined-vol] backed by a
    ConfigMap named [undefined]; the same holds for the Secret, and in a
    Deployment for a claim named [undefined]. *)
Theorem inherited_name_mounts_undefined
    (payload : Payload.t) (files : props string) (n : string) :
  compile payload = Returned files ->
  inherited n = true ->
  (forall doc,
     workload_doc n files doc ->
     get ("configmap-" ++ n ++ ".yaml") files = None ->
     includes (configMount "undefined" n) doc /\
     includes (configVolume "undefined") doc) /\
  (forall doc,
     workload_doc n files doc ->
     get ("secret-" ++ n ++ ".yaml") files = None ->
     includes (secretMount "undefined" n) doc /\
     includes (secretVolume "undefined") doc) /\
  (forall doc,
     get ("deployment-" ++ n ++ ".yaml") files = Some doc ->
     get ("pvc-" ++ n ++ ".yaml") files = None ->
     includes (claimVolume "undefined") doc).
Proof.
  intros Hc Hinh.
  destruct (second_pass_refs payload n) as (Rcm & Rsec & Rpvc).
  destruct (no_file_no_set _ _ Hc n) as (Ncm & Nsec & Npvc).
  split; [|split]; intros doc Hd Hg.
  - apply Ncm in Hg. rewrite (lookup_inherited _ _ _ Hg Hinh) in Rcm.
    destruct (workload_doc_inv _ _ _ _ Hc Hd) as (tier & _ & Hk & [-> | ->]);
      rewrite Rcm, <- Hk.
    + apply (deployment_config_volume tier _ _ Refs.Inherited). reflexivity.
    + apply (statefulset_config_volume tier _ _ Refs.Inherited). reflexivity.
  - apply Nsec in Hg. rewrite (lookup_inherited _ _ _ Hg Hinh) in Rsec.
    destruct (workload_doc_inv _ _ _ _ Hc Hd) as (tier & _ & Hk & [-> | ->]);
      rewrite Rsec, <- Hk.
    + apply (deployment_secret_volume tier _ _ _ Refs.Inherited). reflexivity.
    + apply (statefulset_secret_volume tier _ _ _ Refs.Inherited). reflexivity.
  - apply Npvc in Hg. rewrite (lookup_inherited _ _ _ Hg Hinh) in Rpvc.
    destruct (file_emitted _ _ _ _ Hc Hd) as (ing & He & _).
    apply emitted_deployment_key in He as (tier & Hin & Hk & _ & ->).
    rewrite Rpvc.
    apply (deployment_claim_volume tier _ _ _ _ Refs.Inherited). reflexivity.
Qed.

Lemma inherited_name_mounts_undefined_witness :
  inherited "constructor" = true /\
  get "configmap-constructor.yaml" (files_of (compile constructor_request)) = None /\
  get "secret-constructor.yaml" (files_of (compile constructor_request)) = None /\
  get "pvc-constructor.yaml" (files_of (compile constructor_request)) = None /\
  includes (configVolume "undefined")
    (file_of "deployment-constructor.yaml" (files_of (compile constructor_request))) /\
  includes (secretVolume "undefined")
    (file_of "deployment-constructor.yaml" (files_of (compile constructor_request))) /\
  includes (claimVolume "undefined")
    (file_of "deployment-constructor.yaml" (files_of (compile constructor_request))).
Proof.
  destruct (inherited_name_mounts_undefined constructor_request
              (files_of (compile constructor_request)) "constructor" eq_refl eq_refl)
    as (Hcm & Hsec & Hpvc).
  assert (Hd : workload_doc "constructor" (files_of (compile constructor_request))
                 (file_of "deployment-constructor.yaml"
                    (files_of (compile constructor_request))))
    by (left; reflexivity).
  repeat split.
  - exact (proj2 (Hcm _ Hd eq_refl)).
  - exact (proj2 (Hsec _ Hd eq_refl)).
  - exact (Hpvc _ eq_refl eq_refl).
Defined.

(** A tier that is the only one of its name: its Deployment file is its
    own document. *)
Lemma own_deployment payload files tier :
  compile payload = Returned files ->
  In tier (or_empty (Payload.tiers payload)) ->
  (forall other, In other (or_empty (Payload.tiers payload)) ->
                 tier_key other = tier_key tier -> other = tier) ->
  Tier.workloadType tier <> Str "StatefulSet" ->
  get ("deployment-" ++ tier_key tier ++ ".yaml") files =
    Some (generateDeployment tier (Payload.namespace payload) (Payload.appName payload)
            (Refs.get cm_fields (tier_key tier) (Locals.cmRefs (afterFirstPass payload)))
            (Refs.get secret_fields (tier_key tier)
               (Locals.secretRefs (afterFirstPass payload)))
            (Refs.get pvc_fields (tier_key tier) (Locals.pvcRefs (afterFirstPass payload)))).
Proof.
  intros Hc Hin Huniq Hw.
  destruct (compile_returned _ _ Hc) as (ing & Hv & Hi & E).
  assert (Hs : is_statefulset tier = false).
  { destruct (is_statefulset tier) eqn:Es; [|reflexivity].
    apply is_statefulset_iff in Es. contradiction. }
  assert (Hp : get ("deployment-" ++ tier_key tier ++ ".yaml") files <> None).
  { apply (file_present _ _ ing _ Hc Hi). eexists.
    apply (in_writes_pass2 _ _ tier); [exact Hin|].
    unfold pass2_writes, workload_writes. rewrite in_app_iff. left.
    rewrite Hs. left. reflexivity. }
  destruct (get ("deployment-" ++ tier_key tier ++ ".yaml") files) as [doc|] eqn:Eg;
    [|now elim Hp].
  destruct (file_emitted _ _ _ _ Hc Eg) as (ing' & He & _).
  apply emitted_deployment_key in He as (t' & Hin' & Hk & _ & ->).
  apply Huniq in Hk; [|exact Hin']. now subst t'.
Qed.

(** X10. A [workloadType] that is neither [Deployment] nor
    [StatefulSet] loses its storage. Such a tier (the only one of its name,
    the name no member of [Object.prototype] and no field of a stored
    reference) is rendered as a Deployment; no [statefulset-] and, even
    with [pvc.enabled], no [pvc-] file of its name is written, and the
    Deployment is rendered without a PVC reference. *)
Theorem unknown_workload_type_drops_storage
    (payload : Payload.t) (files : props string) (tier : Tier.t) :
  compile payload = Returned files ->
  In tier (or_empty (Payload.tiers payload)) ->
  (forall other, In other (or_empty (Payload.tiers payload)) ->
                 tier_key other = tier_key tier -> other = tier) ->
  truthy (Tier.workloadType tier) = true ->
  Tier.workloadType tier <> Str "Deployment" ->
  Tier.workloadType tier <> Str "StatefulSet" ->
  inherited (tier_key tier) = false ->
  ~ In (tier_key tier) pvc_fields ->
  get ("statefulset-" ++ tier_key tier ++ ".yaml") files = None /\
  get ("pvc-" ++ tier_key tier ++ ".yaml") files = None /\
  exists cmRef secretRef,
    get ("deployment-" ++ tier_key tier ++ ".yaml") files =
      Some (generateDeployment tier (Payload.namespace payload)
              (Payload.appName payload) cmRef secretRef Refs.Missing).
Proof.
  intros Hc Hin Huniq Ht Hnd Hns Hinh Hf.
  assert (Hdl : deployment_like tier = false).
  { unfold deployment_like. rewrite Ht. cbn [negb]. rewrite orb_false_r.
    unfold is_str. destruct (Tier.workloadType tier) as [| |b|z|s]; try reflexivity.
    destruct (String.eqb_spec s "Deployment") as [->|]; [now elim Hnd | reflexivity]. }
  assert (Hpvc : get ("pvc-" ++ tier_key tier ++ ".yaml") files = None).
  { destruct (get ("pvc-" ++ tier_key tier ++ ".yaml") files) as [doc|] eqn:Eg;
      [|reflexivity].
    exfalso. destruct (file_emitted _ _ _ _ Hc Eg) as (ing & He & _).
    apply emitted_pvc_key in He as (t' & p & Hin' & Hk & Hw & _).
    apply Huniq in Hk; [|exact Hin']. subst t'.
    rewrite Hdl, andb_false_r in Hw. discriminate Hw. }
  split; [|split; [exact Hpvc|]].
  - destruct (get ("statefulset-" ++ tier_key tier ++ ".yaml") files) as [doc|] eqn:Eg;
      [|reflexivity].
    exfalso. destruct (file_emitted _ _ _ _ Hc Eg) as (ing & He & _).
    apply emitted_statefulset_key in He as (t' & Hin' & Hk & Hss & _).
    apply Huniq in Hk; [|exact Hin']. subst t'.
    apply is_statefulset_iff in Hss. contradiction.
  - do 2 eexists.
    rewrite (own_deployment _ _ _ Hc Hin Huniq Hns).
    destruct (second_pass_refs payload (tier_key tier)) as (_ & _ & ->).
    destruct (no_file_no_set _ _ Hc (tier_key tier)) as (_ & _ & Npvc).
    unfold lookup. rewrite (Npvc Hpvc), Hinh, orb_false_r.
    assert (Hex : existsb (String.eqb (tier_key tier)) pvc_fields = false).
    { destruct (existsb (String.eqb (tier_key tier)) pvc_fields) eqn:Ex; [|reflexivity].
      apply existsb_exists in Ex as (x & Hx & Heq).
      apply String.eqb_eq in Heq. subst x. contradiction. }
    rewrite Hex. now destruct (last_value "__proto__" _).
Qed.

Lemma unknown_workload_type_drops_storage_witness :
  get ("statefulset-" ++ tier_key daemon_tier ++ ".yaml")
    (files_of (compile daemon_request)) = None /\
  get ("pvc-" ++ tier_key daemon_tier ++ ".yaml")
    (files_of (compile daemon_request)) = None /\
  exists cmRef secretRef,
    get ("deployment-" ++ tier_key daemon_tier ++ ".yaml")
      (files_of (compile daemon_request)) =
      Some (generateDeployment daemon_tier (Payload.namespace daemon_request)
              (Payload.appName daemon_request) cmRef secretRef Refs.Missing).
Proof.
  apply (unknown_workload_type_drops_storage daemon_request
           (files_of (compile daemon_request)) daemon_tier).
  - reflexivity.
  - now left.
  - intros other [<-|[]] _. reflexivity.
  - reflexivity.
  - discriminate.
  - discriminate.
  - reflexivity.
  - cbn. intros [H|[H|[H|[]]]]; discriminate H.
Defined.

(** ** Services and workloads *)

Lemma generateDeployment_labels tier namespace appName cmRef secretRef pvcRef :
  includes (match_labels appName (tier_key tier))
    (generateDeployment tier namespace appName cmRef secretRef pvcRef) /\
  includes (pod_labels appName (tier_key tier))
    (generateDeployment tier namespace appName cmRef secretRef pvcRef).
Proof.
  unfold generateDeployment, match_labels, pod_labels, tier_key. cbv zeta.
  split; find_in_template.
Qed.

Lemma generateStatefulSet_labels tier namespace appName cmRef secretRef :
  includes (match_labels appName (tier_key tier))
    (generateStatefulSet tier namespace appName cmRef secretRef) /\
  includes (pod_labels appName (tier_key tier))
    (generateStatefulSet tier namespace appName cmRef secretRef) /\
  includes ("  serviceName: " ++ headless_name appName (tier_key tier) ++ LF)
    (generateStatefulSet tier namespace appName cmRef secretRef).
Proof.
  unfold generateStatefulSet, match_labels, pod_labels, headless_name, tier_key.
  cbv zeta. repeat split; find_in_template.
Qed.

Lemma generateService_selector tier namespace appName doc :
  generateService tier namespace appName = Some doc ->
  includes (selector_labels appName (tier_key tier)) doc /\
  includes ("kind: Service" ++ LF ++ "metadata:" ++ LF ++
            "  name: " ++ toString appName ++ "-" ++ tier_key tier ++ LF) doc.
Proof.
  unfold generateService, selector_labels, tier_key. cbv zeta.
  destruct (Tier.service tier) as [service|]; [|discriminate].
  intros H.
  match type of H with Some ?c = _ =>
    assert (Hi : includes ("  selector:" ++ LF ++
                           "    app: " ++ toString appName ++ LF ++
                           "    tier: " ++ toString (Tier.name tier) ++ LF) c /\
                 includes ("kind: Service" ++ LF ++ "metadata:" ++ LF ++
                           "  name: " ++ toString appName ++ "-" ++
                           toString (Tier.name tier) ++ LF) c)
      by (split; find_in_template);
    set (content := c) in *; clearbody content
  end.
  injection H as <-. exact Hi.
Qed.

Lemma generateHeadlessService_shape tier namespace appName :
  includes ("kind: Service" ++ LF ++ "metadata:" ++ LF ++
            "  name: " ++ headless_name appName (tier_key tier) ++ LF)
    (generateHeadlessService tier namespace appName) /\
  includes ("  clusterIP: None" ++ LF ++ selector_labels appName (tier_key tier))
    (generateHeadlessService tier namespace appName) /\
  endsWith ("      port: " ++ toString (or_else (Tier.containerPort tier) (Num 80)) ++ LF ++
            "      targetPort: " ++
              toString (or_else (Tier.containerPort tier) (Num 80)) ++ LF)
    (generateHeadlessService tier namespace appName).
Proof.
  unfold generateHeadlessService, selector_labels, headless_name, tier_key.
  cbv zeta. repeat split; [find_in_template | find_in_template | find_at_end].
Qed.

(** X11. A Service selects the pods of the workload of its name: when
    the output holds [service-{n}.yaml], its selector is
    [app: {appName}], [tier: {n}]; the output also holds a Deployment or a
    StatefulSet under [n], and whichever it holds carries the same two
    labels in its [matchLabels] and in its pod template. *)
Theorem service_selects_workload_pods
    (payload : Payload.t) (files : props string) (n service : string) :
  compile payload = Returned files ->
  get ("service-" ++ n ++ ".yaml") files = Some service ->
  includes (selector_labels (Payload.appName payload) n) service /\
  (exists doc, workload_doc n files doc) /\
  (forall doc, workload_doc n files doc ->
     includes (match_labels (Payload.appName payload) n) doc /\
     includes (pod_labels (Payload.appName payload) n) doc).
Proof.
  intros Hc Hg. destruct (compile_returned _ _ Hc) as (ing & Hv & Hi & E).
  destruct (file_emitted _ _ _ _ Hc Hg) as (ing' & He & _).
  apply emitted_service_key in He as (tier & Hin & Hk & Hs).
  split; [|split].
  - rewrite <- Hk. now apply (generateService_selector _ _ _ _ Hs).
  - unfold workload_doc. destruct (is_statefulset tier) eqn:Es.
    + assert (Hp : get ("statefulset-" ++ n ++ ".yaml") files <> None).
      { apply (file_present _ _ ing _ Hc Hi). eexists.
        apply (in_writes_pass2 _ _ tier); [exact Hin|].
        unfold pass2_writes, workload_writes. rewrite in_app_iff. left.
        rewrite Es, Hk. right. left. reflexivity. }
      destruct (get ("statefulset-" ++ n ++ ".yaml") files) as [doc|];
        [eauto | now elim Hp].
    + assert (Hp : get ("deployment-" ++ n ++ ".yaml") files <> None).
      { apply (file_present _ _ ing _ Hc Hi). eexists.
        apply (in_writes_pass2 _ _ tier); [exact Hin|].
        unfold pass2_writes, workload_writes. rewrite in_app_iff. left.
        rewrite Es, Hk. left. reflexivity. }
      destruct (get ("deployment-" ++ n ++ ".yaml") files) as [doc|];
        [eauto | now elim Hp].
  - intros doc Hd.
    destruct (workload_doc_inv _ _ _ _ Hc Hd) as (t' & _ & Hk' & [-> | ->]);
      rewrite <- Hk'.
    + apply generateDeployment_labels.
    + split; apply generateStatefulSet_labels.
Qed.

Lemma service_selects_workload_pods_witness :
  includes (selector_labels (Payload.appName scenario) "api")
    (file_of "service-api.yaml" (files_of (compile scenario))) /\
  (exists doc, workload_doc "api" (files_of (compile scenario)) doc) /\
  (forall doc, workload_doc "api" (files_of (compile scenario)) doc ->
     includes (match_labels (Payload.appName scenario) "api") doc /\
     includes (pod_labels (Payload.appName scenario) "api") doc).
Proof.
  apply (service_selects_workload_pods scenario (files_of (compile scenario)) "api");
    reflexivity.
Defined.

(** X12. A StatefulSet and its headless Service agree: when the output
    holds [statefulset-{n}.yaml], its [serviceName] is
    [{appName}-{n}-headless], and the output holds
    [headless-service-{n}.yaml], a Service of that name with
    [clusterIP: None] and the selector of the tier, whose [port] and
    [targetPort] are the [containerPort] of a StatefulSet tier named [n],
    or 80 when that is falsy. *)
Theorem statefulset_names_its_headless_service
    (payload : Payload.t) (files : props string) (n statefulSet : string) :
  compile payload = Returned files ->
  get ("statefulset-" ++ n ++ ".yaml") files = Some statefulSet ->
  includes ("  serviceName: " ++ headless_name (Payload.appName payload) n ++ LF)
    statefulSet /\
  exists headless tier,
    get ("headless-service-" ++ n ++ ".yaml") files = Some headless /\
    includes ("kind: Service" ++ LF ++ "metadata:" ++ LF ++
              "  name: " ++ headless_name (Payload.appName payload) n ++ LF) headless /\
    includes ("  clusterIP: None" ++ LF ++ selector_labels (Payload.appName payload) n)
      headless /\
    In tier (or_empty (Payload.tiers payload)) /\ tier_key tier = n /\
    Tier.workloadType tier = Str "StatefulSet" /\
    endsWith ("      port: " ++ toString (or_else (Tier.containerPort tier) (Num 80)) ++ LF ++
              "      targetPort: " ++
                toString (or_else (Tier.containerPort tier) (Num 80)) ++ LF) headless.
Proof.
  intros Hc Hg. destruct (compile_returned _ _ Hc) as (ing & Hv & Hi & E).
  destruct (file_emitted _ _ _ _ Hc Hg) as (ing' & He & _).
  apply emitted_statefulset_key in He as (tier & Hin & Hk & Hs & ->).
  split.
  - rewrite <- Hk. apply generateStatefulSet_labels.
  - assert (Hp : get ("headless-service-" ++ n ++ ".yaml") files <> None).
    { apply (file_present _ _ ing _ Hc Hi). eexists.
      apply (in_writes_pass2 _ _ tier); [exact Hin|].
      unfold pass2_writes, workload_writes. rewrite in_app_iff. left.
      rewrite Hs, Hk. left. reflexivity. }
    destruct (get ("headless-service-" ++ n ++ ".yaml") files) as [hl|] eqn:Eg;
      [|now elim Hp].
    destruct (file_emitted _ _ _ _ Hc Eg) as (ing'' & He' & _).
    apply emitted_headless_key in He' as (t' & Hin' & Hk' & Hs' & ->).
    exists (generateHeadlessService t' (Payload.namespace payload)
              (Payload.appName payload)), t'.
    destruct (generateHeadlessService_shape t' (Payload.namespace payload)
                (Payload.appName payload)) as (H1 & H2 & H3).
    rewrite Hk' in H1, H2. apply is_statefulset_iff in Hs'.
    repeat split; auto.
Qed.

Lemma statefulset_names_its_headless_service_witness :
  includes ("  serviceName: " ++ headless_name (Payload.appName stateful_request) "db" ++ LF)
    (file_of "statefulset-db.yaml" (files_of (compile stateful_request))) /\
  exists headless tier,
    get ("headless-service-" ++ "db" ++ ".yaml") (files_of (compile stateful_request))
      = Some headless /\
    includes ("kind: Service" ++ LF ++ "metadata:" ++ LF ++
              "  name: " ++ headless_name (Payload.appName stateful_request) "db" ++ LF)
      headless /\
    includes ("  clusterIP: None" ++ LF ++
              selector_labels (Payload.appName stateful_request) "db") headless /\
    In tier (or_empty (Payload.tiers stateful_request)) /\ tier_key tier = "db" /\
    Tier.workloadType tier = Str "StatefulSet" /\
    endsWith ("      port: " ++ toString (or_else (Tier.containerPort tier) (Num 80)) ++ LF ++
              "      targetPort: " ++
                toString (or_else (Tier.containerPort tier) (Num 80)) ++ LF) headless.
Proof.
  apply (statefulset_names_its_headless_service stateful_request
           (files_of (compile stateful_request)) "db"); reflexivity.
Defined.

(** ** Ingress sections *)

Section Keys.

Context {A : Type}.

Lemma keys_set_present k (v : A) o :
  In k (keys o) -> keys (set k v o) = keys o.
Proof.
  induction o as [|[k' v'] o IH]; [intros []|].
  cbn [set keys map fst]. destruct (k' =? k) eqn:E; [reflexivity|].
  intros [H|H].
  - cbn [fst] in H. subst. now rewrite String.eqb_refl in E.
  - cbn [map fst]. f_equal. now apply IH.
Qed.

Lemma keys_set_absent k (v : A) o :
  ~ In k (keys o) -> keys (set k v o) = (keys o ++ [k])%list.
Proof.
  induction o as [|[k' v'] o IH]; [reflexivity|].
  cbn [set keys map fst]. intros H.
  destruct (k' =? k) eqn:E.
  - apply String.eqb_eq in E. elim H. now left.
  - cbn [map fst app]. f_equal. apply IH. intros Hin. apply H. now right.
Qed.

Lemma index_keys_perm (ks : list string) :
  Permutation (map snd (index_keys ks))
    (filter (fun k => match array_index k with Some _ => true | None => false end) ks).
Proof.
  assert (Hins : forall n k l, Permutation (map snd (insert_index n k l)) (k :: map snd l)).
  { intros n k l. induction l as [|[m k'] l IH]; [reflexivity|].
    cbn [insert_index]. destruct (n <=? m)%N; [reflexivity|].
    cbn [map snd]. rewrite IH. apply perm_swap. }
  induction ks as [|k ks IH]; [reflexivity|].
  cbn [index_keys filter]. destruct (array_index k); [|exact IH].
  rewrite Hins. now constructor.
Qed.

Lemma Object_keys_perm (o : props A) : Permutation (Object_keys o) (keys o).
Proof.
  unfold Object_keys, named_keys. rewrite index_keys_perm.
  induction (keys o) as [|k ks IH]; [reflexivity|].
  cbn [filter]. destruct (array_index k); cbn [app].
  - now constructor.
  - rewrite <- Permutation_middle. now constructor.
Qed.

Lemma Object_keys_named (o : props A) :
  (forall k, In k (keys o) -> array_index k = None) ->
  Object_keys o = keys o.
Proof.
  unfold Object_keys, named_keys. induction (keys o) as [|k ks IH]; [reflexivity|].
  intros H. cbn [index_keys filter]. rewrite (H k (or_introl eq_refl)).
  assert (IH' := IH (fun k' Hk' => H k' (or_intror Hk'))).
  destruct (map snd (index_keys ks)) as [|s l] eqn:E.
  - cbn [app] in *. now rewrite IH'.
  - exfalso.
    assert (Hin : In s (map snd (index_keys ks))) by (rewrite E; now left).
    apply (Permutation_in _ (index_keys_perm ks)), filter_In in Hin as [Hin Hs].
    rewrite (H s (or_intror Hin)) in Hs. discriminate.
Qed.

End Keys.

Lemma in_first_occurrences l : forall seen h,
  In h (first_occurrences seen l) <-> In h l /\ ~ In h seen.
Proof.
  induction l as [|x l IH]; intros seen h; cbn [first_occurrences].
  - split; [intros [] | intros [[] _]].
  - destruct (existsb (String.eqb x) seen) eqn:E.
    + rewrite IH. apply existsb_exists in E as (y & Hy & Hxy).
      apply String.eqb_eq in Hxy. subst y. split.
      * intros [H1 H2]. split; [now right | exact H2].
      * intros [[->|H1] H2]; [contradiction | now split].
    + assert (Hx : ~ In x seen).
      { intros Hx. assert (existsb (String.eqb x) seen = true); [|congruence].
        apply existsb_exists. exists x. split; [exact Hx | apply String.eqb_refl]. }
      cbn [In]. rewrite IH, in_app_iff. cbn [In]. split.
      * intros [<-|[H1 H2]]; [split; [now left | exact Hx]|].
        split; [now right | tauto].
      * intros [[->|H1] H2]; [now left|].
        destruct (string_dec x h) as [->|Hne]; [now left|].
        right. split; [exact H1|]. intros [H|[H|[]]]; contradiction.
Qed.

Lemma NoDup_first_occurrences l : forall seen, NoDup (first_occurrences seen l).
Proof.
  induction l as [|x l IH]; intros seen; cbn [first_occurrences]; [constructor|].
  destruct (existsb (String.eqb x) seen); [apply IH|].
  constructor; [|apply IH].
  rewrite in_first_occurrences, in_app_iff. cbn [In]. tauto.
Qed.

Section Collect.

Variable appName : value.

Lemma rules_for_unrouted tier tiers h :
  routed tier = false ->
  rules_for appName h (tier :: tiers) = rules_for appName h tiers.
Proof.
  unfold rules_for, routed. cbn [flat_map].
  destruct (Tier.ingress tier), (Tier.service tier); try discriminate; reflexivity.
Qed.

(** What the loop of [generateIngress] leaves in [rulesByHost]. *)
Lemma collectRules_table tiers : forall rulesByHost rulesByHost',
  collectRules appName rulesByHost tiers = Returned rulesByHost' ->
  keys rulesByHost' =
    (keys rulesByHost ++
     first_occurrences (keys rulesByHost) (map host_of (filter routed tiers)))%list /\
  forall h, get h rulesByHost' =
            extended (get h rulesByHost) (rules_for appName h tiers).
Proof.
  induction tiers as [|tier tiers IH]; intros R R' H.
  - cbn in H. injection H as <-. cbn. now rewrite app_nil_r.
  - cbn [collectRules] in H.
    destruct (addRule appName R tier) as [R1|e] eqn:Ea; [|discriminate].
    destruct (IH _ _ H) as [Hkeys Hget]. clear IH H.
    unfold addRule in Ea. cbn [filter]. unfold routed at 1.
    destruct (Tier.ingress tier) as [ingress|] eqn:Ei;
      [destruct (Tier.service tier) as [service|] eqn:Es|].
    + cbn [map]. unfold host_of at 1. rewrite Ei.
      set (h0 := toString (Ingress.host ingress)) in *.
      assert (Hr : forall h, rules_for appName h (tier :: tiers) =
                ((if h0 =? h then [rule_of appName tier ingress service] else [])
                 ++ rules_for appName h tiers)%list).
      { intros h. unfold rules_for. cbn [flat_map]. now rewrite Ei, Es. }
      cbn [first_occurrences].
      destruct (get h0 R) as [rules|] eqn:Eg.
      * injection Ea as <-.
        assert (Hin : In h0 (keys R)).
        { destruct (in_dec string_dec h0 (keys R)) as [Hin|Hnin]; [exact Hin|].
          apply get_none_keys in Hnin. congruence. }
        assert (Hex : existsb (String.eqb h0) (keys R) = true).
        { apply existsb_exists. exists h0. split; [exact Hin | apply String.eqb_refl]. }
        rewrite Hex. rewrite (keys_set_present _ _ _ Hin) in Hkeys.
        split; [exact Hkeys|].
        intros h. rewrite Hget, Hr, get_set.
        destruct (h0 =? h) eqn:Eh.
        -- apply String.eqb_eq in Eh. subst h. rewrite Eg.
           unfold rule_of. cbn [app extended].
           destruct (rules_for appName h0 tiers); cbn [extended];
             [reflexivity | now rewrite <- app_assoc].
        -- reflexivity.
      * destruct (inherited h0); [discriminate|]. injection Ea as <-.
        assert (Hnin : ~ In h0 (keys R)) by now apply get_none_keys.
        assert (Hex : existsb (String.eqb h0) (keys R) = false).
        { destruct (existsb (String.eqb h0) (keys R)) eqn:Ex; [|reflexivity].
          apply existsb_exists in Ex as (y & Hy & Hxy).
          apply String.eqb_eq in Hxy. now subst y. }
        rewrite Hex. rewrite (keys_set_absent _ _ _ Hnin) in Hkeys.
        split; [now rewrite Hkeys, <- app_assoc|].
        intros h. rewrite Hget, Hr, get_set.
        destruct (h0 =? h) eqn:Eh.
        -- apply String.eqb_eq in Eh. subst h. rewrite Eg.
           unfold rule_of. cbn [app extended].
           destruct (rules_for appName h0 tiers); reflexivity.
        -- reflexivity.
    + injection Ea as <-. split; [exact Hkeys|].
      intros h. rewrite Hget. f_equal. symmetry. apply rules_for_unrouted.
      unfold routed. now rewrite Ei, Es.
    + injection Ea as <-. split; [exact Hkeys|].
      intros h. rewrite Hget. f_equal. symmetry. apply rules_for_unrouted.
      unfold routed. now rewrite Ei.
Qed.

End Collect.

Lemma in_routed_hosts tiers h :
  In h (routed_hosts tiers) <->
  exists tier, In tier tiers /\ routed tier = true /\ host_of tier = h.
Proof.
  unfold routed_hosts. rewrite in_first_occurrences, in_map_iff. split.
  - intros [(tier & Hh & Hin) _]. apply filter_In in Hin as [Hin Hr]. eauto.
  - intros (tier & Hin & Hr & Hh). split; [|intros []].
    exists tier. split; [exact Hh|]. now apply filter_In.
Qed.

(** X13. The Ingress document has one section per host. When
    [generateIngress] returns a document, its rules are one [host] entry
    for each distinct host of the tiers that have both an [ingress] and a
    [service] block, no host twice; the entry of a host lists the paths of
    all tiers routed to it, in tier order; and when no host is written
    like an array index, the entries come in the order the hosts first
    appear among the tiers. *)
Theorem ingress_one_section_per_host
    (tiers : list Tier.t) (namespace appName : value) (doc : string) :
  generateIngress tiers namespace appName = Returned (Some doc) ->
  exists rulesByHost,
    doc = ingressYaml namespace appName rulesByHost /\
    rulesYaml rulesByHost =
      join LF (map (fun host => hostYaml host (rules_for appName host tiers))
                 (Object_keys rulesByHost)) /\
    NoDup (Object_keys rulesByHost) /\
    (forall host, In host (Object_keys rulesByHost) <->
       exists tier, In tier tiers /\ routed tier = true /\ host_of tier = host) /\
    ((forall host, In host (routed_hosts tiers) -> array_index host = None) ->
     Object_keys rulesByHost = routed_hosts tiers).
Proof.
  unfold generateIngress.
  destruct (collectRules appName [] tiers) as [R|e] eqn:Ec; [|discriminate].
  destruct (collectRules_table appName tiers [] R Ec) as [Hkeys Hget].
  cbn [keys map app] in Hkeys. fold (routed_hosts tiers) in Hkeys.
  destruct (Object_keys R) eqn:Eo; [discriminate|]. clear Eo.
  intros [= <-]. exists R. split; [reflexivity|].
  split; [|split; [|split]].
  - unfold rulesYaml. f_equal. apply map_ext. intros h. f_equal.
    rewrite Hget. cbn [get]. unfold extended.
    now destruct (rules_for appName h tiers).
  - apply (Permutation_NoDup (Permutation_sym (Object_keys_perm R))).
    change (keys R) with (map fst R) in Hkeys.
    unfold keys. rewrite Hkeys. apply NoDup_first_occurrences.
  - intros h. rewrite <- in_routed_hosts.
    change (map fst R) with (keys R) in Hkeys. rewrite <- Hkeys.
    split; apply Permutation_in;
      [apply Object_keys_perm | apply Permutation_sym, Object_keys_perm].
  - intros Hn. change (map fst R) with (keys R) in Hkeys. rewrite <- Hkeys.
    apply Object_keys_named. intros k Hk. apply Hn. now rewrite <- Hkeys.
Qed.

(** ** Ingress routes *)

Lemma ingress_one_section_per_host_witness :
  exists rulesByHost,
    ingress_of (generateIngress (or_empty (Payload.tiers routed_request))
                  (Str "dev") (Str "web")) =
      ingressYaml (Str "dev") (Str "web") rulesByHost /\
    rulesYaml rulesByHost =
      join LF (map (fun host =>
                      hostYaml host
                        (rules_for (Str "web") host
                           (or_empty (Payload.tiers routed_request))))
                 (Object_keys rulesByHost)) /\
    NoDup (Object_keys rulesByHost) /\
    (forall host, In host (Object_keys rulesByHost) <->
       exists tier, In tier (or_empty (Payload.tiers routed_request)) /\
         routed tier = true /\ host_of tier = host) /\
    ((forall host, In host (routed_hosts (or_empty (Payload.tiers routed_request))) ->
        array_index host = None) ->
     Object_keys rulesByHost = routed_hosts (or_empty (Payload.tiers routed_request))).
Proof.
  apply (ingress_one_section_per_host (or_empty (Payload.tiers routed_request))).
  reflexivity.
Defined.

Lemma includes_within (a b c : string) :
  includes a b -> includes b c -> includes a c.
Proof.
  intros (p1 & q1 & ->) (p2 & q2 & ->).
  exists (p2 ++ p1), (q1 ++ q2). now rewrite !append_assoc.
Qed.

Lemma in_rules_for appName tiers tier ingress service :
  In tier tiers ->
  Tier.ingress tier = Some ingress ->
  Tier.service tier = Some service ->
  In (rule_of appName tier ingress service)
     (rules_for appName (toString (Ingress.host ingress)) tiers).
Proof.
  intros Hin Hi Hs. unfold rules_for. apply in_flat_map. exists tier.
  split; [exact Hin|]. rewrite Hi, Hs, String.eqb_refl. now left.
Qed.

(** The section of a routed tier's host in the document that
    [generateIngress] returns. *)
Lemma generateIngress_section tiers namespace appName ing tier ingress service :
  generateIngress tiers namespace appName = Returned ing ->
  In tier tiers ->
  Tier.ingress tier = Some ingress ->
  Tier.service tier = Some service ->
  exists doc,
    ing = Some doc /\
    includes (hostYaml (toString (Ingress.host ingress))
                (rules_for appName (toString (Ingress.host ingress)) tiers)) doc.
Proof.
  unfold generateIngress. intros H Hin Hi Hs.
  destruct (collectRules appName [] tiers) as [R|e] eqn:Ec; [|discriminate].
  destruct (collectRules_table appName tiers [] R Ec) as [Hkeys Hget].
  change (keys R = routed_hosts tiers) in Hkeys.
  set (h := toString (Ingress.host ingress)) in *.
  assert (Hh : In h (Object_keys R)).
  { apply (Permutation_in _ (Permutation_sym (Object_keys_perm R))).
    rewrite Hkeys. apply in_routed_hosts. exists tier.
    unfold routed, host_of. rewrite Hi, Hs. auto. }
  destruct (Object_keys R) as [|k ks] eqn:Eo; [destruct Hh|].
  injection H as <-. eexists. split; [reflexivity|].
  unfold ingressYaml.
  repeat lazymatch goal with
         | |- includes _ (rulesYaml _ ++ _) => fail
         | |- _ => apply includes_app_r
         end.
  apply includes_app_l.
  unfold rulesYaml. rewrite Eo. apply includes_join.
  apply in_map_iff. exists h. split; [|exact Hh].
  f_equal. rewrite Hget. cbn [get]. unfold extended.
  now destruct (rules_for appName h tiers).
Qed.

Lemma generateIngress_some_routed tiers namespace appName doc :
  generateIngress tiers namespace appName = Returned (Some doc) ->
  exists tier, In tier tiers /\ routed tier = true.
Proof.
  unfold generateIngress. intros H.
  destruct (collectRules appName [] tiers) as [R|e] eqn:Ec; [|discriminate].
  destruct (collectRules_table appName tiers [] R Ec) as [Hkeys _].
  change (keys R = routed_hosts tiers) in Hkeys.
  destruct (Object_keys R) as [|k ks] eqn:Eo; [discriminate|].
  assert (Hk : In k (routed_hosts tiers)).
  { rewrite <- Hkeys. apply (Permutation_in _ (Object_keys_perm R)).
    rewrite Eo. now left. }
  apply in_routed_hosts in Hk as (tier & Hin & Hr & _). eauto.
Qed.

(** X14. [ingress.yaml] is in a returned output exactly when some tier
    has both an [ingress] and a [service] block. Each such tier has its
    path in that document, under its host, with the tier's own
    [service.port] as backend port and [{appName}-{tier.name}] as backend
    service; and the output holds [service-{tier.name}.yaml], a Service of
    exactly that name. *)
Theorem ingress_routes_every_exposed_tier
    (payload : Payload.t) (files : props string) :
  compile payload = Returned files ->
  (get "ingress.yaml" files <> None <->
   exists tier, In tier (or_empty (Payload.tiers payload)) /\ routed tier = true) /\
  (forall tier ingress service,
     In tier (or_empty (Payload.tiers payload)) ->
     Tier.ingress tier = Some ingress ->
     Tier.service tier = Some service ->
     exists doc svc,
       get "ingress.yaml" files = Some doc /\
       includes (hostYaml (toString (Ingress.host ingress))
                   (rules_for (Payload.appName payload)
                      (toString (Ingress.host ingress))
                      (or_empty (Payload.tiers payload)))) doc /\
       includes (pathYaml (rule_of (Payload.appName payload) tier ingress service)) doc /\
       get ("service-" ++ tier_key tier ++ ".yaml") files = Some svc /\
       includes ("kind: Service" ++ LF ++ "metadata:" ++ LF ++ "  name: " ++
                 Rule.serviceName (rule_of (Payload.appName payload) tier ingress service)
                 ++ LF) svc).
Proof.
  intros Hc. destruct (compile_returned _ _ Hc) as (ing & Hv & Hi & E).
  assert (Hget : get "ingress.yaml" files = ing).
  { rewrite E. apply get_ingress. }
  assert (Hsec : forall tier ingress service,
            In tier (or_empty (Payload.tiers payload)) ->
            Tier.ingress tier = Some ingress ->
            Tier.service tier = Some service ->
            exists doc, ing = Some doc /\
              includes (hostYaml (toString (Ingress.host ingress))
                          (rules_for (Payload.appName payload)
                             (toString (Ingress.host ingress))
                             (or_empty (Payload.tiers payload)))) doc).
  { intros tier ingress service.
    apply (generateIngress_section _ (Payload.namespace payload)). exact Hi. }
  split; [split|].
  - rewrite Hget. destruct ing as [doc|]; [|now intros []].
    intros _. now apply (generateIngress_some_routed _ _ _ _ Hi).
  - intros (tier & Hin & Hr). unfold routed in Hr.
    destruct (Tier.ingress tier) as [ingress|] eqn:Ei; [|discriminate].
    destruct (Tier.service tier) as [service|] eqn:Es; [|discriminate].
    destruct (Hsec _ _ _ Hin Ei Es) as (doc & -> & _). rewrite Hget. discriminate.
  - intros tier ingress service Hin Ei Es.
    destruct (Hsec _ _ _ Hin Ei Es) as (doc & -> & Hdoc).
    assert (Hsvc : get ("service-" ++ tier_key tier ++ ".yaml") files <> None).
    { apply (file_present _ _ _ _ Hc Hi).
      destruct (generateService tier (Payload.namespace payload)
                  (Payload.appName payload)) as [d|] eqn:Eg;
        [|apply generateService_none in Eg; congruence].
      exists d. apply (in_writes_pass2 _ _ tier); [exact Hin|].
      unfold pass2_writes, service_writes. rewrite in_app_iff. right.
      rewrite Eg. now left. }
    destruct (get ("service-" ++ tier_key tier ++ ".yaml") files) as [svc|] eqn:Eg;
      [|now elim Hsvc].
    exists doc, svc. split; [exact Hget|]. split; [exact Hdoc|].
    split; [|split; [reflexivity|]].
    + apply (includes_within _ (hostYaml (toString (Ingress.host ingress))
               (rules_for (Payload.appName payload) (toString (Ingress.host ingress))
                  (or_empty (Payload.tiers payload))))); [|exact Hdoc].
      unfold hostYaml. do 7 apply includes_app_r. apply includes_join.
      apply in_map. now apply in_rules_for.
    + destruct (file_emitted _ _ _ _ Hc Eg) as (ing' & He & _).
      apply emitted_service_key in He as (t' & _ & Hk & Hs).
      apply generateService_selector in Hs as [_ Hs].
      rewrite Hk in Hs. unfold rule_of. cbn [Rule.serviceName].
      rewrite !append_assoc. exact Hs.
Qed.

Lemma ingress_routes_every_exposed_tier_witness :
  (get "ingress.yaml" (files_of (compile routed_request)) <> None <->
   exists tier, In tier (or_empty (Payload.tiers routed_request)) /\ routed tier = true) /\
  (forall tier ingress service,
     In tier (or_empty (Payload.tiers routed_request)) ->
     Tier.ingress tier = Some ingress ->
     Tier.service tier = Some service ->
     exists doc svc,
       get "ingress.yaml" (files_of (compile routed_request)) = Some doc /\
       includes (hostYaml (toString (Ingress.host ingress))
                   (rules_for (Payload.appName routed_request)
                      (toString (Ingress.host ingress))
                      (or_empty (Payload.tiers routed_request)))) doc /\
       includes (pathYaml (rule_of (Payload.appName routed_request) tier ingress service))
         doc /\
       get ("service-" ++ tier_key tier ++ ".yaml") (files_of (compile routed_request))
         = Some svc /\
       includes ("kind: Service" ++ LF ++ "metadata:" ++ LF ++ "  name: " ++
                 Rule.serviceName
                   (rule_of (Payload.appName routed_request) tier ingress service)
                 ++ LF) svc).
Proof. apply (ingress_routes_every_exposed_tier routed_request). reflexivity. Defined.

(** ** Container settings and PersistentVolumes *)

Ltac walk_to section :=
  repeat lazymatch goal with
         | |- includes _ (section ++ _) => fail
         | |- _ => apply includes_app_r
         end;
  apply includes_app_l.

Lemma in_workloads_env tier section :
  includes section (renderEnv (Tier.env tier)) -> in_workloads tier section.
Proof.
  intros H ns app cm sec pvc. unfold generateDeployment, generateStatefulSet.
  cbv zeta. split; walk_to (renderEnv (Tier.env tier)); exact H.
Qed.

Lemma in_workloads_resources tier section :
  includes section (renderResources (Tier.resources tier)) -> in_workloads tier section.
Proof.
  intros H ns app cm sec pvc. unfold generateDeployment, generateStatefulSet.
  cbv zeta. split; walk_to (renderResources (Tier.resources tier)); exact H.
Qed.

(** X15. Every entry of a tier's [env] array is in the container of
    its workload, Deployment or StatefulSet alike, under an [env:] key, as
    a [name] and a double-quoted [value]. *)
Theorem env_entries_in_workloads (tier : Tier.t) (env : list EnvVar.t) (e : EnvVar.t) :
  Tier.env tier = Some env ->
  In e env ->
  in_workloads tier (LF ++ "          env:" ++ LF) /\
  in_workloads tier (envEntry e).
Proof.
  intros He Hin. split; apply in_workloads_env; rewrite He; unfold renderEnv;
    cbn [or_empty]; (destruct env as [|e0 env']; [destruct Hin|]).
  - needle_at_head.
  - do 3 apply includes_app_r. apply includes_join.
    change (In (envEntry e) (map envEntry (e0 :: env'))). now apply in_map.
Qed.

Lemma env_entries_in_workloads_witness :
  in_workloads (sized_tier requests_and_limits) (LF ++ "          env:" ++ LF) /\
  in_workloads (sized_tier requests_and_limits)
    (envEntry (EnvVar.mk (Str "MODE") (Str "fast"))).
Proof.
  apply (env_entries_in_workloads (sized_tier requests_and_limits)
           [EnvVar.mk (Str "MODE") (Str "fast")]); [reflexivity | now left].
Defined.

(** X16. The [limits:] key of a rendered [resources] block changes
    its indentation with what precedes it. When requests and limits are
    both given, [limits:] is written at the indentation of the [cpu] and
    [memory] entries of [requests], fourteen spaces, and its own entries
    at the same fourteen; when only limits are given, [limits:] is written
    at twelve spaces with its entries at fourteen. Both workload renderers
    embed the block as is. *)
Theorem limits_header_indentation (tier : Tier.t) (r : Resources.t) :
  Tier.resources tier = Some r ->
  truthy (Resources.limitsCpu r) = true ->
  truthy (Resources.limitsMemory r) = true ->
  (truthy (Resources.requestsCpu r) = true ->
   truthy (Resources.requestsMemory r) = true ->
   in_workloads tier
     (LF ++ "          resources:" ++ LF ++
      "            requests:" ++ LF ++
      "              cpu: " ++ DQ ++ toString (Resources.requestsCpu r) ++ DQ ++ LF ++
      "              memory: " ++ DQ ++ toString (Resources.requestsMemory r) ++ DQ ++ LF ++
      "              limits:" ++ LF ++
      "              cpu: " ++ DQ ++ toString (Resources.limitsCpu r) ++ DQ ++ LF ++
      "              memory: " ++ DQ ++ toString (Resources.limitsMemory r) ++ DQ)) /\
  (truthy (Resources.requestsCpu r) = false ->
   truthy (Resources.requestsMemory r) = false ->
   in_workloads tier
     (LF ++ "          resources:" ++ LF ++
      "            limits:" ++ LF ++
      "              cpu: " ++ DQ ++ toString (Resources.limitsCpu r) ++ DQ ++ LF ++
      "              memory: " ++ DQ ++ toString (Resources.limitsMemory r) ++ DQ)).
Proof.
  intros Hr Hlc Hlm. split; intros Hrc Hrm; apply in_workloads_resources;
    rewrite Hr; unfold renderResources; cbv zeta; rewrite Hlc, Hlm, Hrc, Hrm;
    apply includes_head_eq with (post := EmptyString);
    rewrite append_nil_r; cbn; repeat rewrite append_assoc; reflexivity.
Qed.

Lemma limits_header_indentation_witness :
  in_workloads (sized_tier requests_and_limits)
    (LF ++ "          resources:" ++ LF ++
     "            requests:" ++ LF ++
     "              cpu: " ++ DQ ++ "100m" ++ DQ ++ LF ++
     "              memory: " ++ DQ ++ "128Mi" ++ DQ ++ LF ++
     "              limits:" ++ LF ++
     "              cpu: " ++ DQ ++ "500m" ++ DQ ++ LF ++
     "              memory: " ++ DQ ++ "256Mi" ++ DQ) /\
  in_workloads (sized_tier limits_only)
    (LF ++ "          resources:" ++ LF ++
     "            limits:" ++ LF ++
     "              cpu: " ++ DQ ++ "500m" ++ DQ ++ LF ++
     "              memory: " ++ DQ ++ "256Mi" ++ DQ).
Proof.
  split.
  - apply (limits_header_indentation (sized_tier requests_and_limits)
             requests_and_limits); reflexivity.
  - apply (limits_header_indentation (sized_tier limits_only) limits_only);
      reflexivity.
Defined.

Lemma generatePV_document tier appName pv file :
  Tier.pv tier = Some pv ->
  generatePV tier appName = Some file ->
  includes (pvHead appName (tier_key tier) pv) (PvFile.content file) /\
  (Pv.type pv = Str "hostPath" ->
   endsWith ("  hostPath:" ++ LF ++ "    path: " ++
             toString (or_else (Pv.hostPath pv)
                         (Str ("/mnt/data/" ++ toString appName ++ "-" ++ tier_key tier)))
             ++ LF) (PvFile.content file)) /\
  (Pv.type pv = Str "local" ->
   endsWith ("  local:" ++ LF ++ "    path: " ++
             toString (or_else (Pv.localPath pv)
                         (Str ("/mnt/local/" ++ toString appName ++ "-" ++ tier_key tier)))
             ++ LF) (PvFile.content file)).
Proof.
  intros Hpv. unfold generatePV. rewrite Hpv. cbv zeta.
  destruct (negb (truthy (Pv.enabled pv)) || negb (truthy (Pv.type pv))
            || is_str (Pv.type pv) "none"); [discriminate|].
  destruct (volumeSource tier appName pv) as [src|] eqn:Es; [|discriminate].
  intros H.
  assert (Hh : Pv.type pv = Str "hostPath" ->
          src = "  hostPath:" ++ LF ++ "    path: " ++
                toString (or_else (Pv.hostPath pv)
                  (Str ("/mnt/data/" ++ toString appName ++ "-" ++ tier_key tier)))
                ++ LF).
  { intros Ht. unfold volumeSource in Es. rewrite Ht in Es.
    change (is_str (Str "hostPath") "hostPath") with true in Es. cbv zeta in Es.
    symmetry. now injection Es. }
  assert (Hl : Pv.type pv = Str "local" ->
          src = "  local:" ++ LF ++ "    path: " ++
                toString (or_else (Pv.localPath pv)
                  (Str ("/mnt/local/" ++ toString appName ++ "-" ++ tier_key tier)))
                ++ LF).
  { intros Ht. unfold volumeSource in Es. rewrite Ht in Es.
    change (is_str (Str "local") "hostPath") with false in Es.
    change (is_str (Str "local") "nfs") with false in Es.
    change (is_str (Str "local") "local") with true in Es. cbv zeta in Es.
    symmetry. now injection Es. }
  clear Es.
  match type of H with Some (PvFile.mk _ ?c) = _ =>
    assert (Hc : includes (pvHead appName (tier_key tier) pv) c /\ endsWith src c)
      by (split; [unfold pvHead, tier_key; find_in_template | find_at_end]);
    set (content := c) in *; clearbody content
  end.
  injection H as <-. cbn [PvFile.content]. destruct Hc as [Hc He].
  split; [exact Hc|]. split; intros Ht.
  - now rewrite <- (Hh Ht).
  - now rewrite <- (Hl Ht).
Qed.

(** X17. A PersistentVolume file is the document of a tier of that
    name. Its metadata is the name [{appName}-{n}-pv] alone, followed
    directly by [spec:] (no namespace); capacity, access mode and reclaim
    policy are the tier's, or [5Gi], [ReadWriteOnce] and [Retain] when
    these are undefined; and a [hostPath] ([local]) volume without a path
    points to [/mnt/data/{appName}-{n}] ([/mnt/local/{appName}-{n}]). *)
Theorem pv_document_defaults
    (payload : Payload.t) (files : props string) (n doc : string) :
  compile payload = Returned files ->
  get ("pv-" ++ n ++ ".yaml") files = Some doc ->
  exists tier pv,
    In tier (or_empty (Payload.tiers payload)) /\ tier_key tier = n /\
    Tier.pv tier = Some pv /\
    includes (pvHead (Payload.appName payload) n pv) doc /\
    (Pv.type pv = Str "hostPath" ->
     endsWith ("  hostPath:" ++ LF ++ "    path: " ++
               toString (or_else (Pv.hostPath pv)
                           (Str ("/mnt/data/" ++ toString (Payload.appName payload)
                                 ++ "-" ++ n)))
               ++ LF) doc) /\
    (Pv.type pv = Str "local" ->
     endsWith ("  local:" ++ LF ++ "    path: " ++
               toString (or_else (Pv.localPath pv)
                           (Str ("/mnt/local/" ++ toString (Payload.appName payload)
                                 ++ "-" ++ n)))
               ++ LF) doc).
Proof.
  intros Hc Hg. destruct (file_emitted _ _ _ _ Hc Hg) as (ing & He & _).
  apply emitted_pv_key in He as (tier & file & Hin & Hk & Hreq & Hgen & ->).
  unfold pv_requested in Hreq.
  destruct (Tier.pv tier) as [pv|] eqn:Ep; [|discriminate].
  exists tier, pv. rewrite <- Hk.
  destruct (generatePV_document _ _ _ _ Ep Hgen) as (H1 & H2 & H3).
  repeat split; auto.
Qed.

Lemma pv_document_defaults_witness :
  exists tier pv,
    In tier (or_empty (Payload.tiers hostpath_request)) /\ tier_key tier = "db" /\
    Tier.pv tier = Some pv /\
    includes (pvHead (Payload.appName hostpath_request) "db" pv)
      (file_of "pv-db.yaml" (files_of (compile hostpath_request))) /\
    (Pv.type pv = Str "hostPath" ->
     endsWith ("  hostPath:" ++ LF ++ "    path: " ++
               toString (or_else (Pv.hostPath pv)
                           (Str ("/mnt/data/" ++
                                 toString (Payload.appName hostpath_request)
                                 ++ "-" ++ "db")))
               ++ LF)
       (file_of "pv-db.yaml" (files_of (compile hostpath_request)))) /\
    (Pv.type pv = Str "local" ->
     endsWith ("  local:" ++ LF ++ "    path: " ++
               toString (or_else (Pv.localPath pv)
                           (Str ("/mnt/local/" ++
                                 toString (Payload.appName hostpath_request)
                                 ++ "-" ++ "db")))
               ++ LF)
       (file_of "pv-db.yaml" (files_of (compile hostpath_request)))).
Proof.
  apply (pv_document_defaults hostpath_request
           (files_of (compile hostpath_request)) "db"); reflexivity.
Defined.

(** ** Probes and data entries *)

Lemma in_workloads_liveness tier section :
  includes section (renderHttpProbe (Tier.livenessProbe tier) "liveness") ->
  in_workloads tier section.
Proof.
  intros H ns app cm sec pvc. unfold generateDeployment, generateStatefulSet.
  cbv zeta. split; walk_to (renderHttpProbe (Tier.livenessProbe tier) "liveness");
    exact H.
Qed.

Lemma in_workloads_readiness tier section :
  includes section (renderHttpProbe (Tier.readinessProbe tier) "readiness") ->
  in_workloads tier section.
Proof.
  intros H ns app cm sec pvc. unfold generateDeployment, generateStatefulSet.
  cbv zeta. split; walk_to (renderHttpProbe (Tier.readinessProbe tier) "readiness");
    exact H.
Qed.

Lemma renderHttpProbe_section probe type :
  truthy (Probe.path probe) = true ->
  truthy (Probe.port probe) = true ->
  renderHttpProbe (Some probe) type = probeSection type probe.
Proof. intros Hp Hq. unfold renderHttpProbe. now rewrite Hp, Hq. Qed.

(** X18. A probe with a truthy [path] and [port] is in the container
    of the tier's workload, Deployment or StatefulSet alike, as an
    [httpGet] probe of its kind, with [initialDelaySeconds] and
    [periodSeconds] equal to 10 where the request leaves them undefined. *)
Theorem probes_in_workloads (tier : Tier.t) (probe : Probe.t) :
  truthy (Probe.path probe) = true ->
  truthy (Probe.port probe) = true ->
  (Tier.livenessProbe tier = Some probe ->
   in_workloads tier (probeSection "liveness" probe)) /\
  (Tier.readinessProbe tier = Some probe ->
   in_workloads tier (probeSection "readiness" probe)).
Proof.
  intros Hp Hq. split; intros Ht.
  - apply in_workloads_liveness. rewrite Ht, (renderHttpProbe_section _ _ Hp Hq).
    apply includes_refl.
  - apply in_workloads_readiness. rewrite Ht, (renderHttpProbe_section _ _ Hp Hq).
    apply includes_refl.
Qed.

Lemma probes_in_workloads_witness :
  in_workloads probed_tier
    (probeSection "liveness" (Probe.mk (Str "/healthz") (Num 80) Undefined Undefined)) /\
  includes ("            initialDelaySeconds: 10" ++ LF ++
            "            periodSeconds: 10")
    (probeSection "liveness" (Probe.mk (Str "/healthz") (Num 80) Undefined Undefined)).
Proof.
  split.
  - apply (probes_in_workloads probed_tier
             (Probe.mk (Str "/healthz") (Num 80) Undefined Undefined));
      reflexivity.
  - apply includesb_true. reflexivity.
Defined.

Lemma in_dataLines d data : In d data -> includes (dataLine d) (dataLines data).
Proof.
  intros H. unfold dataLines. apply includes_join.
  change (In (dataLine d) (map dataLine data)). now apply in_map.
Qed.

(** X19. A ConfigMap (Secret) file is the document of a tier of that
    name and ends with that tier's [configMapData] ([secretData]) under
    [data:] ([type: Opaque], [stringData:]): every entry is in it, as its
    key and its double-quoted value. *)
Theorem data_entries_rendered
    (payload : Payload.t) (files : props string) (n : string) :
  compile payload = Returned files ->
  (forall doc, get ("configmap-" ++ n ++ ".yaml") files = Some doc ->
     exists tier data,
       In tier (or_empty (Payload.tiers payload)) /\ tier_key tier = n /\
       Tier.configMapData tier = Some data /\
       endsWith ("data:" ++ LF ++ dataLines data ++ LF) doc /\
       forall d, In d data -> includes (dataLine d) doc) /\
  (forall doc, get ("secret-" ++ n ++ ".yaml") files = Some doc ->
     exists tier data,
       In tier (or_empty (Payload.tiers payload)) /\ tier_key tier = n /\
       Tier.secretData tier = Some data /\
       endsWith ("type: Opaque" ++ LF ++ "stringData:" ++ LF ++ dataLines data ++ LF)
         doc /\
       forall d, In d data -> includes (dataLine d) doc).
Proof.
  intros Hc. split; intros doc Hg;
    destruct (file_emitted _ _ _ _ Hc Hg) as (ing & He & _).
  - apply emitted_configmap_key in He as (tier & cm & Hin & Hk & Hr & ->).
    revert Hr. unfold renderConfigMap. cbv zeta.
    destruct (Tier.configMapData tier) as [data|] eqn:Ed; [|discriminate].
    cbn [or_empty]. destruct data as [|d0 data]; [discriminate|].
    set (all := d0 :: data). intros H.
    match type of H with Some (CmRef.mk _ ?c _) = _ =>
      assert (Hi : endsWith ("data:" ++ LF ++ dataLines all ++ LF) c /\
                   includes (dataLines all) c)
        by (split; [find_at_end | find_in_template]);
      set (content := c) in *; clearbody content
    end.
    injection H as <-. cbn [CmRef.content]. destruct Hi as [He Hi].
    exists tier, all. repeat split; auto.
    intros d Hd. apply (includes_within _ (dataLines all)); [|exact Hi].
    now apply in_dataLines.
  - apply emitted_secret_key in He as (tier & cm & Hin & Hk & Hr & ->).
    revert Hr. unfold renderSecret. cbv zeta.
    destruct (Tier.secretData tier) as [data|] eqn:Ed; [|discriminate].
    cbn [or_empty]. destruct data as [|d0 data]; [discriminate|].
    set (all := d0 :: data). intros H.
    match type of H with Some (SecretRef.mk _ ?c _) = _ =>
      assert (Hi : endsWith ("type: Opaque" ++ LF ++ "stringData:" ++ LF ++
                             dataLines all ++ LF) c /\
                   includes (dataLines all) c)
        by (split; [find_at_end | find_in_template]);
      set (content := c) in *; clearbody content
    end.
    injection H as <-. cbn [SecretRef.content]. destruct Hi as [He Hi].
    exists tier, all. repeat split; auto.
    intros d Hd. apply (includes_within _ (dataLines all)); [|exact Hi].
    now apply in_dataLines.
Qed.

Lemma data_entries_rendered_witness :
  includes (dataLine (KeyValue.mk (Str "mode") (Str "fast")))
    (file_of "configmap-api.yaml" (files_of (compile furnished_request))) /\
  includes (dataLine (KeyValue.mk (Str "token") (Str "s3cr3t")))
    (file_of "secret-api.yaml" (files_of (compile furnished_request))).
Proof.
  destruct (data_entries_rendered furnished_request
              (files_of (compile furnished_request)) "api" eq_refl) as [Hcm Hsec].
  destruct (Hcm _ eq_refl) as (tier & data & [<-|[]] & _ & Hd & _ & H1).
  destruct (Hsec _ eq_refl) as (tier' & data' & [<-|[]] & _ & Hd' & _ & H2).
  injection Hd as <-. injection Hd' as <-.
  split; [apply H1 | apply H2]; now left.
Defined.

(** ** The server *)

(** X20. The responses of [POST /api/generate/:module]. The status is
    200, 400 or 500. It is 200 exactly when the module is [kubernetes] and
    the generator returns, and the body then carries the generated files.
    It is 400 exactly when the module is another one (the body names it as
    not implemented, whatever the request body is) or the request fails
    validation (the body carries [Validation failed] and the list of
    failed checks). When the generator throws a TypeError the status is
    500 and the body carries the error's message, or
    [Internal Server Error] when that is empty, and no details. The
    handler also logs the exception, which the response does not show. *)
Theorem generate_endpoint_responses
    (typeErrorMessage module : string) (reqBody : Payload.t) :
  let response := Server.postGenerate typeErrorMessage module reqBody in
  (Server.status response = 200%Z \/ Server.status response = 400%Z \/
   Server.status response = 500%Z) /\
  (Server.status response = 200%Z <->
   module = "kubernetes" /\ exists files, compile reqBody = Returned files) /\
  (Server.status response = 400%Z <->
   module <> "kubernetes" \/ ~ validated reqBody) /\
  (module <> "kubernetes" ->
   Server.json response =
     Server.NotImplemented ("Module '" ++ module ++ "' not implemented yet")) /\
  (module = "kubernetes" ->
   forall files, compile reqBody = Returned files ->
   Server.json response = Server.Generated files) /\
  (module = "kubernetes" -> ~ validated reqBody ->
   validation_errors reqBody <> [] /\
   Server.json response =
     Server.Failed "Validation failed" (Some (validation_errors reqBody))) /\
  (module = "kubernetes" -> compile reqBody = Threw TypeError ->
   Server.status response = 500%Z /\
   Server.json response =
     Server.Failed (if typeErrorMessage =? EmptyString
                    then "Internal Server Error" else typeErrorMessage) None).
Proof.
  cbv zeta. unfold Server.postGenerate.
  destruct (String.eqb_spec module "kubernetes") as [->|Hm].
  - change generateKubernetesManifests with compile.
    destruct (validation_errors reqBody) as [|m ms] eqn:Ev.
    + assert (Hv : validated reqBody) by exact Ev.
      destruct (ingress_renders (or_empty (Payload.tiers reqBody))) eqn:Ei.
      * destruct (compile_returns reqBody Hv Ei) as (ing & _ & ->).
        cbn [Server.status Server.json].
        split; [|split; [|split; [|split; [|split; [|split]]]]].
        -- now left.
        -- split; [intros _; split; [reflexivity | eauto] | reflexivity].
        -- split; [discriminate | intros [H|H]; [now elim H | contradiction]].
        -- intros H. now elim H.
        -- intros _ files [= <-]. reflexivity.
        -- intros _ H. contradiction.
        -- intros _ H. discriminate H.
      * rewrite (compile_throws_on_inherited_host reqBody Hv Ei).
        cbn [Server.status Server.json Server.statusCode Server.message Server.details].
        split; [|split; [|split; [|split; [|split; [|split]]]]].
        -- right. now right.
        -- split; [discriminate | intros [_ [files H]]; discriminate H].
        -- split; [discriminate | intros [H|H]; [now elim H | contradiction]].
        -- intros H. now elim H.
        -- intros _ files H. discriminate H.
        -- intros _ H. contradiction.
        -- intros _ _. split; reflexivity.
    + assert (Hv : ~ validated reqBody) by (unfold validated; congruence).
      assert (Hc : compile reqBody = Threw (Error "Validation failed" 400 (m :: ms))).
      { unfold compile, generateKubernetesManifests. now rewrite Ev. }
      rewrite Hc.
      cbn [Server.status Server.json Server.statusCode Server.message Server.details].
      change (400 =? 0)%Z with false.
      change ("Validation failed" =? EmptyString) with false. cbv iota.
      split; [|split; [|split; [|split; [|split; [|split]]]]].
      * right. now left.
      * split; [discriminate | intros [_ [files H]]; discriminate H].
      * split; [intros _; now right | reflexivity].
      * intros H. now elim H.
      * intros _ files H. discriminate H.
      * intros _ _. split; [discriminate | reflexivity].
      * intros _ H. discriminate H.
  - cbn [Server.status Server.json].
    split; [|split; [|split; [|split; [|split; [|split]]]]].
    + right. now left.
    + split; [discriminate | intros [H _]; contradiction].
    + split; [intros _; now left | reflexivity].
    + reflexivity.
    + intros H. contradiction.
    + intros H. contradiction.
    + intros H. contradiction.
Qed.

Lemma last_of_app {A} (l1 l2 : list A) (d : A) :
  l2 <> [] -> last (l1 ++ l2) d = last l2 d.
Proof.
  intros H. induction l1 as [|x l1 IH]; [reflexivity|].
  cbn [app last]. rewrite IH. destruct (l1 ++ l2)%list eqn:E; [|reflexivity].
  apply app_eq_nil in E as [_ E]. contradiction.
Qed.

Section Retry.

Variables (init : nat -> option string) (retries : nat) (delayMs : Z).

Lemma attempts_app t1 t2 : attempts (t1 ++ t2) = attempts t1 + attempts t2.
Proof. unfold attempts. now rewrite filter_app, length_app. Qed.

Lemma waits_app t1 t2 : waits (t1 ++ t2) = waits t1 + waits t2.
Proof. unfold waits. now rewrite filter_app, length_app. Qed.

Lemma pause_waits i :
  waits (if (i <? retries - 1)%nat then [Server.Sleep delayMs] else []) =
  if (i <? retries - 1)%nat then 1 else 0.
Proof. now destruct (i <? retries - 1)%nat. Qed.

Lemma pause_attempts i :
  attempts (if (i <? retries - 1)%nat then [Server.Sleep delayMs] else []) = 0.
Proof. now destruct (i <? retries - 1)%nat. Qed.

Lemma retryFrom_bounds remaining : forall i,
  i + remaining = retries ->
  attempts (Server.retryFrom init retries delayMs i remaining) <= remaining /\
  waits (Server.retryFrom init retries delayMs i remaining) <= remaining - 1 /\
  forall d, In (Server.Sleep d) (Server.retryFrom init retries delayMs i remaining) ->
            d = delayMs.
Proof.
  induction remaining as [|rem IH]; intros i Hi; cbn [Server.retryFrom].
  - repeat split; [cbn; lia | cbn; lia | intros d [H|[]]; discriminate H].
  - destruct (init i) as [message|].
    + destruct (IH (S i) ltac:(lia)) as (Ha & Hw & Hd).
      change (Server.DbInit :: Server.Warn ?w :: ?rest) with
        ([Server.DbInit; Server.Warn w] ++ rest)%list.
      rewrite !attempts_app, !waits_app, pause_waits, pause_attempts.
      repeat split.
      * cbn. lia.
      * destruct (Nat.ltb_spec i (retries - 1)); cbn; lia.
      * intros d. rewrite !in_app_iff. intros [[H|[H|[]]]|[H|H]];
          try discriminate H; [|now apply Hd].
        destruct (i <? retries - 1)%nat; [|destruct H].
        destruct H as [H|[]]. now injection H.
    + repeat split; [cbn; lia | cbn; lia |].
      intros d [H|[H|[]]]; discriminate H.
Qed.

(** The run up to the first call of [db.init] that resolves. *)
Lemma retryFrom_success k : forall i remaining,
  i + remaining = retries ->
  k < remaining ->
  init (i + k) = None ->
  (forall j, j < k -> init (i + j) <> None) ->
  attempts (Server.retryFrom init retries delayMs i remaining) = S k /\
  waits (Server.retryFrom init retries delayMs i remaining) = k /\
  last (Server.retryFrom init retries delayMs i remaining) Server.DbInit =
    Server.Log "DB initialized".
Proof.
  induction k as [|k IH]; intros i remaining Hi Hk Hnone Hfail;
    (destruct remaining as [|rem]; [lia|]); cbn [Server.retryFrom].
  - rewrite Nat.add_0_r in Hnone. rewrite Hnone. repeat split.
  - destruct (init i) as [message|] eqn:E.
    + destruct (IH (S i) rem ltac:(lia) ltac:(lia)) as (Ha & Hw & Hl).
      * now replace (S i + k) with (i + S k) by lia.
      * intros j Hj. replace (S i + j) with (i + S j) by lia. apply Hfail. lia.
      * change (Server.DbInit :: Server.Warn ?w :: ?rest) with
          ([Server.DbInit; Server.Warn w] ++ rest)%list.
        rewrite !attempts_app, !waits_app, pause_waits, pause_attempts, Ha, Hw.
        assert (Hlt : (i <? retries - 1)%nat = true) by (apply Nat.ltb_lt; lia).
        rewrite Hlt. repeat split.
        rewrite app_assoc, last_of_app; [exact Hl|].
        destruct rem; [lia|]. cbn [Server.retryFrom]. discriminate.
    + elim (Hfail 0); [lia|]. now rewrite Nat.add_0_r.
Qed.

(** The run in which every call rejects. *)
Lemma retryFrom_failure remaining : forall i,
  i + remaining = retries ->
  (forall j, j < remaining -> init (i + j) <> None) ->
  attempts (Server.retryFrom init retries delayMs i remaining) = remaining /\
  waits (Server.retryFrom init retries delayMs i remaining) = remaining - 1 /\
  last (Server.retryFrom init retries delayMs i remaining) Server.DbInit =
    Server.Warn "DB init failed after retries; starting server anyway".
Proof.
  induction remaining as [|rem IH]; intros i Hi Hfail; cbn [Server.retryFrom].
  - repeat split.
  - destruct (init i) as [message|] eqn:E.
    + destruct (IH (S i) ltac:(lia)) as (Ha & Hw & Hl).
      * intros j Hj. replace (S i + j) with (i + S j) by lia. apply Hfail. lia.
      * change (Server.DbInit :: Server.Warn ?w :: ?rest) with
          ([Server.DbInit; Server.Warn w] ++ rest)%list.
        rewrite !attempts_app, !waits_app, pause_waits, pause_attempts, Ha, Hw.
        repeat split.
        -- destruct (Nat.ltb_spec i (retries - 1)); cbn; lia.
        -- rewrite app_assoc, last_of_app; [exact Hl|].
           destruct rem; cbn [Server.retryFrom]; discriminate.
    + elim (Hfail 0); [lia|]. now rewrite Nat.add_0_r.
Qed.

Lemma retryFrom_never_listens port remaining : forall i,
  ~ In (Server.Listen port) (Server.retryFrom init retries delayMs i remaining).
Proof.
  induction remaining as [|rem IH]; intros i; cbn [Server.retryFrom].
  - intros [H|[]]. discriminate H.
  - destruct (init i).
    + intros [H|[H|H]]; try discriminate H.
      apply in_app_iff in H as [H|H]; [|now apply IH in H].
      destruct (i <? retries - 1)%nat; [|destruct H].
      destruct H as [H|[]]. discriminate H.
    + intros [H|[H|[]]]; discriminate H.
Qed.

End Retry.

(** X21. The schedule of [initDbWithRetry]: at most [retries] calls of
    [db.init], at most [retries - 1] waits, each of [delayMs]. When the
    call number [k] (from 0) is the first to resolve, there are exactly
    [k + 1] calls and [k] waits and the run ends with the log
    [DB initialized]; when every call rejects, there are exactly
    [retries] calls and [retries - 1] waits (none after the last call) and
    the run ends with the warning that the server starts anyway. *)
Theorem initDbWithRetry_schedule
    (init : nat -> option string) (retries : nat) (delayMs : Z) :
  let run := Server.initDbWithRetry init retries delayMs in
  attempts run <= retries /\
  waits run <= retries - 1 /\
  (forall d, In (Server.Sleep d) run -> d = delayMs) /\
  (forall k, k < retries -> init k = None ->
     (forall j, j < k -> init j <> None) ->
     attempts run = S k /\ waits run = k /\
     last run Server.DbInit = Server.Log "DB initialized") /\
  ((forall j, j < retries -> init j <> None) ->
   attempts run = retries /\ waits run = retries - 1 /\
   last run Server.DbInit =
     Server.Warn "DB init failed after retries; starting server anyway").
Proof.
  cbv zeta. unfold Server.initDbWithRetry.
  destruct (retryFrom_bounds init retries delayMs retries 0 eq_refl) as (Ha & Hw & Hd).
  split; [exact Ha|]. split; [exact Hw|]. split; [exact Hd|]. split.
  - intros k Hk Hnone Hfail.
    now apply (retryFrom_success init retries delayMs k 0 retries).
  - intros Hfail. now apply (retryFrom_failure init retries delayMs retries 0).
Qed.

(** X22. The server starts listening whatever the database does: the
    start-up block calls [app.listen] once, on the port of the environment
    or on 5000, after at most 15 calls of [db.init] and at most 14 waits of
    2000 milliseconds, and then logs the port. *)
Theorem server_listens_after_bounded_wait
    (envPort : value) (init : nat -> option string) :
  exists run,
    Server.start envPort init =
      (run ++ [Server.Listen (or_else envPort (Num 5000));
               Server.Log ("Backend listening on port " ++
                           toString (or_else envPort (Num 5000)))])%list /\
    (forall port, ~ In (Server.Listen port) run) /\
    attempts run <= 15 /\
    waits run <= 14 /\
    (forall d, In (Server.Sleep d) run -> d = 2000%Z).
Proof.
  exists (Server.initDbWithRetry init 15 2000). unfold Server.start.
  destruct (retryFrom_bounds init 15 2000 15 0 eq_refl) as (Ha & Hw & Hd).
  split; [reflexivity|]. split; [|split; [exact Ha|split; [exact Hw | exact Hd]]].
  intros port. apply retryFrom_never_listens.
Qed.
